(** * OtterBot: a shallow embedding of the transcript downloader

    The development follows the three Python sources:
    - [config.py]            constants,
    - [otter_downloader.py]  the sequential downloader ([Module Downloader]),
    - [otter_parallel.py]    the worker-pool variant ([Module Parallel]).

    Python [str] values are sequences of Unicode code points; they are
    modelled as [list N].  Python dictionaries are [gmap]s, Python lists
    are lists.  The browser driver, the clock and the file system are not
    part of the repository: they appear as explicit arguments (oracles)
    of the functions that use them. *)

From Stdlib Require Import ZArith NArith Lia String Ascii Bool.
From stdpp Require Import gmap strings list fin_maps.

#[local] Set Warnings "-register-all".
#[local] Set Warnings "-notation-incompatible-prefix".

(** ** Python strings *)

Abbreviation pystr := (list N).

Module PyStr.

(** An ASCII literal as a Python string. *)
Definition py (s : string) : pystr :=
  map N_of_ascii (String.list_ascii_of_string s).

Definition underscore : N := 95%N.
Definition newline : N := 10%N.

Definition is_underscore (c : N) : bool := (c =? underscore)%N.
Definition is_newline (c : N) : bool := (c =? newline)%N.

(** [str.isspace] on one code point; it is also the class [\s] of the
    [re] module on [str] patterns. *)
Definition is_space (c : N) : bool :=
  (((9 <=? c) && (c <=? 13)) || ((28 <=? c) && (c <=? 32))
   || (c =? 133) || (c =? 160) || (c =? 5760)
   || ((8192 <=? c) && (c <=? 8202))
   || (c =? 8232) || (c =? 8233) || (c =? 8239) || (c =? 8287)
   || (c =? 12288))%N.

(** Membership in a bracketed character class [[...]]. *)
Definition in_class (cls : list N) (c : N) : bool :=
  existsb (N.eqb c) cls.

(** [re.sub('[cls]', repl, s)]: every character of the class is
    replaced on its own. *)
Definition re_sub_class (cls : N -> bool) (repl : pystr) (s : pystr) : pystr :=
  flat_map (fun c => if cls c then repl else [c]) s.

(** [re.sub('X+', repl, s)] for a one-character pattern [X]: each
    maximal run of [X] is replaced once.  [in_run] says that the
    previous character was part of the run being replaced. *)
Fixpoint re_sub_plus_from (cls : N -> bool) (repl : pystr)
         (in_run : bool) (s : pystr) : pystr :=
  match s with
  | [] => []
  | c :: s' =>
      if cls c then
        (if in_run then [] else repl) ++ re_sub_plus_from cls repl true s'
      else c :: re_sub_plus_from cls repl false s'
  end.

Definition re_sub_plus (cls : N -> bool) (repl : pystr) (s : pystr) : pystr :=
  re_sub_plus_from cls repl false s.

(** [s[:n]] with Python's treatment of a negative bound. *)
Definition slice_to {A : Type} (n : Z) (s : list A) : list A :=
  if (0 <=? n)%Z then take (Z.to_nat n) s
  else take (length s - Z.to_nat (- n)) s.

(** The double quote, which the selectors of the source contain. *)
Definition dq : pystr := [34%N].

(** [c * n] for a one-character string. *)
Definition repeat_char (c : N) (n : nat) : pystr := List.repeat c n.

Fixpoint lstrip (p : N -> bool) (s : pystr) : pystr :=
  match s with
  | [] => []
  | c :: s' => if p c then lstrip p s' else s
  end.

Fixpoint rstrip (p : N -> bool) (s : pystr) : pystr :=
  match s with
  | [] => []
  | c :: s' =>
      match rstrip p s' with
      | [] => if p c then [] else [c]
      | r => c :: r
      end
  end.

(** [s.strip(chars)] / [s.strip()]. *)
Definition strip (p : N -> bool) (s : pystr) : pystr :=
  rstrip p (lstrip p s).

(** [sep.join(parts)]. *)
Fixpoint join (sep : pystr) (parts : list pystr) : pystr :=
  match parts with
  | [] => []
  | [p] => p
  | p :: ps => p ++ sep ++ join sep ps
  end.

(** [s.split(sep)] for a one-character separator: never empty, one more piece than separators. *)
Fixpoint split_on (sep : N -> bool) (s : pystr) : list pystr :=
  match s with
  | [] => [[]]
  | c :: s' =>
      if sep c then [] :: split_on sep s'
      else match split_on sep s' with
           | [] => [[c]]
           | l :: ls => (c :: l) :: ls
           end
  end.

(** [needle in hay]. *)
Fixpoint is_prefix (needle hay : pystr) : bool :=
  match needle, hay with
  | [], _ => true
  | _ :: _, [] => false
  | a :: n', b :: h' => (a =? b)%N && is_prefix n' h'
  end.

Fixpoint contains (needle hay : pystr) : bool :=
  is_prefix needle hay ||
  match hay with
  | [] => false
  | _ :: h' => contains needle h'
  end.

(** The ASCII part of [str.lower]. *)
Definition ascii_lower_char (c : N) : N :=
  if ((65 <=? c) && (c <=? 90))%N then (c + 32)%N else c.

(** No two neighbouring underscores. *)
Fixpoint no_double_underscore (s : pystr) : bool :=
  match s with
  | [] => true
  | c :: s' =>
      match s' with
      | [] => true
      | d :: _ => negb (is_underscore c && is_underscore d)
                  && no_double_underscore s'
      end
  end.

End PyStr.

(** ** Exceptions and the external world *)

Module Py.

(** The two classes of exception the code tells apart
    ([except PlaywrightTimeout] before [except Exception]); the payload
    is [str(e)]. *)
Inductive exn :=
| PlaywrightTimeout (msg : pystr)
| PyException (msg : pystr).

Definition exn_str (e : exn) : pystr :=
  match e with
  | PlaywrightTimeout m => m
  | PyException m => m
  end.

(** The result of a call that may raise. *)
Inductive result (A : Type) :=
| Ok (a : A)
| Raise (e : exn).
Arguments Ok {A} a.
Arguments Raise {A} e.

(** Truthiness of a [str] or of [None]. *)
Definition truthy (s : pystr) : bool :=
  match s with [] => false | _ => true end.

Definition len (s : pystr) : Z := Z.of_nat (length s).

(** The lines that the programs log when they end, by their content:
    a rule of 60 equals signs, a fixed text, a label with a number
    ([label: n]), a label with two numbers ([label: n/m]), a line
    that reports a time or a speed, whose value is not modelled, and
    the text of [traceback.format_exc()]. *)
Inductive log_line :=
| Rule
| Text (s : pystr)
| Count (label : pystr) (n : Z)
| Ratio (label : pystr) (n m : Z)
| Timing (label : pystr)
| Traceback.

End Py.

(** The Playwright driver, seen through the calls the code makes.  A
    [document] is the page after one navigation. *)
Module Browser.
Import Py.

Record element := {
  inner_text : result pystr;
  get_href : result (option pystr)
}.

Record document := {
  query_selector : pystr -> result (option element);
  query_selector_all : pystr -> result (list element);
  evaluate : pystr -> result (option pystr);
  (** [page.screenshot(path=..)] followed by [save_path.exists()] and
      [save_path.stat().st_size]: the size when the file exists. *)
  screenshot : pystr -> result (option Z)
}.

(** [open(path, 'w')], [write], then [path.stat().st_size]. *)
Record filesystem := {
  write_text : pystr -> pystr -> result Z
}.

End Browser.

(** ** [config.py] *)

Module Config.
Import PyStr.

Definition OTTER_BASE_URL : pystr := py "https://otter.ai".
Definition DOWNLOAD_DIR : pystr := py "downloads".
Definition PAGE_LOAD_TIMEOUT : Z := 60000.
Definition SCROLL_WAIT_TIME : Z := 2000.

(** [DOWNLOAD_DIR / filename]. *)
Definition in_download_dir (filename : pystr) : pystr :=
  DOWNLOAD_DIR ++ py "/" ++ filename.

End Config.

(** ** The state document kept in [.otter_state.json]

    Both programs read and write the same JSON document.  The [status]
    of a meeting is one of the three strings the code writes. *)

Module StateFile.

Inductive status := Pending | Success | Failed.

#[global] Instance status_eq_dec : EqDecision status.
Proof. solve_decision. Defined.

(** One value of the [meetings] dictionary.  [error] is the key that
    only the parallel program adds. *)
Record meeting := {
  m_id : pystr;
  m_title : pystr;
  m_url : pystr;
  m_status : status;
  m_discovered_at : pystr;
  m_download_path : option pystr;
  m_file_size : option Z;
  m_method_used : option pystr;
  m_error : option pystr
}.

Record attempt := {
  a_timestamp : pystr;
  a_method : pystr;
  a_success : bool;
  a_error : option pystr
}.

Record run_record := {
  r_timestamp : pystr;
  r_meetings_processed : Z;
  r_successful : Z;
  r_failed : Z
}.

Record t := {
  session_created : option pystr;
  last_run : option pystr;
  meetings : gmap pystr meeting;
  download_attempts : gmap pystr (list attempt);
  successful_downloads : list pystr;
  failed_downloads : list pystr;
  total_meetings_found : Z;
  run_history : list run_record
}.

(** The dictionary [_load_state] returns when there is no usable file. *)
Definition fresh : t := {|
  session_created := None;
  last_run := None;
  meetings := ∅;
  download_attempts := ∅;
  successful_downloads := [];
  failed_downloads := [];
  total_meetings_found := 0;
  run_history := []
|}.

(** Assignments to one key of the dictionary. *)
Definition set_session_created (v : option pystr) (s : t) : t :=
  {| session_created := v; last_run := last_run s;
     meetings := meetings s; download_attempts := download_attempts s;
     successful_downloads := successful_downloads s;
     failed_downloads := failed_downloads s;
     total_meetings_found := total_meetings_found s;
     run_history := run_history s |}.

Definition set_last_run (v : option pystr) (s : t) : t :=
  {| session_created := session_created s; last_run := v;
     meetings := meetings s; download_attempts := download_attempts s;
     successful_downloads := successful_downloads s;
     failed_downloads := failed_downloads s;
     total_meetings_found := total_meetings_found s;
     run_history := run_history s |}.

Definition set_meetings (v : gmap pystr meeting) (s : t) : t :=
  {| session_created := session_created s; last_run := last_run s;
     meetings := v; download_attempts := download_attempts s;
     successful_downloads := successful_downloads s;
     failed_downloads := failed_downloads s;
     total_meetings_found := total_meetings_found s;
     run_history := run_history s |}.

Definition set_download_attempts (v : gmap pystr (list attempt)) (s : t) : t :=
  {| session_created := session_created s; last_run := last_run s;
     meetings := meetings s; download_attempts := v;
     successful_downloads := successful_downloads s;
     failed_downloads := failed_downloads s;
     total_meetings_found := total_meetings_found s;
     run_history := run_history s |}.

Definition set_successful_downloads (v : list pystr) (s : t) : t :=
  {| session_created := session_created s; last_run := last_run s;
     meetings := meetings s; download_attempts := download_attempts s;
     successful_downloads := v;
     failed_downloads := failed_downloads s;
     total_meetings_found := total_meetings_found s;
     run_history := run_history s |}.

Definition set_failed_downloads (v : list pystr) (s : t) : t :=
  {| session_created := session_created s; last_run := last_run s;
     meetings := meetings s; download_attempts := download_attempts s;
     successful_downloads := successful_downloads s;
     failed_downloads := v;
     total_meetings_found := total_meetings_found s;
     run_history := run_history s |}.

Definition set_total_meetings_found (v : Z) (s : t) : t :=
  {| session_created := session_created s; last_run := last_run s;
     meetings := meetings s; download_attempts := download_attempts s;
     successful_downloads := successful_downloads s;
     failed_downloads := failed_downloads s;
     total_meetings_found := v;
     run_history := run_history s |}.

Definition set_run_history (v : list run_record) (s : t) : t :=
  {| session_created := session_created s; last_run := last_run s;
     meetings := meetings s; download_attempts := download_attempts s;
     successful_downloads := successful_downloads s;
     failed_downloads := failed_downloads s;
     total_meetings_found := total_meetings_found s;
     run_history := v |}.

(** Assignments to keys of one meeting. *)
Definition meeting_succeeded (path : pystr) (size : Z) (method : pystr)
           (e : meeting) : meeting :=
  {| m_id := m_id e; m_title := m_title e; m_url := m_url e;
     m_status := Success; m_discovered_at := m_discovered_at e;
     m_download_path := Some path; m_file_size := Some size;
     m_method_used := Some method; m_error := m_error e |}.

Definition meeting_failed (err : option pystr) (e : meeting) : meeting :=
  {| m_id := m_id e; m_title := m_title e; m_url := m_url e;
     m_status := Failed; m_discovered_at := m_discovered_at e;
     m_download_path := m_download_path e; m_file_size := m_file_size e;
     m_method_used := m_method_used e;
     m_error := match err with Some x => Some x | None => m_error e end |}.

(** [x in l] on a list of strings. *)
Definition mem (x : pystr) (l : list pystr) : bool := bool_decide (x ∈ l).

(** [l.remove(x)] when [x in l]: the first occurrence goes. *)
Fixpoint remove_first (x : pystr) (l : list pystr) : list pystr :=
  match l with
  | [] => []
  | y :: l' => if bool_decide (x = y) then l' else y :: remove_first x l'
  end.

(** [if x not in l: l.append(x)]. *)
Definition append_new (x : pystr) (l : list pystr) : list pystr :=
  if mem x l then l else l ++ [x].

End StateFile.

(** ** [otter_downloader.py] *)

Module Downloader.
Import PyStr Py Browser Config StateFile.

(** A discovered meeting: the dictionary with keys [id], [title], [url]
    built by [extract_meeting_info]. *)
Record item := { id : pystr; title : pystr; url : pystr }.

(** *** [class DownloadState]

    [state] is the dictionary held in memory, [state_file] the content
    of the file on disk ([None]: no file, or one that does not parse). *)
Record DownloadState := {
  state : StateFile.t;
  state_file : option StateFile.t
}.

Definition _load_state (file : option StateFile.t) : StateFile.t :=
  match file with
  | Some s => s
  | None => fresh
  end.

Definition new_DownloadState (file : option StateFile.t) : DownloadState :=
  {| state := _load_state file; state_file := file |}.

Section WithClock.

(** [datetime.now().isoformat()]. *)
Variable now : pystr.

Definition save (d : DownloadState) : DownloadState :=
  let s := set_last_run (Some now) (state d) in
  {| state := s; state_file := Some s |}.

Definition with_state (f : StateFile.t -> StateFile.t) (d : DownloadState)
  : DownloadState :=
  {| state := f (state d); state_file := state_file d |}.

Definition register_meeting (d : DownloadState)
           (meeting_id title url : pystr) : DownloadState :=
  let d :=
    match meetings (state d) !! meeting_id with
    | None =>
        with_state (fun s =>
          set_meetings
            (<[meeting_id :=
                 {| m_id := meeting_id; m_title := title; m_url := url;
                    m_status := Pending; m_discovered_at := now;
                    m_download_path := None; m_file_size := None;
                    m_method_used := None; m_error := None |}]>
               (meetings s)) s) d
    | Some _ => d
    end in
  save d.

Definition record_attempt (d : DownloadState) (meeting_id method : pystr)
           (success : bool) (error : option pystr) : DownloadState :=
  let d :=
    with_state (fun s =>
      let previous :=
        match download_attempts s !! meeting_id with
        | Some l => l
        | None => []
        end in
      set_download_attempts
        (<[meeting_id :=
             previous ++ [{| a_timestamp := now; a_method := method;
                             a_success := success; a_error := error |}]]>
           (download_attempts s)) s) d in
  save d.

Definition mark_success (d : DownloadState) (meeting_id file_path method : pystr)
           (file_size : Z) : DownloadState :=
  let d :=
    match meetings (state d) !! meeting_id with
    | Some e =>
        with_state (fun s =>
          set_meetings
            (<[meeting_id := meeting_succeeded file_path file_size method e]>
               (meetings s)) s) d
    | None => d
    end in
  let d :=
    with_state (fun s =>
      set_successful_downloads
        (append_new meeting_id (successful_downloads s)) s) d in
  let d :=
    if mem meeting_id (failed_downloads (state d)) then
      with_state (fun s =>
        set_failed_downloads
          (remove_first meeting_id (failed_downloads s)) s) d
    else d in
  save d.

Definition mark_failure (d : DownloadState) (meeting_id : pystr)
  : DownloadState :=
  let d :=
    match meetings (state d) !! meeting_id with
    | Some e =>
        with_state (fun s =>
          set_meetings (<[meeting_id := meeting_failed None e]> (meetings s)) s) d
    | None => d
    end in
  let d :=
    with_state (fun s =>
      set_failed_downloads (append_new meeting_id (failed_downloads s)) s) d in
  save d.

End WithClock.

Definition needs_download (e : meeting) : bool :=
  match m_status e with
  | Pending => true
  | Failed => true
  | Success => false
  end.

(** The pairs [(meeting_id, info)] that the loop of
    [get_pending_meetings] keeps, and the list it returns. *)
Definition pending_items (d : DownloadState) : list (pystr * meeting) :=
  List.filter (fun kv => needs_download (snd kv))
              (map_to_list (meetings (state d))).

Definition get_pending_meetings (d : DownloadState) : list meeting :=
  map snd (pending_items d).

Definition is_downloaded (d : DownloadState) (meeting_id : pystr) : bool :=
  mem meeting_id (successful_downloads (state d)).

Record stats := {
  total_meetings : nat;
  successful : nat;
  failed : nat;
  pending : nat
}.

Definition get_stats (d : DownloadState) : stats :=
  {| total_meetings := size (meetings (state d));
     successful := length (successful_downloads (state d));
     failed := length (failed_downloads (state d));
     pending := length (get_pending_meetings d) |}.

(** *** Utilities *)

(** The character class of the first [re.sub] of [sanitize_filename]:
    less-than, greater-than, colon, double quote, slash, backslash,
    bar, question mark, star, line feed, carriage return, tab. *)
Definition illegal_chars : list N :=
  [60; 62; 58; 34; 47; 92; 124; 63; 42; 10; 13; 9]%N.

Definition sanitize_filename (name : pystr) : pystr :=
  let name := re_sub_class (in_class illegal_chars) [] name in
  let name := re_sub_plus is_space [underscore] name in
  let name := re_sub_plus is_underscore [underscore] name in
  strip is_underscore (slice_to 80 name).

(** *** [wait_with_retry]

    [wait n] is what the call of [page.wait_for_selector] in the
    iteration [attempt = n] meets; the selector and the timeout are
    the same in every iteration.  The second component counts the
    seconds slept. *)
Fixpoint wait_loop (wait : nat -> result (option element)) (retries : Z)
         (attempt remaining : nat) (slept : Z)
  : result (option element) * Z :=
  match remaining with
  | O => (Ok None, slept)
  | S remaining' =>
      match wait attempt with
      | Ok (Some el) => (Ok (Some el), slept)
      | Ok None => wait_loop wait retries (S attempt) remaining' slept
      | Raise (PlaywrightTimeout _) =>
          wait_loop wait retries (S attempt) remaining'
            (if (Z.of_nat attempt <? retries - 1)%Z then (slept + 1)%Z else slept)
      | Raise (PyException msg) => (Raise (PyException msg), slept)
      end
  end.

Definition wait_with_retry (wait : nat -> result (option element))
           (retries : Z) : result (option element) * Z :=
  wait_loop wait retries 0 (Z.to_nat retries) 0.

(** *** [close_popups]

    A button of the page, seen through the two calls made on it. *)
Record button := {
  is_visible : result bool;
  click : result unit
}.

Definition has_text (label : pystr) : pystr :=
  py "button:has-text(" ++ dq ++ label ++ dq ++ py ")".

Definition popup_close_selectors : list pystr :=
  [ py "button[aria-label=" ++ dq ++ py "Close" ++ dq ++ py "]";
    has_text (py "Got it");
    has_text [195; 8212]%N;
    py ".close-button";
    py "[data-testid=" ++ dq ++ py "close-button" ++ dq ++ py "]";
    has_text (py "Dismiss");
    has_text (py "Later") ].

(** The loop over the buttons of one selector: the button on which
    [click] is called, if any.  An exception of [is_visible] leaves the
    loop. *)
Fixpoint first_visible (buttons : list button) : option button :=
  match buttons with
  | [] => None
  | btn :: rest =>
      match is_visible btn with
      | Ok true => Some btn
      | Ok false => first_visible rest
      | Raise _ => None
      end
  end.

(** The buttons on which [click] is called, in order: after a click
    that returns the function returns, after one that raises the loop
    goes on with the next selector. *)
Fixpoint popup_clicks (query : pystr -> result (list button))
         (selectors : list pystr) : list button :=
  match selectors with
  | [] => []
  | selector :: rest =>
      match query selector with
      | Raise _ => popup_clicks query rest
      | Ok buttons =>
          match first_visible buttons with
          | None => popup_clicks query rest
          | Some btn =>
              match click btn with
              | Ok _ => [btn]
              | Raise _ => btn :: popup_clicks query rest
              end
          end
      end
  end.

Definition close_popups (query : pystr -> result (list button)) : list button :=
  popup_clicks query popup_close_selectors.

(** *** Meeting discovery: [scroll_to_load_all]

    [count_after n] is the number of conversation elements that
    [query_selector_all] finds after the [n]-th scroll. *)

Record scroll_vars := {
  previous_count : Z;
  no_change_count : Z;
  scroll_count : Z
}.

Definition scroll_start : scroll_vars :=
  {| previous_count := 0; no_change_count := 0; scroll_count := 0 |}.

Definition scroll_continues (max_scrolls : Z) (v : scroll_vars) : bool :=
  (no_change_count v <? 15)%Z && (scroll_count v <? max_scrolls)%Z.

Definition scroll_once (count_after : Z -> Z) (v : scroll_vars) : scroll_vars :=
  let scroll_count' := (scroll_count v + 1)%Z in
  let current_count := count_after scroll_count' in
  {| previous_count := current_count;
     no_change_count :=
       if (current_count =? previous_count v)%Z
       then (no_change_count v + 1)%Z else 0%Z;
     scroll_count := scroll_count' |}.

(** The [while] loop; [None] when [fuel] iterations do not reach the
    exit. *)
Fixpoint scroll_loop (count_after : Z -> Z) (max_scrolls : Z)
         (fuel : nat) (v : scroll_vars) : option scroll_vars :=
  if scroll_continues max_scrolls v then
    match fuel with
    | O => None
    | S fuel' => scroll_loop count_after max_scrolls fuel' (scroll_once count_after v)
    end
  else Some v.

Definition scroll_to_load_all (count_after : Z -> Z) (max_scrolls : Z)
           (fuel : nat) : option Z :=
  match scroll_loop count_after max_scrolls fuel scroll_start with
  | Some v => Some (previous_count v)
  | None => None
  end.

(** *** Meeting discovery: [extract_meeting_info] *)

Definition is_id_char (c : N) : bool :=
  (((97 <=? c) && (c <=? 122)) || ((65 <=? c) && (c <=? 90))
   || ((48 <=? c) && (c <=? 57)) || (c =? 95) || (c =? 45))%N.

Fixpoint take_while (p : N -> bool) (s : pystr) : pystr :=
  match s with
  | [] => []
  | c :: s' => if p c then c :: take_while p s' else []
  end.

(** [re.search] of a slash, [u], a slash and a non-empty run of
    identifier characters: group 1 of the leftmost match. *)
Fixpoint search_meeting_id (href : pystr) : option pystr :=
  match href with
  | [] => None
  | _ :: rest =>
      if is_prefix (py "/u/") href then
        match take_while is_id_char (drop 3 href) with
        | [] => search_meeting_id rest
        | run => Some run
        end
      else search_meeting_id rest
  end.

Definition default_title (meeting_id : pystr) : pystr :=
  py "Meeting_" ++ slice_to 10 meeting_id.

(** The body of the loop over the links, for one link: the item it
    yields, if any ([None] also stands for [continue] and for the
    swallowed exception). *)
Definition link_item (link : element) : option item :=
  match get_href link with
  | Raise _ => None
  | Ok None => None
  | Ok (Some href) =>
      if truthy href && contains (py "/u/") href then
        match search_meeting_id href with
        | None => None
        | Some meeting_id =>
            if (len meeting_id <? 10)%Z then None
            else
              let title :=
                match inner_text link with
                | Ok t =>
                    let t := strip is_space t in
                    if negb (truthy t) || (len t <? 2)%Z
                    then default_title meeting_id else t
                | Raise _ => default_title meeting_id
                end in
              Some {| id := meeting_id;
                      title := slice_to 100 title;
                      url := OTTER_BASE_URL ++ py "/u/" ++ meeting_id |}
        end
      else None
  end.

Definition already_listed (meeting_id : pystr) (found : list item) : bool :=
  existsb (fun m => bool_decide (id m = meeting_id)) found.

(** A value produced by [json.loads]; a dictionary lists its items in
    insertion order. *)
Inductive json :=
| JNull
| JBool (b : bool)
| JNumber (z : Z)
| JString (s : pystr)
| JList (items : list json)
| JDict (items : list (pystr * json)).

Definition transcript_keys : list pystr :=
  [ py "transcript"; py "text"; py "content"; py "body"; py "speech";
    py "monologue" ].

Fixpoint extract_transcript_from_data (data : json) (depth : Z) {struct data}
  : option pystr :=
  if (10 <? depth)%Z then None
  else
    match data with
    | JString s => if (200 <? len s)%Z then Some s else None
    | JDict kv =>
        let by_key :=
          (fix keys (ks : list pystr) : option pystr :=
             match ks with
             | [] => None
             | key :: ks' =>
                 let found :=
                   (fix lookup (l : list (pystr * json)) : option (option pystr) :=
                      match l with
                      | [] => None
                      | (k, v) :: l' =>
                          if bool_decide (k = key)
                          then Some (extract_transcript_from_data v (depth + 1))
                          else lookup l'
                      end) kv in
                 match found with
                 | Some (Some r) => if truthy r then Some r else keys ks'
                 | Some None => keys ks'
                 | None => keys ks'
                 end
             end) transcript_keys in
        match by_key with
        | Some r => Some r
        | None =>
            (fix values (l : list (pystr * json)) : option pystr :=
               match l with
               | [] => None
               | (_, v) :: l' =>
                   match extract_transcript_from_data v (depth + 1) with
                   | Some r =>
                       if truthy r && (200 <? len r)%Z then Some r else values l'
                   | None => values l'
                   end
               end) kv
        end
    | JList l =>
        let texts :=
          (fix each (l : list json) : list pystr :=
             match l with
             | [] => []
             | item :: l' =>
                 match extract_transcript_from_data item (depth + 1) with
                 | Some r => if truthy r then r :: each l' else each l'
                 | None => each l'
                 end
             end) l in
        match texts with
        | [] => None
        | _ => Some (join [newline] texts)
        end
    | JNull => None
    | JBool _ => None
    | JNumber _ => None
    end.

(** What one navigation of [download_meeting] meets: [goto] raises, or
    the page is there. *)
Record page := {
  goto : pystr -> nat -> result document
}.

(** What the session part of [run_download] meets, in the order of its
    tests: the first navigation raises; no login is needed; the login
    fails; the login succeeds and the listing is, or is not, still the
    sign-in page. *)
Inductive session :=
| SessionRaises (e : exn)
| SessionOpen
| LoginFailed
| LoginDone (still_on_login : bool).

Section WithWorld.

Variable now : pystr.
(** [str.lower]. *)
Variable lower : pystr -> pystr.
Variable fs : filesystem.
Variable json_loads : pystr -> result json.

Fixpoint collect_links (links : list element) (found : list item)
         (d : DownloadState) : list item * DownloadState :=
  match links with
  | [] => (found, d)
  | link :: rest =>
      match link_item link with
      | Some m =>
          if already_listed (id m) found then collect_links rest found d
          else collect_links rest (found ++ [m])
                 (register_meeting now d (id m) (title m) (url m))
      | None => collect_links rest found d
      end
  end.

(** The selector of the links of the listing. *)
Definition link_selector : pystr :=
  py "a[href*=" ++ dq ++ py "/u/" ++ dq ++ py "]".

Definition extract_meeting_info (listing : document) (d : DownloadState)
  : result (list item * DownloadState) :=
  match query_selector_all listing link_selector with
  | Raise e => Raise e
  | Ok links =>
      let '(found, d) := collect_links links [] d in
      let d := with_state (set_total_meetings_found (Z.of_nat (length found))) d in
      Ok (found, save now d)
  end.

(** *** Download strategies *)

(** [strategy_text_extraction]: the selectors. *)
Definition attr_selector (attr value : string) : pystr :=
  py "[" ++ py attr ++ py "=" ++ dq ++ py value ++ dq ++ py "]".

Definition main_container_selector : pystr :=
  py ".otter-transcript-container, main, " ++ attr_selector "role" "main".

Definition transcript_selectors : list pystr :=
  [ py ".otter-transcript-container";
    attr_selector "class*" "transcript";
    attr_selector "class*" "speech";
    py ".monologue";
    py ".paragraph" ].

Definition main_selectors : list pystr :=
  [ py "main"; attr_selector "role" "main"; py "#root"; py ".app-content" ].

(** The first [try] block: [all_text] after it. *)
Definition main_container_text (doc : document) : list pystr :=
  match query_selector doc main_container_selector with
  | Ok (Some main_container) =>
      match inner_text main_container with
      | Ok combined_text =>
          if (500 <? len combined_text)%Z then [combined_text] else []
      | Raise _ => []
      end
  | Ok None => []
  | Raise _ => []
  end.

(** The loop over the containers of one selector. *)
Fixpoint container_texts (containers : list element) : list pystr :=
  match containers with
  | [] => []
  | container :: rest =>
      match inner_text container with
      | Ok t =>
          let text := strip is_space t in
          if truthy text && (50 <? len text)%Z
          then text :: container_texts rest
          else container_texts rest
      | Raise _ => container_texts rest
      end
  end.

(** The loop over [transcript_selectors], entered with an empty
    [all_text]; it stops at the first selector that yields text. *)
Fixpoint selector_texts (doc : document) (selectors : list pystr) : list pystr :=
  match selectors with
  | [] => []
  | selector :: rest =>
      match query_selector_all doc selector with
      | Ok containers =>
          match container_texts containers with
          | [] => selector_texts doc rest
          | all_text => all_text
          end
      | Raise _ => selector_texts doc rest
      end
  end.

(** The loop over [main_selectors]; [combined_text] is the value the
    variable holds when the loop is left, also through an
    exception. *)
Fixpoint main_content_text (doc : document) (selectors : list pystr)
         (combined_text : pystr) : pystr :=
  match selectors with
  | [] => combined_text
  | selector :: rest =>
      match query_selector doc selector with
      | Ok (Some main_elem) =>
          match inner_text main_elem with
          | Ok t => if (200 <? len t)%Z then t else main_content_text doc rest t
          | Raise _ => combined_text
          end
      | Ok None => main_content_text doc rest combined_text
      | Raise _ => combined_text
      end
  end.

(** [combined_text] when the clean-up starts. *)
Definition gathered_text (doc : document) : pystr :=
  let all_text :=
    match main_container_text doc with
    | [] => selector_texts doc transcript_selectors
    | all_text => all_text
    end in
  let combined_text := join [newline; newline] all_text in
  if (len combined_text <? 100)%Z
  then main_content_text doc main_selectors combined_text
  else combined_text.

Definition noise_phrases : list pystr :=
  [ py "sign out"; py "settings"; py "help"; py "export"; py "share" ].

(** The test on one stripped line. *)
Definition keep_line (line : pystr) : bool :=
  truthy line && (5 <? len line)%Z
  && negb (existsb (fun x => contains x (lower line)) noise_phrases).

Definition clean_text (combined_text : pystr) : pystr :=
  join [newline]
       (List.filter keep_line
          (map (strip is_space) (split_on is_newline combined_text))).

(** What the strategies write in front of the text. *)
Definition file_header (meeting : item) (method : pystr) : pystr :=
  py "Meeting: " ++ title meeting ++ [newline]
  ++ py "URL: " ++ url meeting ++ [newline]
  ++ py "Downloaded: " ++ now ++ [newline]
  ++ py "Method: " ++ method ++ [newline]
  ++ repeat_char 61%N 60 ++ [newline; newline].

Definition text_path (meeting : item) : pystr :=
  in_download_dir
    (sanitize_filename (title meeting) ++ py "_"
     ++ slice_to 15 (id meeting) ++ py ".txt").

Definition strategy_text_extraction (doc : document) (meeting : item)
           (d : DownloadState) : option pystr * DownloadState :=
  let method := py "text_extraction" in
  let meeting_id := id meeting in
  let combined_text := gathered_text doc in
  let insufficient :=
    (None, record_attempt now d meeting_id method false
             (Some (py "Insufficient text content found"))) in
  if truthy combined_text && (100 <? len combined_text)%Z then
    let clean := clean_text combined_text in
    if (100 <? len clean)%Z then
      let save_path := text_path meeting in
      match write_text fs save_path (file_header meeting method ++ clean) with
      | Ok file_size =>
          let d := record_attempt now d meeting_id method true None in
          let d := mark_success now d meeting_id save_path method file_size in
          (Some save_path, d)
      | Raise e =>
          (None, record_attempt now d meeting_id method false (Some (exn_str e)))
      end
    else insufficient
  else insufficient.

(** [strategy_direct_api].  [state_script] stands for the text of
    the script that returns the client-side state globals. *)
Definition state_script : pystr :=
  py "window.__NEXT_DATA__ || window.__INITIAL_STATE__".

Definition strategy_direct_api (doc : document) (meeting : item)
           (d : DownloadState) : option pystr * DownloadState :=
  let method := py "direct_api" in
  let meeting_id := id meeting in
  let could_not :=
    (None, record_attempt now d meeting_id method false
             (Some (py "Could not fetch from API"))) in
  match evaluate doc state_script with
  | Raise e =>
      (None, record_attempt now d meeting_id method false (Some (exn_str e)))
  | Ok None => could_not
  | Ok (Some result) =>
      if truthy result && (1000 <? len result)%Z then
        match json_loads result with
        | Raise _ => could_not
        | Ok data =>
            match extract_transcript_from_data data 0 with
            | None => could_not
            | Some transcript_text =>
                if truthy transcript_text && (100 <? len transcript_text)%Z then
                  let save_path := text_path meeting in
                  match write_text fs save_path
                          (file_header meeting method ++ transcript_text) with
                  | Ok file_size =>
                      let d := record_attempt now d meeting_id method true None in
                      let d := mark_success now d meeting_id save_path method file_size in
                      (Some save_path, d)
                  | Raise _ => could_not
                  end
                else could_not
            end
        end
      else could_not
  end.

Definition screenshot_path (meeting : item) : pystr :=
  in_download_dir
    (sanitize_filename (title meeting) ++ py "_"
     ++ slice_to 15 (id meeting) ++ py ".png").

Definition strategy_screenshot_fallback (doc : document) (meeting : item)
           (d : DownloadState) : option pystr * DownloadState :=
  let method := py "screenshot" in
  let meeting_id := id meeting in
  let save_path := screenshot_path meeting in
  match screenshot doc save_path with
  | Ok (Some file_size) =>
      let d := record_attempt now d meeting_id method true None in
      let d := mark_success now d meeting_id save_path method file_size in
      (Some save_path, d)
  | Ok None =>
      (None, record_attempt now d meeting_id method false
               (Some (py "Screenshot save failed")))
  | Raise e =>
      (None, record_attempt now d meeting_id method false (Some (exn_str e)))
  end.

(** *** [download_meeting] *)

Definition strategies
  : list (document -> item -> DownloadState -> option pystr * DownloadState) :=
  [ strategy_text_extraction; strategy_direct_api;
    strategy_screenshot_fallback ].

(** The loop over the strategies on one loaded page: [true] as soon
    as one returns a path. *)
Fixpoint try_strategies
         (l : list (document -> item -> DownloadState -> option pystr * DownloadState))
         (doc : document) (meeting : item) (d : DownloadState)
  : bool * DownloadState :=
  match l with
  | [] => (false, d)
  | strategy :: rest =>
      match strategy doc meeting d with
      | (Some _, d') => (true, d')
      | (None, d') => try_strategies rest doc meeting d'
      end
  end.

(** The loop [for retry in range(max_retries)], from [retry] on, with
    [remaining] iterations to go ([close_popups] swallows every
    exception and returns nothing; the waits are not modelled). *)
Fixpoint attempts (pg : page) (meeting : item) (retry remaining : nat)
         (d : DownloadState) : bool * DownloadState :=
  match remaining with
  | O => (false, mark_failure now d (id meeting))
  | S remaining' =>
      match goto pg (url meeting) retry with
      | Ok doc =>
          match try_strategies strategies doc meeting d with
          | (true, d') => (true, d')
          | (false, d') => attempts pg meeting (S retry) remaining' d'
          end
      | Raise (PlaywrightTimeout _) =>
          attempts pg meeting (S retry) remaining'
            (record_attempt now d (id meeting) (py "navigation") false
               (Some (py "Page load timeout")))
      | Raise (PyException msg) =>
          attempts pg meeting (S retry) remaining'
            (record_attempt now d (id meeting) (py "navigation") false
               (Some msg))
      end
  end.

Definition download_meeting (pg : page) (meeting : item) (d : DownloadState)
           (max_retries : Z) : bool * DownloadState :=
  if is_downloaded d (id meeting) then (true, d)
  else attempts pg meeting 0 (Z.to_nat max_retries) d.

Definition default_max_retries : Z := 3.

(** *** [run_download] and [main] *)

(** The loop over [pending]: the number of successes and the state. *)
Fixpoint download_all (pg : page) (todo : list item) (success_count : Z)
         (d : DownloadState) : Z * DownloadState :=
  match todo with
  | [] => (success_count, d)
  | meeting :: rest =>
      match download_meeting pg meeting d default_max_retries with
      | (true, d') => download_all pg rest (success_count + 1) d'
      | (false, d') => download_all pg rest success_count d'
      end
  end.

(** The arguments [reset], [quick], [num] and what the run meets.
    [state_file] is the file found at start. *)
Record run_args := {
  reset : bool;
  quick : bool;
  num : option Z
}.

Record run_world := {
  found_file : option StateFile.t;
  the_session : session;
  listing : document;
  the_page : page
}.

(** The effect of [--num] and [--quick] on the list of meetings:
    [if num: ... elif quick: ...]. *)
Definition limited (a : run_args) (found : list item) : list item :=
  match num a with
  | Some n =>
      if (n =? 0)%Z
      then (if quick a then slice_to 15 found else found)
      else slice_to n found
  | None => if quick a then slice_to 15 found else found
  end.

(** [[m for m in meetings if not state.is_downloaded(m['id'])]]. *)
Definition not_downloaded (d : DownloadState) (l : list item) : list item :=
  List.filter (fun m => negb (is_downloaded d (id m))) l.

(** The report and the end of the run, once the loop over the pending
    meetings is over. *)
Definition final_report (todo : list item) (success_count : Z)
           (d : DownloadState) : result bool * DownloadState :=
  let final_stats := get_stats d in
  let d :=
    with_state (fun s =>
      set_run_history
        (run_history s ++
           [{| r_timestamp := now;
               r_meetings_processed := Z.of_nat (length todo);
               r_successful := success_count;
               r_failed := Z.of_nat (length todo) - success_count |}])
        s) d in
  (Ok (Nat.eqb (failed final_stats) 0), save now d).

(** The part of [run_download] from the scroll on ([scroll_to_load_all]
    returns a count that is dropped, and its exceptions are caught). *)
Definition discover_and_download (a : run_args) (w : run_world)
           (d : DownloadState) : result bool * DownloadState :=
  match extract_meeting_info (listing w) d with
  | Raise e => (Raise e, save now d)
  | Ok (found, d) =>
      match found with
      | [] => (Ok false, d)
      | _ =>
          match not_downloaded d (limited a found) with
          | [] => (Ok true, d)
          | todo =>
              let '(success_count, d) := download_all (the_page w) todo 0 d in
              final_report todo success_count d
          end
      end
  end.

Definition run_download (a : run_args) (w : run_world)
  : result bool * DownloadState :=
  let d := new_DownloadState (found_file w) in
  let d := if reset a then new_DownloadState None else d in
  match the_session w with
  | SessionRaises e => (Raise e, save now d)
  | LoginFailed => (Ok false, d)
  | SessionOpen => discover_and_download a w d
  | LoginDone still_on_login =>
      let d := save now (with_state (set_session_created (Some now)) d) in
      if still_on_login then (Ok false, d)
      else discover_and_download a w d
  end.

(** The exit status [main] passes to [exit]. *)
Definition main (a : run_args) (w : run_world) : Z :=
  match fst (run_download a w) with
  | Ok true => 0
  | Ok false => 1
  | Raise _ => 1
  end.

(** *** The last lines of the log

    [run_download] once more, with the lines that it logs itself after
    its last call of another function of the program: the lines with
    which its log ends. *)

(** The handler [except Exception as e] of [run_download]. *)
Definition fatal_lines (e : exn) : list log_line :=
  [Text (py "Fatal error: " ++ exn_str e); Traceback].

(** The eight lines under [# Final report]. *)
Definition final_report_lines (d : DownloadState) : list log_line :=
  let final_stats := get_stats d in
  [ Rule; Text (py "DOWNLOAD COMPLETE"); Rule;
    Count (py "Total meetings") (Z.of_nat (total_meetings final_stats));
    Count (py "Successfully downloaded") (Z.of_nat (successful final_stats));
    Count (py "Failed") (Z.of_nat (failed final_stats));
    Text (py "Download directory: " ++ DOWNLOAD_DIR);
    Rule ].

Definition discover_and_download_logged (a : run_args) (w : run_world)
           (d : DownloadState)
  : (result bool * DownloadState) * list log_line :=
  match extract_meeting_info (listing w) d with
  | Raise e => ((Raise e, save now d), fatal_lines e)
  | Ok (found, d) =>
      match found with
      | [] =>
          ((Ok false, d),
           [Text (py "No meetings found. Taking debug screenshot...")])
      | _ =>
          let meetings := limited a found in
          match not_downloaded d meetings with
          | [] =>
              ((Ok true, d),
               [ Ratio (py "Meetings to download") 0
                       (Z.of_nat (length meetings));
                 Text (py "All meetings already downloaded!") ])
          | todo =>
              let '(success_count, d) := download_all (the_page w) todo 0 d in
              (final_report todo success_count d, final_report_lines d)
          end
      end
  end.

Definition run_download_logged (a : run_args) (w : run_world)
  : (result bool * DownloadState) * list log_line :=
  let d := new_DownloadState (found_file w) in
  let d := if reset a then new_DownloadState None else d in
  match the_session w with
  | SessionRaises e => ((Raise e, save now d), fatal_lines e)
  | LoginFailed =>
      ((Ok false, d), [Text (py "Login failed. Please check credentials.")])
  | SessionOpen => discover_and_download_logged a w d
  | LoginDone still_on_login =>
      let d := save now (with_state (set_session_created (Some now)) d) in
      if still_on_login
      then ((Ok false, d),
            [Text (py "Still on login page after login attempt")])
      else discover_and_download_logged a w d
  end.

End WithWorld.

End Downloader.

(** ** [otter_parallel.py] *)

Module Parallel.
Import PyStr Py Browser Config StateFile.

(** *** [class ParallelState]

    [lock_held] is the state of [self.lock], a [threading.Lock]: it is
    not reentrant, and [acquire] on a held lock waits until some thread
    releases it. *)
Record ParallelState := {
  state : StateFile.t;
  lock_held : bool;
  download_count : Z;
  total_to_download : Z;
  state_file : option StateFile.t
}.

Definition _load_state (file : option StateFile.t) : StateFile.t :=
  match file with
  | Some s => s
  | None => fresh
  end.

Definition new_ParallelState (file : option StateFile.t) : ParallelState :=
  {| state := _load_state file; lock_held := false;
     download_count := 0; total_to_download := 0; state_file := file |}.

(** What a worker thread does to the outside, in order. *)
Inductive event :=
| EvLaunch
| EvGoto (url : pystr)
| EvSleep (seconds : Z)
| EvWrite (path : pystr)
| EvClose
| EvMarkSuccess (meeting_id path : pystr) (file_size : Z)
| EvMarkFailure (meeting_id error : pystr).

(** The object shared by the threads and the trace of the thread that
    runs. *)
Record run_state := {
  self : ParallelState;
  trace : list event
}.

(** A call either returns, or waits for ever on the lock: every
    release in the program is done by the thread that took the lock,
    at the end of its own [with] block. *)
Inductive outcome (A : Type) :=
| Returned (a : A) (r : run_state)
| Blocked (r : run_state).
Arguments Returned {A} a r.
Arguments Blocked {A} r.

Definition M (A : Type) : Type := run_state -> outcome A.

Definition ret {A} (a : A) : M A := fun r => Returned a r.

Definition bind {A B} (c : M A) (k : A -> M B) : M B :=
  fun r =>
    match c r with
    | Returned a r' => k a r'
    | Blocked r' => Blocked r'
    end.

#[global] Instance M_ret : MRet M := @ret.
#[global] Instance M_bind : MBind M := fun A B k c => bind c k.

Definition gets {A} (f : ParallelState -> A) : M A :=
  fun r => Returned (f (self r)) r.

Definition modify (f : ParallelState -> ParallelState) : M unit :=
  fun r => Returned tt {| self := f (self r); trace := trace r |}.

Definition emit (e : event) : M unit :=
  fun r => Returned tt {| self := self r; trace := trace r ++ [e] |}.

Definition set_lock (b : bool) (p : ParallelState) : ParallelState :=
  {| state := state p; lock_held := b;
     download_count := download_count p;
     total_to_download := total_to_download p;
     state_file := state_file p |}.

Definition set_state (f : StateFile.t -> StateFile.t) (p : ParallelState)
  : ParallelState :=
  {| state := f (state p); lock_held := lock_held p;
     download_count := download_count p;
     total_to_download := total_to_download p;
     state_file := state_file p |}.

Definition acquire : M unit :=
  fun r => if lock_held (self r) then Blocked r
           else modify (set_lock true) r.

Definition release : M unit := modify (set_lock false).

(** [with self.lock: body]. *)
Definition with_lock {A} (body : M A) : M A :=
  acquire;; a ← body; release;; ret a.

Section WithClock.

Variable now : pystr.

Definition save : M unit :=
  with_lock
    (modify (set_state (set_last_run (Some now)));;
     modify (fun p =>
       {| state := state p; lock_held := lock_held p;
          download_count := download_count p;
          total_to_download := total_to_download p;
          state_file := Some (state p) |})).

Definition is_downloaded (meeting_id : pystr) : M bool :=
  with_lock (gets (fun p => mem meeting_id (successful_downloads (state p)))).

Definition mark_success (meeting_id path : pystr) (file_size : Z) : M unit :=
  with_lock
    (modify (set_state (fun s =>
       set_successful_downloads
         (append_new meeting_id (successful_downloads s)) s));;
     modify (set_state (fun s =>
       match meetings s !! meeting_id with
       | Some e =>
           set_meetings
             (<[meeting_id :=
                  meeting_succeeded path file_size (py "text_extraction") e]>
                (meetings s)) s
       | None => s
       end));;
     modify (fun p =>
       {| state := state p; lock_held := lock_held p;
          download_count := download_count p + 1;
          total_to_download := total_to_download p;
          state_file := state_file p |});;
     save).

Definition mark_failure (meeting_id error : pystr) : M unit :=
  with_lock
    (modify (set_state (fun s =>
       set_failed_downloads
         (append_new meeting_id (failed_downloads s)) s));;
     modify (set_state (fun s =>
       match meetings s !! meeting_id with
       | Some e =>
           set_meetings
             (<[meeting_id := meeting_failed (Some error) e]> (meetings s)) s
       | None => s
       end));;
     save).

Definition pending_items (s : StateFile.t) : list (pystr * meeting) :=
  List.filter (fun kv => negb (mem (fst kv) (successful_downloads s)))
              (map_to_list (meetings s)).

Definition get_pending_meetings : M (list meeting) :=
  with_lock (gets (fun p => map snd (pending_items (state p)))).

Definition get_progress : M (nat * nat) :=
  with_lock
    (gets (fun p => (length (successful_downloads (state p)),
                     size (meetings (state p))))).

End WithClock.

(** *** Utilities *)

(** The character class of the first [re.sub] of [sanitize_filename]:
    as in the downloader, without the tab. *)
Definition illegal_chars : list N :=
  [60; 62; 58; 34; 47; 92; 124; 63; 42; 10; 13]%N.

Definition sanitize_filename (title : pystr) (max_length : Z) : pystr :=
  let safe := re_sub_class (in_class illegal_chars) [underscore] title in
  let safe := re_sub_plus is_underscore [underscore] safe in
  strip is_underscore (slice_to max_length safe).

Definition default_max_length : Z := 100.

(** *** [extract_transcript_text] *)

Definition attr_selector (attr value : string) : pystr :=
  py "[" ++ py attr ++ py "=" ++ dq ++ py value ++ dq ++ py "]".

Definition selectors : list pystr :=
  [ attr_selector "class*" "transcript";
    attr_selector "class*" "speech";
    py ".otterTranscript";
    attr_selector "data-testid*" "transcript";
    py "main" ].

Definition body_script : pystr := py "() => document.body.innerText".

(** The loop over the elements of one selector; an exception ends it
    and keeps the parts found so far. *)
Fixpoint element_parts (elements : list element) : list pystr :=
  match elements with
  | [] => []
  | el :: rest =>
      match inner_text el with
      | Ok text =>
          if truthy text && (50 <? len text)%Z
          then text :: element_parts rest
          else element_parts rest
      | Raise _ => []
      end
  end.

Definition content_parts (doc : document) : list pystr :=
  flat_map
    (fun selector =>
       match query_selector_all doc selector with
       | Ok elements => element_parts elements
       | Raise _ => []
       end)
    selectors.

Definition first_line (s : pystr) : pystr :=
  match split_on is_newline s with
  | [] => []
  | l :: _ => l
  end.

Definition header (now : pystr) (meeting : meeting) (method : string) : pystr :=
  py "Meeting: " ++ first_line (m_title meeting) ++ [newline]
  ++ py "URL: " ++ m_url meeting ++ [newline]
  ++ py "Downloaded: " ++ now ++ [newline]
  ++ py "Method: " ++ py method ++ [newline]
  ++ repeat_char 61%N 60 ++ [newline; newline].

Definition extract_transcript_text (now : pystr) (doc : document)
           (meeting : meeting) : pystr :=
  match content_parts doc with
  | [] =>
      match evaluate doc body_script with
      | Ok (Some body_text) =>
          if truthy body_text && (200 <? len body_text)%Z
          then header now meeting "parallel_body_extraction" ++ body_text
          else []
      | Ok None => []
      | Raise _ => []
      end
  | parts =>
      header now meeting "parallel_text_extraction" ++ join [newline] parts
  end.

(** *** [download_single_transcript] *)

(** What one task meets: the launch of its own browser, the one
    navigation, the file system, and the closing of the browser. *)
Record task_world := {
  launch : result unit;
  goto : pystr -> result document;
  fs : filesystem;
  close : result unit
}.

Section WithClock2.

Variable now : pystr.

Definition save_path_of (title meeting_id : pystr) : pystr :=
  in_download_dir
    (sanitize_filename title default_max_length ++ py "_"
     ++ slice_to 15 meeting_id ++ py ".txt").

(** A task runs in a thread of the pool, beside the other tasks.  Its
    text is cut into steps: a step is one call on the shared object
    (the body of each method is one [with self.lock] block) or one
    action on the browser and the files of the task itself; between
    two steps the other threads may run.  [Ask] is a step whose result
    the task tests, [Do] a step whose result it does not look at.

    A call that finds the lock taken waits.  Between two steps the
    lock is taken only when a thread has stopped inside [mark_success]
    or [mark_failure], and that thread does not release it: the wait
    has no end, and the thread is [AtLock]. *)
Inductive thread :=
| Finished (b : bool)
| AtLock
| Ask (c : M bool) (k : bool -> thread)
| Do (c : M unit) (k : thread).

(** The handler [except Exception as e]. *)
Definition on_exception (meeting_id : pystr) (e : exn) : thread :=
  Do (emit (EvMarkFailure meeting_id (exn_str e));;
      mark_failure now meeting_id (exn_str e))
     (Finished false).

(** The [finally] clause after a body that returned [b]. *)
Definition finally_return (w : task_world) (meeting_id : pystr) (b : bool)
  : thread :=
  Do (emit EvClose)
     (match close w with
      | Ok _ => Finished b
      | Raise e => on_exception meeting_id e
      end).

(** The [finally] clause after a body that raised [e]: an exception
    of the clause replaces [e]. *)
Definition finally_raise (w : task_world) (meeting_id : pystr) (e : exn)
  : thread :=
  Do (emit EvClose)
     (match close w with
      | Ok _ => on_exception meeting_id e
      | Raise e' => on_exception meeting_id e'
      end).

Definition download_single_transcript (w : task_world) (meeting : meeting)
           (worker_id : Z) : thread :=
  let meeting_id := m_id meeting in
  let title := slice_to 50 (m_title meeting) in
  let url := m_url meeting in
  Ask (is_downloaded meeting_id) (fun downloaded =>
  if downloaded then Finished true
  else
    Do (emit EvLaunch)
    (match launch w with
     | Raise e => on_exception meeting_id e
     | Ok _ =>
         Do (emit (EvGoto url))
         (match goto w url with
          | Raise e => finally_raise w meeting_id e
          | Ok doc =>
              Do (emit (EvSleep 2))
              (let transcript_text := extract_transcript_text now doc meeting in
               if truthy transcript_text && (100 <? len transcript_text)%Z then
                 let save_path := save_path_of title meeting_id in
                 Do (emit (EvWrite save_path))
                 (match write_text (fs w) save_path transcript_text with
                  | Raise e => finally_raise w meeting_id e
                  | Ok file_size =>
                      Do (emit (EvMarkSuccess meeting_id save_path file_size);;
                          mark_success now meeting_id save_path file_size)
                      (Do (get_progress;; ret tt)
                      (finally_return w meeting_id true))
                  end)
               else
                 Do (emit (EvMarkFailure meeting_id
                             (py "No transcript content found"));;
                     mark_failure now meeting_id (py "No transcript content found"))
                 (finally_return w meeting_id false))
          end)
     end)).

(** One step of a thread on the shared object [p], with the events of
    the thread so far. *)
Definition step_thread (p : ParallelState) (t : thread) (l : list event)
  : ParallelState * thread * list event :=
  match t with
  | Finished b => (p, Finished b, l)
  | AtLock => (p, AtLock, l)
  | Ask c k =>
      match c {| self := p; trace := l |} with
      | Returned b r => (self r, k b, trace r)
      | Blocked r => (self r, AtLock, trace r)
      end
  | Do c k =>
      match c {| self := p; trace := l |} with
      | Returned _ r => (self r, k, trace r)
      | Blocked r => (self r, AtLock, trace r)
      end
  end.

(** *** [run_parallel_download]

    A task submitted to the [ThreadPoolExecutor]: what is left of its
    text, the events of its thread, and whether a worker has taken it
    from the queue. *)
Record task := {
  code : thread;
  log : list event;
  started : bool
}.

(** The shared object and the tasks, in the order of submission. *)
Record pool := {
  shared : ParallelState;
  tasks : list task
}.

Definition done (t : task) : bool :=
  match code t with
  | Finished _ => true
  | _ => false
  end.

(** The number of workers that hold a task. *)
Definition busy (ts : list task) : nat :=
  length (List.filter (fun t => started t && negb (done t)) ts).

(** The task [i] may make a step: it is in a worker, or it is the
    first of the queue and one of the [num_workers] workers is free. *)
Definition may_run (num_workers : Z) (ts : list task) (i : nat) : bool :=
  match ts !! i with
  | None => false
  | Some t =>
      if started t then true
      else forallb started (take i ts) && (Z.of_nat (busy ts) <? num_workers)%Z
  end.

(** The scheduler lets task [i] make its next step. *)
Definition pool_step (num_workers : Z) (pl : pool) (i : nat) : pool :=
  match tasks pl !! i with
  | None => pl
  | Some t =>
      if may_run num_workers (tasks pl) i then
        match step_thread (shared pl) (code t) (log t) with
        | (p', c', l') =>
            {| shared := p';
               tasks := <[i := {| code := c'; log := l'; started := true |}]>
                          (tasks pl) |}
        end
      else pl
  end.

(** The pool under a schedule: the list of the tasks that make a
    step, one after the other. *)
Definition run_pool (num_workers : Z) (schedule : list nat) (pl : pool) : pool :=
  fold_left (pool_step num_workers) schedule pl.

(** The results of the futures, when they are all there. *)
Fixpoint results (ts : list task) : option (list bool) :=
  match ts with
  | [] => Some []
  | t :: rest =>
      match code t, results rest with
      | Finished b, Some bs => Some (b :: bs)
      | _, _ => None
      end
  end.

Fixpoint submit (worlds : pystr -> task_world) (num_workers : Z) (i : Z)
         (todo : list meeting) : list task :=
  match todo with
  | [] => []
  | meeting :: rest =>
      {| code := download_single_transcript (worlds (m_id meeting)) meeting
                   (i mod num_workers);
         log := []; started := false |}
      :: submit worlds num_workers (i + 1) rest
  end.

(** How a run stands after a schedule: it has returned, with the last
    lines of its log; it has raised; or the main thread waits, for the
    futures or for the lock.  The two readings of the clock are taken
    to differ, so that the division in the line of the speed is
    defined. *)
Inductive run_end :=
| Returns (lines : list log_line) (pl : pool)
| Raises (e : exn) (pl : pool)
| Waits (pl : pool).

(** A call of the main thread on the shared object. *)
Definition call {A} (c : M A) (p : ParallelState) : outcome A :=
  c {| self := p; trace := [] |}.

Definition count_of (b : bool) (bs : list bool) : Z :=
  Z.of_nat (length (List.filter (Bool.eqb b) bs)).

(** [ThreadPoolExecutor(max_workers=n)] raises a [ValueError] for
    [n <= 0]. *)
Definition pool_error : exn :=
  PyException (py "max_workers must be greater than 0").

Definition run_parallel_download (worlds : pystr -> task_world)
           (num_workers : Z) (schedule : list nat) (p : ParallelState)
  : run_end :=
  match call get_pending_meetings p with
  | Blocked r => Waits {| shared := self r; tasks := [] |}
  | Returned todo r =>
      match todo with
      | [] =>
          match call get_progress (self r) with
          | Blocked r' => Waits {| shared := self r'; tasks := [] |}
          | Returned (downloaded, total) r' =>
              Returns [ Text (py "No pending meetings to download!");
                        Ratio (py "Already downloaded")
                              (Z.of_nat downloaded) (Z.of_nat total) ]
                      {| shared := self r'; tasks := [] |}
          end
      | _ =>
          let p1 :=
            {| state := state (self r); lock_held := lock_held (self r);
               download_count := download_count (self r);
               total_to_download := Z.of_nat (length todo);
               state_file := state_file (self r) |} in
          match call get_progress p1 with
          | Blocked r' => Waits {| shared := self r'; tasks := [] |}
          | Returned _ r' =>
              if (num_workers <=? 0)%Z
              then Raises pool_error {| shared := self r'; tasks := [] |}
              else
                let pl :=
                  run_pool num_workers schedule
                    {| shared := self r';
                       tasks := submit worlds num_workers 0 todo |} in
                match results (tasks pl) with
                | None => Waits pl
                | Some bs =>
                    match call get_progress (shared pl) with
                    | Blocked r'' =>
                        Waits {| shared := self r''; tasks := tasks pl |}
                    | Returned (downloaded_after, total) r'' =>
                        Returns [ Rule; Text (py "DOWNLOAD COMPLETE"); Rule;
                                  Timing (py "Time elapsed");
                                  Count (py "Downloaded this session")
                                        (count_of true bs);
                                  Count (py "Failed this session")
                                        (count_of false bs);
                                  Ratio (py "Total downloaded")
                                        (Z.of_nat downloaded_after)
                                        (Z.of_nat total);
                                  Timing (py "Speed") ]
                                {| shared := self r''; tasks := tasks pl |}
                    end
                end
          end
      end
  end.

(** The script calls [run_parallel_download] and ends: status 0 when
    it returns, 1 when the exception reaches the top, none while it
    waits. *)
Definition exit_status (e : run_end) : option Z :=
  match e with
  | Returns _ _ => Some 0%Z
  | Raises _ _ => Some 1%Z
  | Waits _ => None
  end.

End WithClock2.

End Parallel.

(** * The terms of the statements

    Histories of calls, example pages and the predicates in which the
    theorems below are stated. *)

Import PyStr.

Definition starts_clear (s : pystr) : Prop :=
  forall c s', s = c :: s' -> is_underscore c = false.

Definition ends_clear (s : pystr) : Prop :=
  forall c, last s = Some c -> is_underscore c = false.

(** A character that may stay in a file name of the downloader. *)
Definition plain_char (c : N) : Prop :=
  in_class Downloader.illegal_chars c = false /\ is_space c = false.

(** What both sanitizers guarantee, for a class of illegal characters
    and a bound on the length. *)
Record sanitized (illegal : list N) (bound : nat) (y : pystr) : Prop := {
  sanitized_legal : Forall (fun c => in_class illegal c = false) y;
  sanitized_single : no_double_underscore y = true;
  sanitized_short : length y <= bound;
  sanitized_start : starts_clear y;
  sanitized_end : ends_clear y
}.

(** A call of one of the four mutating methods, with the reading of the
    clock it makes. *)
Inductive ledger_op :=
| Register (now meeting_id title url : pystr)
| RecordAttempt (now meeting_id method : pystr) (success : bool)
                (error : option pystr)
| MarkSuccess (now meeting_id file_path method : pystr) (file_size : Z)
| MarkFailure (now meeting_id : pystr).

Definition apply_op (d : Downloader.DownloadState) (o : ledger_op)
  : Downloader.DownloadState :=
  match o with
  | Register now i t u => Downloader.register_meeting now d i t u
  | RecordAttempt now i m ok err => Downloader.record_attempt now d i m ok err
  | MarkSuccess now i p m sz => Downloader.mark_success now d i p m sz
  | MarkFailure now i => Downloader.mark_failure now d i
  end.

Definition run_ops (ops : list ledger_op) (d : Downloader.DownloadState)
  : Downloader.DownloadState :=
  fold_left apply_op ops d.

(** The two lists of a state. *)
Definition succeeded (d : Downloader.DownloadState) : list pystr :=
  StateFile.successful_downloads (Downloader.state d).

Definition given_up (d : Downloader.DownloadState) : list pystr :=
  StateFile.failed_downloads (Downloader.state d).

Definition entry (d : Downloader.DownloadState) (i : pystr)
  : option StateFile.meeting :=
  StateFile.meetings (Downloader.state d) !! i.

Definition status_of (d : Downloader.DownloadState) (i : pystr)
  : option StateFile.status :=
  StateFile.m_status <$> entry d i.

(** No id is in both lists, and the list of failures has no duplicate
    (so that one [remove] takes an id out of it). *)
Definition lists_disjoint (d : Downloader.DownloadState) : bool :=
  forallb (fun x => negb (StateFile.mem x (given_up d))) (succeeded d).

Definition ledger_ok (d : Downloader.DownloadState) : bool :=
  lists_disjoint d && bool_decide (NoDup (given_up d)).

(** The discipline of the callers: [mark_failure] is called for an id
    only while [is_downloaded] is false for it. *)
Fixpoint guarded (d : Downloader.DownloadState) (ops : list ledger_op) : bool :=
  match ops with
  | [] => true
  | o :: rest =>
      match o with
      | MarkFailure _ i => negb (Downloader.is_downloaded d i)
      | _ => true
      end && guarded (apply_op d o) rest
  end.

(** No [mark_failure] for [i] in a sequence. *)
Definition spares (i : pystr) (ops : list ledger_op) : bool :=
  forallb (fun o => match o with
                    | MarkFailure _ j => negb (bool_decide (j = i))
                    | _ => true
                    end) ops.

(** The ids of the items that [get_pending_meetings] returns. *)
Definition pending_ids (d : Downloader.DownloadState) : list pystr :=
  map fst (Downloader.pending_items d).

(** The items of the [meetings] dictionary stored under one id. *)
Definition entries_for (i : pystr) (d : Downloader.DownloadState)
  : list (pystr * StateFile.meeting) :=
  List.filter (fun kv => bool_decide (fst kv = i))
              (map_to_list (StateFile.meetings (Downloader.state d))).

Section SharedObjectTerms.
Import StateFile Parallel.

Definition shared_entry (r : run_state) (i : pystr) : option meeting :=
  meetings (state (self r)) !! i.

Definition shared_status (r : run_state) (i : pystr) : option status :=
  m_status <$> shared_entry r i.

End SharedObjectTerms.

Section LedgerHistories.
Import StateFile.

(** A small history used in the examples: one meeting is registered
    and downloaded. *)
Definition m1 : pystr := py "m1-standup".

Definition downloaded_once : Downloader.DownloadState :=
  run_ops
    [ Register (py "09:00") m1 (py "Standup") (py "https://otter.ai/u/m1-standup");
      MarkSuccess (py "09:01") m1 (py "downloads/Standup_m1-standup.txt")
                  (py "text_extraction") 2048 ]
    (Downloader.new_DownloadState None).

Definition retried_history : list ledger_op :=
  [ Register (py "09:00") m1 (py "Standup") (py "u");
    MarkFailure (py "09:01") m1;
    MarkSuccess (py "09:02") m1 (py "p") (py "screenshot") 7;
    Register (py "09:03") m1 (py "Standup") (py "u") ].

End LedgerHistories.

Section LaterHistories.
Import StateFile.

Definition later_calls : list ledger_op :=
  [ Register (py "10:00") m1 (py "Standup (renamed)") (py "u");
    RecordAttempt (py "10:01") m1 (py "navigation") false (Some (py "timeout"));
    MarkFailure (py "10:02") (py "m2-retro");
    MarkSuccess (py "10:03") m1 (py "p") (py "screenshot") 9 ].

End LaterHistories.

Section ScrollTerms.
Import Downloader.
Local Open Scope Z_scope.

Variable count_after : Z -> Z.
Variable max_scrolls : Z.






(** From the [K]-th observation on the count is [c]. *)
Definition settled (K c : Z) : Prop :=
  forall j, K <= j -> count_after j = c.


End ScrollTerms.

Section FeedTerms.
Import Downloader.
Local Open Scope Z_scope.




(** A feed that pauses for 19 observations and shows 70 conversations
    from the 20th scroll on. *)
Definition stalling_feed (n : Z) : Z := if n <? 20 then 10 else 70.

End FeedTerms.

Section JoinTerms.


End JoinTerms.

Section PageTerms.
Import Py Browser Downloader.
Local Open Scope Z_scope.

(** A page on which every selector finds one and the same element, whose
    text is [t]. *)
Definition one_element (t : pystr) : element :=
  {| inner_text := Ok t; get_href := Ok None |}.

Definition single_container_page (t : pystr) : document :=
  {| query_selector := fun _ => Ok (Some (one_element t));
     query_selector_all := fun _ => Ok [one_element t];
     evaluate := fun _ => Ok None;
     screenshot := fun _ => Ok None |}.

(** A file system on which every write succeeds. *)
Definition disk_ok : filesystem :=
  {| write_text := fun _ content => Ok (len content) |}.

Definition reports (r : option pystr * DownloadState) : option pystr := fst r.

(** The two boundary pages of the specification, with lines of page
    furniture around the text. *)
Definition ascii_lower (s : pystr) : pystr := map ascii_lower_char s.

Definition framed (n : nat) : pystr :=
  py "Sign out" ++ [newline] ++ repeat_char 97%N n ++ [newline] ++ py "Help".

Definition some_meeting : item :=
  {| id := py "m1-standup-2024"; title := py "Standup";
     url := py "https://otter.ai/u/m1-standup-2024" |}.




End PageTerms.

Section TaskTerms.
Import Py Browser StateFile Parallel.
Local Open Scope Z_scope.

Definition logged (r : run_state) (evs : list event) : run_state :=
  {| self := self r; trace := trace r ++ evs |}.

(** The exception that reaches the handler when the body raised [e]:
    an exception of the [finally] clause takes its place. *)
Definition after_close (w : task_world) (e : exn) : exn :=
  match close w with
  | Ok _ => e
  | Raise e' => e'
  end.

(** A thread that makes its steps on the shared object as the other
    threads leave it: [ps] lists the states that it finds, one for each
    step, whatever they are. *)
Fixpoint steps_under (ps : list ParallelState) (t : thread) (l : list event)
  : thread * list event :=
  match ps with
  | [] => (t, l)
  | p :: rest =>
      match step_thread p t l with
      | (_, t', l') => steps_under rest t' l'
      end
  end.

End TaskTerms.

Section VerdictTerms.
Import Py Browser StateFile Parallel.
Local Open Scope Z_scope.

Definition long_enough (text : pystr) : bool :=
  truthy text && (100 <? len text).

(** The first call of a task that changes the ledger. *)
Definition task_verdict (now : pystr) (w : task_world) (meeting : meeting)
  : event :=
  let i := m_id meeting in
  match launch w with
  | Raise e => EvMarkFailure i (exn_str e)
  | Ok _ =>
      match goto w (m_url meeting) with
      | Raise e => EvMarkFailure i (exn_str (after_close w e))
      | Ok doc =>
          let text := extract_transcript_text now doc meeting in
          let path := save_path_of (slice_to 50 (m_title meeting)) i in
          if long_enough text then
            match write_text (fs w) path text with
            | Ok sz => EvMarkSuccess i path sz
            | Raise e => EvMarkFailure i (exn_str (after_close w e))
            end
          else EvMarkFailure i (py "No transcript content found")
      end
  end.

Definition is_mark (ev : event) : bool :=
  match ev with
  | EvMarkSuccess _ _ _ => true
  | EvMarkFailure _ _ => true
  | _ => false
  end.

(** What a task does before that call, in order. *)
Definition task_prelude (now : pystr) (w : task_world) (meeting : meeting)
  : list event :=
  let path := save_path_of (slice_to 50 (m_title meeting)) (m_id meeting) in
  match launch w with
  | Raise _ => [EvLaunch]
  | Ok _ =>
      match goto w (m_url meeting) with
      | Raise _ => [EvLaunch; EvGoto (m_url meeting); EvClose]
      | Ok doc =>
          let text := extract_transcript_text now doc meeting in
          if long_enough text then
            match write_text (fs w) path text with
            | Ok _ => [EvLaunch; EvGoto (m_url meeting); EvSleep 2; EvWrite path]
            | Raise _ =>
                [EvLaunch; EvGoto (m_url meeting); EvSleep 2; EvWrite path;
                 EvClose]
            end
          else [EvLaunch; EvGoto (m_url meeting); EvSleep 2]
      end
  end.

(** The events of a task up to and with its first call that changes
    the ledger. *)
Definition task_script (now : pystr) (w : task_world) (meeting : meeting)
  : list event :=
  task_prelude now w meeting ++ [task_verdict now w meeting].

End VerdictTerms.

Section TaskExamples.
Import Py Browser StateFile Parallel.
Local Open Scope Z_scope.

Definition clock : pystr := py "2024-05-01T09:00:00".

(** The ledger after the discovery of one meeting, as the parallel
    program loads it. *)
Definition discovered_once : StateFile.t :=
  Downloader.state
    (Downloader.register_meeting clock (Downloader.new_DownloadState None)
       m1 (py "Standup") (py "https://otter.ai/u/m1-standup")).

Definition pending_entry : meeting :=
  {| m_id := m1; m_title := py "Standup";
     m_url := py "https://otter.ai/u/m1-standup";
     m_status := Pending; m_discovered_at := clock;
     m_download_path := None; m_file_size := None;
     m_method_used := None; m_error := None |}.

(** The shared object with which the parallel program starts on that
    ledger. *)
Definition pool_memory : ParallelState :=
  new_ParallelState (Some discovered_once).

(** The same after the discovery of a second meeting. *)
Definition discovered_twice : StateFile.t :=
  Downloader.state
    (Downloader.register_meeting clock
       (Downloader.register_meeting clock (Downloader.new_DownloadState None)
          m1 (py "Standup") (py "https://otter.ai/u/m1-standup"))
       (py "m2-retro") (py "Retro") (py "https://otter.ai/u/m2-retro")).

Definition two_pending : ParallelState :=
  new_ParallelState (Some discovered_twice).

(** A file edited by hand: the entry of [m1] is filed under another
    key, and [m1] is in the list of successes. *)
Definition misfiled : StateFile.t :=
  set_successful_downloads [m1]
    (set_meetings {[ py "m1-old" := pending_entry ]} fresh).

Definition misfiled_memory : ParallelState :=
  new_ParallelState (Some misfiled).



Definition parsed_state : Downloader.json :=
  Downloader.JDict
    [ (py "props", Downloader.JDict
         [ (py "transcript", Downloader.JString (repeat_char 97%N 300)) ]) ].

Definition loads_state (s : pystr) : result Downloader.json := Ok parsed_state.

(** A page without any of the containers, whose body shows 201
    characters. *)
Definition body_only_page : document :=
  {| query_selector := fun _ => Ok None;
     query_selector_all := fun _ => Ok [];
     evaluate := fun script =>
       if bool_decide (script = body_script)
       then Ok (Some (repeat_char 97%N 201))
       else Ok None;
     screenshot := fun _ => Ok None |}.

Definition world_of (doc : document) : task_world :=
  {| launch := Ok tt; goto := fun _ => Ok doc; fs := disk_ok; close := Ok tt |}.

Definition listed_item : Downloader.item :=
  {| Downloader.id := m1; Downloader.title := py "Standup";
     Downloader.url := py "https://otter.ai/u/m1-standup" |}.

End TaskExamples.

Section RunTerms.
Import Py Browser StateFile Downloader.
Local Open Scope Z_scope.

Variable now : pystr.




End RunTerms.

Section RunExamples.
Import Py Browser StateFile Downloader.
Local Open Scope Z_scope.

(** Two meetings of an earlier run: the first one failed, the second
    one is downloaded. *)
Definition id_failed : pystr := py "aaaaaaaaaaaa".
Definition id_done : pystr := py "bbbbbbbbbbbb".

Definition earlier_run : StateFile.t :=
  state
    (run_ops
       [ Register clock id_failed (py "Retro") (py "https://otter.ai/u/aaaaaaaaaaaa");
         Register clock id_done (py "Standup") (py "https://otter.ai/u/bbbbbbbbbbbb");
         MarkFailure clock id_failed;
         MarkSuccess clock id_done (py "downloads/Standup_bbbbbbbbbbbb.txt")
                     (py "text_extraction") 2048 ]
       (new_DownloadState None)).

Definition link_to (meeting_id title : pystr) : element :=
  {| inner_text := Ok title; get_href := Ok (Some (py "/u/" ++ meeting_id)) |}.

(** The listing shows the downloaded meeting first. *)
Definition listing_page : document :=
  {| query_selector := fun _ => Ok None;
     query_selector_all := fun _ =>
       Ok [link_to id_done (py "Standup"); link_to id_failed (py "Retro")];
     evaluate := fun _ => Ok None;
     screenshot := fun _ => Ok None |}.

(** Every navigation to a meeting times out. *)
Definition unreachable : page :=
  {| goto := fun _ _ => Raise (PlaywrightTimeout (py "Timeout 60000ms exceeded")) |}.

Definition later_world : run_world :=
  {| found_file := Some earlier_run; the_session := SessionOpen;
     listing := listing_page; the_page := unreachable |}.

Definition top_one : run_args :=
  {| reset := false; quick := false; num := Some 1 |}.

Definition everything : run_args :=
  {| reset := false; quick := false; num := None |}.

(** The same listing met with no state file. *)
Definition first_world : run_world :=
  {| found_file := None; the_session := SessionOpen;
     listing := listing_page; the_page := unreachable |}.


End RunExamples.

(** ** Further terms: the ledger seen by its users *)

Section LedgerViews.
Import StateFile.

(** The attempts recorded for one meeting ([[]] for a missing key). *)
Definition attempts_of (d : Downloader.DownloadState) (i : pystr) : list attempt :=
  match download_attempts (Downloader.state d) !! i with
  | Some l => l
  | None => []
  end.

(** The reading of the clock that a call makes. *)
Definition op_time (o : ledger_op) : pystr :=
  match o with
  | Register now _ _ _ => now
  | RecordAttempt now _ _ _ _ => now
  | MarkSuccess now _ _ _ _ => now
  | MarkFailure now _ => now
  end.

(** The attempt that a call appends for [i], if any. *)
Definition op_attempt (i : pystr) (o : ledger_op) : list attempt :=
  match o with
  | RecordAttempt now j m ok err =>
      if bool_decide (j = i)
      then [{| a_timestamp := now; a_method := m; a_success := ok; a_error := err |}]
      else []
  | _ => []
  end.

(** The status of an entry agrees with the two lists: a [Success] entry
    is in the list of successes, a [Failed] one in the list of
    failures. *)
Definition coherent (d : Downloader.DownloadState) : Prop :=
  forall i,
    (status_of d i = Some Success -> i ∈ succeeded d)
    /\ (status_of d i = Some Failed -> i ∈ given_up d).

(** A call or a run that concerns meeting [i] leaves the others alone. *)
Definition touches_only (i : pystr) (d d' : Downloader.DownloadState) : Prop :=
  forall j, j <> i ->
    entry d' j = entry d j
    /\ attempts_of d' j = attempts_of d j
    /\ (j ∈ succeeded d' <-> j ∈ succeeded d)
    /\ (j ∈ given_up d' <-> j ∈ given_up d).

Definition keeps_successes (d d' : Downloader.DownloadState) : Prop :=
  forall x, x ∈ succeeded d -> x ∈ succeeded d'.

End LedgerViews.

Section StrategyTerms.
Import Py Browser StateFile Downloader.

(** The two ways in which a strategy leaves the ledger: one successful
    attempt and the success marked, or one failed attempt. *)
Definition success_end (now : pystr) (d : DownloadState)
           (i method path : pystr) (sz : Z) : DownloadState :=
  mark_success now (record_attempt now d i method true None) i path method sz.

Definition failure_end (now : pystr) (d : DownloadState)
           (i method err : pystr) : DownloadState :=
  record_attempt now d i method false (Some err).

(** The result of a strategy named [method] has one of the two shapes. *)
Definition ends_well (now method : pystr) (meeting : item) (d : DownloadState)
           (r : option pystr * DownloadState) : Prop :=
  (exists path sz, r = (Some path, success_end now d (id meeting) method path sz))
  \/ (exists err, r = (None, failure_end now d (id meeting) method err)).

Definition failed_attempt (a : attempt) : Prop := a_success a = false.

(** The attempts added by a download that returned [b]: when it
    succeeded, failed attempts and then one successful attempt, the
    last; when it failed, failed attempts only. *)
Definition log_of (b : bool) (l : list attempt) : Prop :=
  if b
  then exists l' a, l = l' ++ [a] /\ a_success a = true /\ Forall failed_attempt l'
  else Forall failed_attempt l.

End StrategyTerms.

Section DownloadTerms.
Import Py Browser StateFile Downloader.

(** What a part of a download of meeting [i] that returned [b] did to
    the ledger, with at most [n] attempts recorded: a failure changes
    nothing but the attempts. *)
Definition step_ok (n : nat) (i : pystr) (b : bool) (d d' : DownloadState)
  : Prop :=
  touches_only i d d'
  /\ keeps_successes d d'
  /\ (exists l, attempts_of d' i = attempts_of d i ++ l
                /\ length l <= n /\ log_of b l)
  /\ (b = true -> is_downloaded d' i = true)
  /\ (b = false ->
      succeeded d' = succeeded d /\ given_up d' = given_up d
      /\ forall j, entry d' j = entry d j).

End DownloadTerms.

Section DownloadTerms2.
Import Py Browser StateFile Downloader.

(** What a whole [download_meeting] of meeting [i] that returned [b]
    did to the ledger: a failure adds [i] to the list of failures and
    turns the status of its entry to [Failed]. *)
Definition download_ok (n : nat) (i : pystr) (b : bool) (d d' : DownloadState)
  : Prop :=
  touches_only i d d'
  /\ keeps_successes d d'
  /\ (exists l, attempts_of d' i = attempts_of d i ++ l
                /\ length l <= n /\ log_of b l)
  /\ (b = true -> is_downloaded d' i = true)
  /\ (b = false ->
      succeeded d' = succeeded d
      /\ given_up d' = append_new i (given_up d)
      /\ entry d' i = meeting_failed None <$> entry d i).

(** One record with the name of the strategy, whose flag says whether a
    path was returned. *)
Definition one_attempt (now method : pystr) (i : pystr) (d : DownloadState)
           (r : option pystr * DownloadState) : Prop :=
  exists a,
    attempts_of (snd r) i = attempts_of d i ++ [a]
    /\ a_method a = method /\ a_timestamp a = now
    /\ a_success a = bool_decide (is_Some (fst r))
    /\ (is_Some (fst r) -> a_error a = None /\ is_downloaded (snd r) i = true)
    /\ (fst r = None ->
        is_Some (a_error a)
        /\ succeeded (snd r) = succeeded d /\ given_up (snd r) = given_up d
        /\ forall j, entry (snd r) j = entry d j).

End DownloadTerms2.

Section RunViews.
Import Py Browser StateFile Downloader.

(** The meeting is in one of the two lists. *)
Definition accounted (i : pystr) (d : DownloadState) : Prop :=
  i ∈ succeeded d \/ i ∈ given_up d.

(** Nothing about meeting [j] differs between the two states. *)
Definition same_about (j : pystr) (d d' : DownloadState) : Prop :=
  entry d' j = entry d j
  /\ attempts_of d' j = attempts_of d j
  /\ (j ∈ succeeded d' <-> j ∈ succeeded d)
  /\ (j ∈ given_up d' <-> j ∈ given_up d).

(** An entry that exists is still there, unchanged. *)
Definition keeps_entries (d d' : DownloadState) : Prop :=
  forall j e, entry d j = Some e -> entry d' j = Some e.

End RunViews.

Section DiscoveryTerms.
Import Py Browser StateFile Downloader.

(** The name of the text file of a meeting, inside the download
    directory. *)
Definition text_filename (meeting : item) : pystr :=
  sanitize_filename (title meeting) ++ py "_"
  ++ slice_to 15 (id meeting) ++ py ".txt".

(** The ids of a list of meetings. *)
Definition ids_of (l : list item) : list pystr := map id l.

End DiscoveryTerms.

Section DiscoveryTerms2.
Import Py Browser StateFile Downloader.

(** The entry that [register_meeting] creates for a meeting. *)
Definition pending_entry_of (now : pystr) (m : item) : meeting :=
  {| m_id := id m; m_title := title m; m_url := url m;
     m_status := Pending; m_discovered_at := now;
     m_download_path := None; m_file_size := None;
     m_method_used := None; m_error := None |}.

(** After the discovery the meeting has its entry: the one it had, or
    a new pending one. *)
Definition registered (now : pystr) (d d' : DownloadState) (m : item) : Prop :=
  entry d' (id m)
  = Some (match entry d (id m) with
          | Some e => e
          | None => pending_entry_of now m
          end).

End DiscoveryTerms2.

Section PoolTerms.
Import Py Browser StateFile Parallel.

(** The id that the entry carries is in the list of successes: the
    test with which a task skips its meeting. *)
Definition listed_as_done (s : StateFile.t) (m : meeting) : bool :=
  mem (m_id m) (successful_downloads s).

(** Every entry is filed under the id it carries, as
    [register_meeting] files it. *)
Definition keyed_by_id (s : StateFile.t) : Prop :=
  forall i e, meetings s !! i = Some e -> m_id e = i.

(** The pool with which a run stands. *)
Definition pool_of (e : run_end) : pool :=
  match e with
  | Returns _ pl => pl
  | Raises _ pl => pl
  | Waits pl => pl
  end.

(** A call that leaves the ledger, the file and the lock as they are
    when it returns, and the file as it is when it does not. *)
Definition call_ok {A} (c : M A) : Prop :=
  forall r,
    match c r with
    | Returned _ r' =>
        state (self r') = state (self r)
        /\ state_file (self r') = state_file (self r)
        /\ lock_held (self r') = lock_held (self r)
    | Blocked r' =>
        state_file (self r') = state_file (self r)
        /\ lock_held (self r') = true
    end.

(** A call that never returns. *)
Definition never_returns {A} (c : M A) : Prop :=
  forall r, exists r', c r = Blocked r'.

(** A thread all of whose calls are of that kind. *)
Inductive tame : thread -> Prop :=
| tame_finished (b : bool) : tame (Finished b)
| tame_at_lock : tame AtLock
| tame_ask (c : M bool) (k : bool -> thread) :
    call_ok c -> (forall b, tame (k b)) -> tame (Ask c k)
| tame_do (c : M unit) (k : thread) :
    call_ok c -> tame k -> tame (Do c k).

(** A thread that cannot finish: it waits for the lock, or a call on
    its way never returns. *)
Inductive doomed : thread -> Prop :=
| doomed_at_lock : doomed AtLock
| doomed_stop (c : M unit) (k : thread) : never_returns c -> doomed (Do c k)
| doomed_later (c : M unit) (k : thread) : doomed k -> doomed (Do c k).

(** The shared object of a run that started from [p0]: the file is as
    it was, and so is the ledger as long as the lock is free. *)
Definition shared_inv (p0 p : ParallelState) : Prop :=
  state_file p = state_file p0
  /\ (lock_held p = false -> state p = state p0).

(** A task for [m] that no worker has taken. *)
Definition queued (now : pystr) (worlds : pystr -> task_world) (m : meeting)
           (t : task) : Prop :=
  (exists worker_id,
     code t = download_single_transcript now (worlds (m_id m)) m worker_id)
  /\ log t = [] /\ started t = false.

(** A task that skipped its meeting. *)
Definition skipped (t : task) : Prop :=
  code t = Finished true /\ log t = [] /\ started t = true.

(** What holds of the task for [m] in a run that started with the
    ledger [s0]. *)
Definition task_inv (now : pystr) (worlds : pystr -> task_world)
           (s0 : StateFile.t) (m : meeting) (t : task) : Prop :=
  queued now worlds m t
  \/ (listed_as_done s0 m = true /\ skipped t)
  \/ doomed (code t).

Definition tasks_inv (now : pystr) (worlds : pystr -> task_world)
           (s0 : StateFile.t) (todo : list meeting) (ts : list task) : Prop :=
  length ts = length todo
  /\ forall i m t, todo !! i = Some m -> ts !! i = Some t ->
                   task_inv now worlds s0 m t.

(** What holds of the pool of a run that started from [p0] with the
    meetings [todo], under every schedule. *)
Definition pool_inv (now : pystr) (worlds : pystr -> task_world)
           (p0 : ParallelState) (todo : list meeting) (pl : pool) : Prop :=
  shared_inv p0 (shared pl)
  /\ Forall (fun t => tame (code t)) (tasks pl)
  /\ tasks_inv now worlds (state p0) todo (tasks pl).

(** The tasks taken in the order of submission, each one skipping its
    meeting: the first [k] are through, the others are in the queue. *)
Definition in_order_inv (now : pystr) (worlds : pystr -> task_world)
           (todo : list meeting) (k : nat) (ts : list task) : Prop :=
  length ts = length todo
  /\ forall i m t, todo !! i = Some m -> ts !! i = Some t ->
                   if (i <? k)%nat then skipped t else queued now worlds m t.

(** The same when every task skips its meeting, under every schedule:
    each task is through or in the queue. *)
Definition skipping_inv (now : pystr) (worlds : pystr -> task_world)
           (todo : list meeting) (ts : list task) : Prop :=
  length ts = length todo
  /\ forall i m t, todo !! i = Some m -> ts !! i = Some t ->
                   queued now worlds m t \/ skipped t.

End PoolTerms.

Section HistoryTerms.
Import Py Browser StateFile Downloader.

(** The meeting that a call concerns. *)
Definition op_id (o : ledger_op) : pystr :=
  match o with
  | Register _ i _ _ => i
  | RecordAttempt _ i _ _ _ => i
  | MarkSuccess _ i _ _ _ => i
  | MarkFailure _ i => i
  end.

(** Calls of [record_attempt] only. *)
Definition only_attempts (ops : list ledger_op) : bool :=
  forallb (fun o => match o with
                    | RecordAttempt _ _ _ _ _ => true
                    | _ => false
                    end) ops.

(** Calls about meeting [i], made at time [now]. *)
Definition calls_about (now i : pystr) (ops : list ledger_op) : Prop :=
  Forall (fun o => op_id o = i /\ op_time o = now) ops.

(** The calls of a download that returned [b]: records of attempts,
    and a last call that is [mark_success] or [mark_failure]. *)
Definition download_calls (now i : pystr) (b : bool) (ops : list ledger_op)
  : Prop :=
  exists pre last,
    ops = pre ++ [last]
    /\ only_attempts pre = true
    /\ if b then exists path method sz, last = MarkSuccess now i path method sz
       else last = MarkFailure now i.

End HistoryTerms.

Section WaitTerms.
Import Py Browser StateFile Downloader.

(** An attempt of [wait_with_retry] that goes on to the next one: no
    element, or a timeout. *)
Definition declines (r : result (option element)) : Prop :=
  r = Ok None \/ exists msg, r = Raise (PlaywrightTimeout msg).

(** The click raised. *)
Definition click_failed (btn : button) : Prop :=
  exists e, click btn = Raise e.

End WaitTerms.

(** * Facts about the string primitives *)

Section StringFacts.

Variable p : N -> bool.

Lemma lstrip_suffix (s : pystr) : exists pre, s = pre ++ lstrip p s.
Proof.
  induction s as [|c s IH]; simpl.
  - exists []. reflexivity.
  - destruct (p c).
    + destruct IH as [pre Hpre]. exists (c :: pre). simpl. congruence.
    + exists []. reflexivity.
Qed.

Lemma rstrip_prefix (s : pystr) : exists suf, s = rstrip p s ++ suf.
Proof.
  induction s as [|c s IH]; simpl.
  - exists []. reflexivity.
  - destruct IH as [suf Hsuf].
    destruct (rstrip p s) as [|d r] eqn:E.
    + destruct (p c).
      * exists (c :: s). reflexivity.
      * exists s. simpl in Hsuf. simpl. congruence.
    + exists suf. simpl. simpl in Hsuf. congruence.
Qed.

Lemma strip_infix (s : pystr) : exists pre suf, s = pre ++ strip p s ++ suf.
Proof.
  unfold strip.
  destruct (lstrip_suffix s) as [pre Hpre].
  destruct (rstrip_prefix (lstrip p s)) as [suf Hsuf].
  exists pre, suf. rewrite <- Hsuf. exact Hpre.
Qed.

Lemma lstrip_head (s : pystr) c s' : lstrip p s = c :: s' -> p c = false.
Proof.
  induction s as [|d s IH]; simpl; [discriminate|].
  destruct (p d) eqn:E; [exact IH|].
  intros H. injection H as -> _. exact E.
Qed.

Lemma rstrip_last (s : pystr) c : last (rstrip p s) = Some c -> p c = false.
Proof.
  induction s as [|d s IH]; simpl; [discriminate|].
  destruct (rstrip p s) as [|e r] eqn:E.
  - destruct (p d) eqn:Ed; simpl; [discriminate|].
    intros H. injection H as <-. exact Ed.
  - intros H. apply IH. rewrite <- H. reflexivity.
Qed.

Lemma rstrip_head (s : pystr) c s' :
  rstrip p s = c :: s' -> exists s'', s = c :: s''.
Proof.
  destruct s as [|d s]; simpl; [discriminate|].
  destruct (rstrip p s) as [|e r].
  - destruct (p d); [discriminate|]. intros H. injection H as -> _. eauto.
  - intros H. injection H as -> _. eauto.
Qed.

Lemma strip_head (s : pystr) c s' : strip p s = c :: s' -> p c = false.
Proof.
  unfold strip. intros H.
  destruct (rstrip_head _ _ _ H) as [s'' Hs''].
  exact (lstrip_head _ _ _ Hs'').
Qed.

Lemma strip_last (s : pystr) c : last (strip p s) = Some c -> p c = false.
Proof. unfold strip. apply rstrip_last. Qed.




Lemma strip_length (s : pystr) : length (strip p s) <= length s.
Proof.
  destruct (strip_infix s) as (pre & suf & H).
  rewrite H at 2. rewrite !length_app. lia.
Qed.

End StringFacts.

Section SubstitutionFacts.

Variable cls : N -> bool.

Lemma re_sub_class_Forall (Q : N -> Prop) (repl s : pystr) :
  Forall Q repl ->
  (forall c, c ∈ s -> cls c = false -> Q c) ->
  Forall Q (re_sub_class cls repl s).
Proof.
  intros Hrepl. unfold re_sub_class.
  induction s as [|c s IH]; intros Hs; simpl.
  - constructor.
  - apply Forall_app. split.
    + destruct (cls c) eqn:E; [exact Hrepl|].
      constructor; [|constructor]. apply Hs; [left|exact E].
    + apply IH. intros d Hd. apply Hs. right. exact Hd.
Qed.


Lemma re_sub_plus_from_Forall (Q : N -> Prop) (repl : pystr) (b : bool) (s : pystr) :
  Forall Q repl ->
  (forall c, c ∈ s -> cls c = false -> Q c) ->
  Forall Q (re_sub_plus_from cls repl b s).
Proof.
  intros Hrepl. revert b.
  induction s as [|c s IH]; intros b Hs; simpl.
  - constructor.
  - assert (Hrest : forall b', Forall Q (re_sub_plus_from cls repl b' s)).
    { intros b'. apply IH. intros d Hd. apply Hs. right. exact Hd. }
    destruct (cls c) eqn:E.
    + apply Forall_app. split; [|apply Hrest].
      destruct b; [constructor|exact Hrepl].
    + constructor; [|apply Hrest]. apply Hs; [left|exact E].
Qed.


End SubstitutionFacts.

(** Collapsing runs of underscores. *)


Lemma collapse_after_run_starts_clear (s : pystr) :
  starts_clear (re_sub_plus_from is_underscore [underscore] true s).
Proof.
  induction s as [|c s IH]; simpl.
  - intros d s' H. discriminate.
  - destruct (is_underscore c) eqn:E; simpl.
    + exact IH.
    + intros d s' H. injection H as <- _. exact E.
Qed.

Lemma no_double_underscore_cons (c : N) (s : pystr) :
  no_double_underscore (c :: s) = true <->
  (is_underscore c = true -> starts_clear s) /\ no_double_underscore s = true.
Proof.
  simpl. destruct s as [|d s].
  - split; [|reflexivity]. intros _. split; [|reflexivity].
    intros _ e s' H. discriminate.
  - rewrite andb_true_iff, negb_true_iff, andb_false_iff. split.
    + intros [H1 H2]. split; [|exact H2].
      intros Hc e s' He. injection He as <- _.
      destruct H1 as [H1|H1]; [congruence|exact H1].
    + intros [H1 H2]. split; [|exact H2].
      destruct (is_underscore c) eqn:E; [right|left; reflexivity].
      exact (H1 eq_refl d s eq_refl).
Qed.

Lemma collapse_no_double (b : bool) (s : pystr) :
  no_double_underscore (re_sub_plus_from is_underscore [underscore] b s) = true.
Proof.
  revert b. induction s as [|c s IH]; intros b.
  - reflexivity.
  - cbn [re_sub_plus_from]. destruct (is_underscore c) eqn:E.
    + destruct b; cbn [app].
      * apply IH.
      * apply no_double_underscore_cons. split; [|apply IH].
        intros _. apply collapse_after_run_starts_clear.
    + apply no_double_underscore_cons. split; [|apply IH]. congruence.
Qed.


Lemma no_double_underscore_app (a b : pystr) :
  no_double_underscore (a ++ b) = true ->
  no_double_underscore a = true /\ no_double_underscore b = true.
Proof.
  induction a as [|c a IH]; intros H.
  - split; [reflexivity|exact H].
  - change ((c :: a) ++ b) with (c :: (a ++ b)) in H.
    apply no_double_underscore_cons in H. destruct H as [Hc H].
    destruct (IH H) as [Ha Hb]. split; [|exact Hb].
    apply no_double_underscore_cons. split; [|exact Ha].
    intros E d a' Hd. subst a. apply (Hc E d (a' ++ b)). reflexivity.
Qed.

Lemma no_double_underscore_take (n : nat) (s : pystr) :
  no_double_underscore s = true -> no_double_underscore (take n s) = true.
Proof.
  intros H. rewrite <- (take_drop n s) in H.
  apply no_double_underscore_app in H. tauto.
Qed.

Lemma no_double_underscore_strip (p : N -> bool) (s : pystr) :
  no_double_underscore s = true -> no_double_underscore (strip p s) = true.
Proof.
  intros H. destruct (strip_infix p s) as (pre & suf & E).
  rewrite E in H. apply no_double_underscore_app in H. destruct H as [_ H].
  apply no_double_underscore_app in H. tauto.
Qed.

Lemma Forall_strip (Q : N -> Prop) (p : N -> bool) (s : pystr) :
  Forall Q s -> Forall Q (strip p s).
Proof.
  intros H. destruct (strip_infix p s) as (pre & suf & E).
  rewrite E in H. apply Forall_app in H. destruct H as [_ H].
  apply Forall_app in H. tauto.
Qed.

Lemma Forall_slice_to (Q : N -> Prop) (n : Z) (s : pystr) :
  Forall Q s -> Forall Q (slice_to n s).
Proof. intros H. unfold slice_to. destruct (0 <=? n)%Z; apply Forall_take, H. Qed.

Lemma no_double_underscore_slice_to (n : Z) (s : pystr) :
  no_double_underscore s = true -> no_double_underscore (slice_to n s) = true.
Proof.
  intros H. unfold slice_to.
  destruct (0 <=? n)%Z; apply no_double_underscore_take, H.
Qed.

Lemma slice_to_length (n : Z) (s : pystr) :
  (0 <= n)%Z -> length (slice_to n s) <= Z.to_nat n.
Proof.
  intros H. unfold slice_to.
  destruct (0 <=? n)%Z eqn:E; [|lia]. rewrite length_take. lia.
Qed.


(** * The filename sanitizers *)

Lemma underscore_plain : plain_char underscore.
Proof. split; reflexivity. Qed.

Lemma downloader_sanitize_plain (x : pystr) :
  Forall plain_char (Downloader.sanitize_filename x).
Proof.
  unfold Downloader.sanitize_filename.
  apply Forall_strip, Forall_slice_to. unfold re_sub_plus.
  set (s1 := re_sub_class (in_class Downloader.illegal_chars) [] x).
  assert (H1 : Forall (fun c => in_class Downloader.illegal_chars c = false) s1).
  { apply re_sub_class_Forall; [constructor|]. intros c _ Hc. exact Hc. }
  set (s2 := re_sub_plus_from is_space [underscore] false s1).
  assert (H2 : Forall plain_char s2).
  { apply re_sub_plus_from_Forall.
    - constructor; [exact underscore_plain|constructor].
    - intros c Hc Hsp. split; [|exact Hsp].
      rewrite Forall_forall in H1. apply H1. exact Hc. }
  apply re_sub_plus_from_Forall.
  - constructor; [exact underscore_plain|constructor].
  - intros c Hc _. rewrite Forall_forall in H2. apply H2. exact Hc.
Qed.

Lemma downloader_sanitize_sanitized (x : pystr) :
  sanitized Downloader.illegal_chars 80 (Downloader.sanitize_filename x).
Proof.
  split.
  - eapply Forall_impl; [apply downloader_sanitize_plain|].
    intros c [Hc _]. exact Hc.
  - unfold Downloader.sanitize_filename.
    apply no_double_underscore_strip, no_double_underscore_slice_to.
    apply collapse_no_double.
  - unfold Downloader.sanitize_filename.
    etransitivity; [apply strip_length|].
    change 80 with (Z.to_nat 80). apply slice_to_length. lia.
  - intros c s' H. unfold Downloader.sanitize_filename in H.
    exact (strip_head _ _ _ _ H).
  - intros c H. unfold Downloader.sanitize_filename in H.
    exact (strip_last _ _ _ H).
Qed.







(** * The ledger of the sequential downloader *)

Section LedgerFacts.
Import StateFile.

Lemma mem_spec (x : pystr) (l : list pystr) : mem x l = true <-> x ∈ l.
Proof. unfold mem. apply bool_decide_eq_true. Qed.

Lemma mem_false (x : pystr) (l : list pystr) : mem x l = false <-> x ∉ l.
Proof. unfold mem. apply bool_decide_eq_false. Qed.

Lemma elem_of_append_new (x y : pystr) (l : list pystr) :
  y ∈ append_new x l <-> y = x \/ y ∈ l.
Proof.
  unfold append_new. destruct (mem x l) eqn:E.
  - apply mem_spec in E. split; [tauto|]. intros [->|H]; assumption.
  - rewrite elem_of_app, list_elem_of_singleton. tauto.
Qed.

Lemma NoDup_append_new (x : pystr) (l : list pystr) :
  NoDup l -> NoDup (append_new x l).
Proof.
  intros H. unfold append_new. destruct (mem x l) eqn:E; [exact H|].
  apply mem_false in E. apply NoDup_app. split; [exact H|]. split.
  - intros y Hy Hx. apply list_elem_of_singleton in Hx. subst y. tauto.
  - apply NoDup_singleton.
Qed.

Lemma elem_of_remove_first (x y : pystr) (l : list pystr) :
  y ∈ remove_first x l -> y ∈ l.
Proof.
  induction l as [|z l IH]; simpl; [tauto|].
  destruct (bool_decide (x = z)).
  - intros H. right. exact H.
  - rewrite !elem_of_cons. intros [H|H]; [left; exact H|right; apply IH, H].
Qed.

Lemma remove_first_other (x y : pystr) (l : list pystr) :
  y <> x -> y ∈ l -> y ∈ remove_first x l.
Proof.
  intros Hne. induction l as [|z l IH]; simpl; [tauto|].
  destruct (bool_decide (x = z)) eqn:E.
  - apply bool_decide_eq_true in E. subst z.
    rewrite elem_of_cons. intros [H|H]; [congruence|exact H].
  - rewrite !elem_of_cons. intros [H|H]; [left; exact H|right; apply IH, H].
Qed.

Lemma remove_first_gone (x : pystr) (l : list pystr) :
  NoDup l -> x ∉ remove_first x l.
Proof.
  induction 1 as [|z l Hz Hl IH]; simpl.
  - apply not_elem_of_nil.
  - destruct (bool_decide (x = z)) eqn:E.
    + apply bool_decide_eq_true in E. subst z. exact Hz.
    + apply bool_decide_eq_false in E. rewrite elem_of_cons. tauto.
Qed.

Lemma NoDup_remove_first (x : pystr) (l : list pystr) :
  NoDup l -> NoDup (remove_first x l).
Proof.
  induction 1 as [|z l Hz Hl IH]; simpl.
  - constructor.
  - destruct (bool_decide (x = z)); [exact Hl|].
    constructor; [|exact IH]. intros H. apply Hz.
    exact (elem_of_remove_first _ _ _ H).
Qed.

(** The lists and the dictionary after each method. *)

Lemma succeeded_register now d i t u :
  succeeded (Downloader.register_meeting now d i t u) = succeeded d.
Proof.
  unfold succeeded, Downloader.register_meeting.
  destruct (meetings (Downloader.state d) !! i); reflexivity.
Qed.

Lemma given_up_register now d i t u :
  given_up (Downloader.register_meeting now d i t u) = given_up d.
Proof.
  unfold given_up, Downloader.register_meeting.
  destruct (meetings (Downloader.state d) !! i); reflexivity.
Qed.

Lemma succeeded_record_attempt now d i m ok err :
  succeeded (Downloader.record_attempt now d i m ok err) = succeeded d.
Proof. reflexivity. Qed.

Lemma given_up_record_attempt now d i m ok err :
  given_up (Downloader.record_attempt now d i m ok err) = given_up d.
Proof. reflexivity. Qed.

Lemma entry_record_attempt now d i m ok err j :
  entry (Downloader.record_attempt now d i m ok err) j = entry d j.
Proof. reflexivity. Qed.

Lemma succeeded_mark_success now d i p m sz :
  succeeded (Downloader.mark_success now d i p m sz)
  = append_new i (succeeded d).
Proof.
  unfold succeeded, Downloader.mark_success.
  destruct (meetings (Downloader.state d) !! i); simpl;
    match goal with |- context [if ?c then _ else _] => destruct c end;
    reflexivity.
Qed.

Lemma given_up_mark_success now d i p m sz :
  given_up (Downloader.mark_success now d i p m sz)
  = if mem i (given_up d) then remove_first i (given_up d) else given_up d.
Proof.
  unfold given_up, Downloader.mark_success.
  destruct (meetings (Downloader.state d) !! i); simpl;
    match goal with |- context [if ?c then _ else _] => destruct c end;
    reflexivity.
Qed.

Lemma succeeded_mark_failure now d i :
  succeeded (Downloader.mark_failure now d i) = succeeded d.
Proof.
  unfold succeeded, Downloader.mark_failure.
  destruct (meetings (Downloader.state d) !! i); reflexivity.
Qed.

Lemma given_up_mark_failure now d i :
  given_up (Downloader.mark_failure now d i) = append_new i (given_up d).
Proof.
  unfold given_up, Downloader.mark_failure.
  destruct (meetings (Downloader.state d) !! i); reflexivity.
Qed.

Lemma entry_register now d i t u j :
  entry (Downloader.register_meeting now d i t u) j =
  match entry d i with
  | Some _ => entry d j
  | None =>
      if bool_decide (i = j)
      then Some {| m_id := i; m_title := t; m_url := u; m_status := Pending;
                   m_discovered_at := now; m_download_path := None;
                   m_file_size := None; m_method_used := None;
                   m_error := None |}
      else entry d j
  end.
Proof.
  unfold entry, Downloader.register_meeting.
  destruct (meetings (Downloader.state d) !! i) eqn:E; simpl; [reflexivity|].
  rewrite lookup_insert. destruct (decide (i = j)) as [->|Hne].
  - rewrite bool_decide_eq_true_2; reflexivity.
  - rewrite bool_decide_eq_false_2; [reflexivity|exact Hne].
Qed.

Lemma entry_mark_success now d i p m sz j :
  entry (Downloader.mark_success now d i p m sz) j =
  if bool_decide (i = j)
  then meeting_succeeded p sz m <$> entry d i
  else entry d j.
Proof.
  unfold entry, Downloader.mark_success.
  destruct (meetings (Downloader.state d) !! i) eqn:E; simpl;
    match goal with |- context [if mem ?a ?b then _ else _] => destruct (mem a b) end;
    simpl.
  1,2: rewrite lookup_insert; destruct (decide (i = j)) as [->|Hne];
    [rewrite bool_decide_eq_true_2; reflexivity
    |rewrite bool_decide_eq_false_2; [reflexivity|exact Hne]].
  1,2: destruct (bool_decide (i = j)) eqn:Eb; [|reflexivity];
    apply bool_decide_eq_true in Eb; subst j; rewrite E; reflexivity.
Qed.

Lemma entry_mark_failure now d i j :
  entry (Downloader.mark_failure now d i) j =
  if bool_decide (i = j)
  then meeting_failed None <$> entry d i
  else entry d j.
Proof.
  unfold entry, Downloader.mark_failure.
  destruct (meetings (Downloader.state d) !! i) eqn:E; simpl.
  - rewrite lookup_insert. destruct (decide (i = j)) as [->|Hne];
      [rewrite bool_decide_eq_true_2; reflexivity
      |rewrite bool_decide_eq_false_2; [reflexivity|exact Hne]].
  - destruct (bool_decide (i = j)) eqn:Eb; [|reflexivity].
    apply bool_decide_eq_true in Eb. subst j. rewrite E. reflexivity.
Qed.

Lemma is_downloaded_spec d i :
  Downloader.is_downloaded d i = true <-> i ∈ succeeded d.
Proof. unfold Downloader.is_downloaded, succeeded. apply mem_spec. Qed.

End LedgerFacts.

(** * The lock of [ParallelState] *)

Section LockFacts.
Import StateFile Parallel.

Lemma save_returns now (p : ParallelState) (t : list event) :
  save now {| self := set_lock false p; trace := t |}
  = Returned tt
      {| self :=
           {| state := set_last_run (Some now) (state p);
              lock_held := false;
              download_count := download_count p;
              total_to_download := total_to_download p;
              state_file := Some (set_last_run (Some now) (state p)) |};
         trace := t |}.
Proof. reflexivity. Qed.

Lemma is_downloaded_returns (i : pystr) (r : run_state) :
  lock_held (self r) = false ->
  is_downloaded i r
  = Returned (mem i (successful_downloads (state (self r))))
             {| self := set_lock false (self r); trace := trace r |}.
Proof.
  intros H. unfold is_downloaded, with_lock, mbind, M_bind, bind, acquire.
  rewrite H. reflexivity.
Qed.

Lemma held_blocks {A} (body : M A) (r : run_state) :
  lock_held (self r) = true -> with_lock body r = Blocked r.
Proof.
  intros H. unfold with_lock, mbind, M_bind, bind, acquire.
  rewrite H. reflexivity.
Qed.

(** [mark_failure] stops at the [acquire] of [save], after the two
    assignments, with the lock in its own hands. *)
Lemma mark_failure_blocks now (i err : pystr) (r : run_state) :
  lock_held (self r) = false ->
  exists r',
    mark_failure now i err r = Blocked r'
    /\ lock_held (self r') = true
    /\ state_file (self r') = state_file (self r)
    /\ trace r' = trace r
    /\ successful_downloads (state (self r'))
       = successful_downloads (state (self r))
    /\ failed_downloads (state (self r'))
       = append_new i (failed_downloads (state (self r)))
    /\ shared_entry r' i = meeting_failed (Some err) <$> shared_entry r i.
Proof.
  intros H. unfold mark_failure, save, with_lock, mbind, M_bind, bind, acquire.
  rewrite H. eexists. split; [reflexivity|]. unfold shared_entry. cbn.
  destruct (meetings (state (self r)) !! i) eqn:E;
    unfold set_meetings, set_failed_downloads, set_successful_downloads;
    cbn; rewrite ?lookup_insert_eq, ?E; repeat split; reflexivity.
Qed.

Lemma mark_success_blocks now (i path : pystr) (sz : Z) (r : run_state) :
  lock_held (self r) = false ->
  exists r',
    mark_success now i path sz r = Blocked r'
    /\ lock_held (self r') = true
    /\ state_file (self r') = state_file (self r)
    /\ trace r' = trace r
    /\ successful_downloads (state (self r'))
       = append_new i (successful_downloads (state (self r)))
    /\ failed_downloads (state (self r'))
       = failed_downloads (state (self r))
    /\ shared_entry r' i
       = meeting_succeeded path sz (py "text_extraction") <$> shared_entry r i.
Proof.
  intros H. unfold mark_success, save, with_lock, mbind, M_bind, bind, acquire.
  rewrite H. eexists. split; [reflexivity|]. unfold shared_entry. cbn.
  destruct (meetings (state (self r)) !! i) eqn:E;
    unfold set_meetings, set_failed_downloads, set_successful_downloads;
    cbn; rewrite ?lookup_insert_eq, ?E; repeat split; reflexivity.
Qed.

End LockFacts.

(** * Claims on the ledger *)

Section LedgerClaims.
Import StateFile.

Lemma lists_disjoint_spec d :
  lists_disjoint d = true <-> (forall x, x ∈ succeeded d -> x ∉ given_up d).
Proof.
  unfold lists_disjoint. rewrite forallb_forall. split.
  - intros H x Hx. apply mem_false.
    apply negb_true_iff, H, list_elem_of_In, Hx.
  - intros H x Hx. apply negb_true_iff, mem_false, H, list_elem_of_In, Hx.
Qed.

Lemma ledger_ok_spec d :
  ledger_ok d = true <->
  (forall x, x ∈ succeeded d -> x ∉ given_up d) /\ NoDup (given_up d).
Proof.
  unfold ledger_ok.
  rewrite andb_true_iff, lists_disjoint_spec, bool_decide_eq_true. tauto.
Qed.

Lemma ledger_ok_step d o :
  ledger_ok d = true -> guarded d [o] = true -> ledger_ok (apply_op d o) = true.
Proof.
  rewrite !ledger_ok_spec. intros [Hdis Hnd] Hg.
  destruct o as [now i t u|now i m ok err|now i p m sz|now i]; simpl in *.
  - rewrite succeeded_register, given_up_register. tauto.
  - rewrite succeeded_record_attempt, given_up_record_attempt. tauto.
  - rewrite succeeded_mark_success, given_up_mark_success.
    destruct (mem i (given_up d)) eqn:E.
    + split; [|apply NoDup_remove_first, Hnd].
      intros x Hx Hf. apply elem_of_append_new in Hx. destruct Hx as [->|Hx].
      * exact (remove_first_gone _ _ Hnd Hf).
      * apply (Hdis x Hx). exact (elem_of_remove_first _ _ _ Hf).
    + split; [|exact Hnd].
      intros x Hx Hf. apply elem_of_append_new in Hx. destruct Hx as [->|Hx].
      * apply mem_false in E. tauto.
      * exact (Hdis x Hx Hf).
  - rewrite succeeded_mark_failure, given_up_mark_failure.
    rewrite andb_true_r, negb_true_iff in Hg.
    assert (Hi : i ∉ succeeded d).
    { intros Hi. apply is_downloaded_spec in Hi. congruence. }
    split; [|apply NoDup_append_new, Hnd].
    intros x Hx Hf. apply elem_of_append_new in Hf. destruct Hf as [->|Hf].
    + tauto.
    + exact (Hdis x Hx Hf).
Qed.

Lemma succeeded_step d o x : x ∈ succeeded d -> x ∈ succeeded (apply_op d o).
Proof.
  destruct o as [now i t u|now i m ok err|now i p m sz|now i]; simpl.
  - rewrite succeeded_register. tauto.
  - rewrite succeeded_record_attempt. tauto.
  - rewrite succeeded_mark_success, elem_of_append_new. tauto.
  - rewrite succeeded_mark_failure. tauto.
Qed.

Lemma succeeded_run ops d x : x ∈ succeeded d -> x ∈ succeeded (run_ops ops d).
Proof.
  revert d. induction ops as [|o ops IH]; intros d H; simpl; [exact H|].
  apply IH, succeeded_step, H.
Qed.

Lemma guarded_cons d o ops :
  guarded d (o :: ops) = true <->
  guarded d [o] = true /\ guarded (apply_op d o) ops = true.
Proof. simpl. rewrite !andb_true_iff. tauto. Qed.

Lemma ledger_ok_run ops d :
  ledger_ok d = true -> guarded d ops = true -> ledger_ok (run_ops ops d) = true.
Proof.
  revert d. induction ops as [|o ops IH]; intros d Hok Hg; [exact Hok|].
  apply guarded_cons in Hg. destruct Hg as [Hg1 Hg2].
  change (run_ops (o :: ops) d) with (run_ops ops (apply_op d o)).
  apply IH; [|exact Hg2]. apply ledger_ok_step; assumption.
Qed.

(** C2, as stated, fails: after [mark_success] and [mark_failure] of
    one id the id is in both lists. *)
Lemma success_then_failure_in_both_lists :
  let d := Downloader.mark_failure (py "09:02") downloaded_once m1 in
  m1 ∈ succeeded d /\ m1 ∈ given_up d /\ lists_disjoint d = false.
Proof.
  split; [|split].
  - apply mem_spec. reflexivity.
  - apply mem_spec. reflexivity.
  - reflexivity.
Qed.

(** The second hypothesis of the amended C2 cannot be dropped:
    [list.remove] takes out the first occurrence only, so an id that
    is twice in the list of failures is still there after
    [mark_success], and is then in both lists. *)
Example duplicate_failure_survives_success :
  let d0 := run_ops [Register (py "09:00") m1 (py "Standup")
                       (py "https://otter.ai/u/m1-standup")]
                    (Downloader.new_DownloadState None) in
  let d := Downloader.with_state (set_failed_downloads [m1; m1]) d0 in
  lists_disjoint d = true
  /\ guarded d [MarkSuccess (py "09:01") m1 (py "p") (py "text_extraction") 1]
     = true
  /\ let d' := Downloader.mark_success (py "09:01") d m1 (py "p")
                 (py "text_extraction") 1 in
     m1 ∈ succeeded d' /\ m1 ∈ given_up d' /\ lists_disjoint d' = false.
Proof.
  cbv zeta. split; [reflexivity|]. split; [reflexivity|].
  split; [apply mem_spec; reflexivity|].
  split; [apply mem_spec; reflexivity|reflexivity].
Qed.

(** C2, as amended.  From a ledger in which no id is in both lists and
    no id is twice in the list of failures (the empty ledger is one),
    every sequence of [register_meeting], [record_attempt],
    [mark_success] and [mark_failure] in which [mark_failure] is called
    for an id only while [is_downloaded] is false for it, as
    [download_meeting] does, leaves the ledger in that condition.  No
    id ever leaves the list of successes, and [mark_success] takes its
    id out of the list of failures. *)
Theorem guarded_ops_keep_lists_disjoint (ops : list ledger_op)
        (d : Downloader.DownloadState) :
  lists_disjoint d = true ->
  NoDup (given_up d) ->
  guarded d ops = true ->
  lists_disjoint (run_ops ops d) = true
  /\ NoDup (given_up (run_ops ops d))
  /\ (forall x, x ∈ succeeded d -> x ∈ succeeded (run_ops ops d))
  /\ (forall now i p m sz,
        i ∈ succeeded (Downloader.mark_success now d i p m sz)
        /\ i ∉ given_up (Downloader.mark_success now d i p m sz))
  /\ lists_disjoint (Downloader.new_DownloadState None) = true
  /\ NoDup (given_up (Downloader.new_DownloadState None)).
Proof.
  intros Hdis Hnd Hg.
  assert (Hok : ledger_ok d = true).
  { apply ledger_ok_spec. split; [apply lists_disjoint_spec, Hdis|exact Hnd]. }
  pose proof (ledger_ok_run ops d Hok Hg) as Hrun.
  apply ledger_ok_spec in Hrun. destruct Hrun as [Hrun1 Hrun2].
  split; [apply lists_disjoint_spec, Hrun1|]. split; [exact Hrun2|].
  split; [intros x; apply succeeded_run|]. split; [|split].
  - intros now i p m sz.
    assert (H : ledger_ok (apply_op d (MarkSuccess now i p m sz)) = true).
    { apply ledger_ok_step; [exact Hok|reflexivity]. }
    apply ledger_ok_spec in H. destruct H as [H _]. simpl in H.
    assert (Hi : i ∈ succeeded (Downloader.mark_success now d i p m sz)).
    { rewrite succeeded_mark_success. apply elem_of_append_new. tauto. }
    split; [exact Hi|exact (H i Hi)].
  - reflexivity.
  - apply NoDup_nil_2.
Qed.

Lemma guarded_ops_keep_lists_disjoint_witness :
  lists_disjoint (run_ops retried_history (Downloader.new_DownloadState None))
  = true
  /\ NoDup (given_up (run_ops retried_history (Downloader.new_DownloadState None))).
Proof.
  destruct (guarded_ops_keep_lists_disjoint
              retried_history (Downloader.new_DownloadState None)
              eq_refl (NoDup_nil_2) eq_refl) as (H1 & H2 & _).
  split; [exact H1|exact H2].
Defined.

End LedgerClaims.

Section LedgerClaims2.
Import StateFile.

Lemma status_step d o i :
  status_of d i = Some Success -> spares i [o] = true ->
  status_of (apply_op d o) i = Some Success.
Proof.
  unfold status_of. intros Hs Hsp.
  destruct (entry d i) as [e|] eqn:He; [|discriminate].
  destruct o as [now i0 t u|now i0 m ok err|now i0 p m sz|now i0]; simpl in *.
  - rewrite entry_register. destruct (entry d i0) eqn:E0.
    + rewrite He. exact Hs.
    + destruct (bool_decide (i0 = i)) eqn:Eb.
      * apply bool_decide_eq_true in Eb. subst i0. congruence.
      * rewrite He. exact Hs.
  - rewrite entry_record_attempt, He. exact Hs.
  - rewrite entry_mark_success. destruct (bool_decide (i0 = i)) eqn:Eb.
    + apply bool_decide_eq_true in Eb. subst i0. rewrite He. reflexivity.
    + rewrite He. exact Hs.
  - rewrite entry_mark_failure.
    rewrite andb_true_r, negb_true_iff in Hsp. rewrite Hsp, He. exact Hs.
Qed.

Lemma status_run ops d i :
  status_of d i = Some Success -> spares i ops = true ->
  status_of (run_ops ops d) i = Some Success.
Proof.
  revert d. induction ops as [|o ops IH]; intros d Hs Hsp; [exact Hs|].
  simpl in Hsp. apply andb_true_iff in Hsp. destruct Hsp as [Ho Hops].
  change (run_ops (o :: ops) d) with (run_ops ops (apply_op d o)).
  apply IH; [|exact Hops]. apply status_step; [exact Hs|].
  simpl. rewrite Ho. reflexivity.
Qed.

Lemma pending_ids_spec d i :
  i ∈ pending_ids d ->
  exists e, entry d i = Some e /\ Downloader.needs_download e = true.
Proof.
  unfold pending_ids, Downloader.pending_items. intros H.
  apply list_elem_of_In, in_map_iff in H. destruct H as ([k e] & Hk & Hin).
  simpl in Hk. subst k. apply filter_In in Hin. destruct Hin as [Hin Hneed].
  apply list_elem_of_In, elem_of_map_to_list in Hin.
  exists e. split; [exact Hin|exact Hneed].
Qed.

Lemma success_not_pending d i :
  status_of d i = Some Success -> i ∉ pending_ids d.
Proof.
  unfold status_of. intros Hs Hp.
  destruct (pending_ids_spec d i Hp) as (e & He & Hneed).
  rewrite He in Hs. simpl in Hs. injection Hs as Hs.
  unfold Downloader.needs_download in Hneed. rewrite Hs in Hneed. discriminate.
Qed.

(** C4, as stated, fails: after [mark_success], one [mark_failure] of
    the same id brings the entry back into the result of
    [get_pending_meetings], while [is_downloaded] stays true. *)
Lemma downgraded_success_is_pending :
  let d := run_ops [MarkFailure (py "09:02") m1] downloaded_once in
  Downloader.is_downloaded d m1 = true
  /\ m1 ∈ pending_ids d
  /\ map m_status (Downloader.get_pending_meetings d) = [Failed].
Proof.
  split; [|split].
  - reflexivity.
  - apply mem_spec. reflexivity.
  - reflexivity.
Qed.

(** C4, as amended.  After [mark_success] of an id, [is_downloaded] is
    true for it in every later state, whatever the calls.  When the id
    was registered and no later call is a [mark_failure] of that id,
    its status stays [Success] and its entry is not in the result of
    [get_pending_meetings]. *)
Theorem success_persists now (d : Downloader.DownloadState)
        (i p m : pystr) (sz : Z) (ops : list ledger_op) :
  let d1 := Downloader.mark_success now d i p m sz in
  Downloader.is_downloaded (run_ops ops d1) i = true
  /\ (is_Some (entry d i) -> spares i ops = true ->
      status_of (run_ops ops d1) i = Some Success
      /\ i ∉ pending_ids (run_ops ops d1)).
Proof.
  intros d1. split.
  - apply is_downloaded_spec, succeeded_run. subst d1.
    rewrite succeeded_mark_success. apply elem_of_append_new. tauto.
  - intros [e He] Hsp.
    assert (Hs : status_of (run_ops ops d1) i = Some Success).
    { apply status_run; [|exact Hsp]. subst d1. unfold status_of.
      rewrite entry_mark_success, bool_decide_eq_true_2, He; reflexivity. }
    split; [exact Hs|]. apply success_not_pending, Hs.
Qed.

Lemma success_persists_witness :
  status_of
    (run_ops later_calls
       (Downloader.mark_success (py "09:01")
          (Downloader.register_meeting (py "09:00")
             (Downloader.new_DownloadState None) m1 (py "Standup") (py "u"))
          m1 (py "p") (py "text_extraction") 2048))
    m1 = Some Success.
Proof.
  refine (proj1 (proj2
    (success_persists (py "09:01")
       (Downloader.register_meeting (py "09:00")
          (Downloader.new_DownloadState None) m1 (py "Standup") (py "u"))
       m1 (py "p") (py "text_extraction") 2048 later_calls) _ eq_refl)).
  eexists. reflexivity.
Defined.

(** The items stored under a key of a dictionary. *)
Lemma filter_key_absent (i : pystr) (l : list (pystr * meeting)) :
  i ∉ l.*1 -> List.filter (fun kv => bool_decide (fst kv = i)) l = [].
Proof.
  induction l as [|[k v] l IH]; intros H; simpl; [reflexivity|].
  rewrite fmap_cons, not_elem_of_cons in H. destruct H as [Hk Hl]. simpl in Hk.
  rewrite bool_decide_eq_false_2 by congruence. apply IH, Hl.
Qed.

Lemma filter_key_once (i : pystr) (e : meeting) (l : list (pystr * meeting)) :
  NoDup (l.*1) -> (i, e) ∈ l ->
  List.filter (fun kv => bool_decide (fst kv = i)) l = [(i, e)].
Proof.
  induction l as [|[k v] l IH]; intros Hnd Hin.
  - apply elem_of_nil in Hin. destruct Hin.
  - rewrite fmap_cons in Hnd. apply NoDup_cons in Hnd. destruct Hnd as [Hk Hnd].
    simpl in Hk. apply elem_of_cons in Hin. simpl.
    destruct (decide (k = i)) as [->|Hne].
    + rewrite bool_decide_eq_true_2 by reflexivity.
      rewrite (filter_key_absent i l Hk).
      destruct Hin as [Hin|Hin]; [congruence|].
      exfalso. apply Hk. apply list_elem_of_fmap. exists (i, e). tauto.
    + rewrite bool_decide_eq_false_2 by exact Hne.
      destruct Hin as [Hin|Hin]; [congruence|]. apply IH; assumption.
Qed.

Lemma entries_for_registered d i e :
  entry d i = Some e -> entries_for i d = [(i, e)].
Proof.
  intros He. unfold entries_for. apply filter_key_once.
  - apply NoDup_fst_map_to_list.
  - apply elem_of_map_to_list. exact He.
Qed.

(** C7.  A second [register_meeting] of an id changes nothing but the
    time of the last save: the dictionary of meetings is the one the
    first call left, it holds exactly one item for the id, and an
    entry that existed before the calls, whatever its status, is still
    the same entry after them. *)
Theorem register_meeting_idempotent now1 now2 (d : Downloader.DownloadState)
        (i t1 u1 t2 u2 : pystr) :
  let d1 := Downloader.register_meeting now1 d i t1 u1 in
  let d2 := Downloader.register_meeting now2 d1 i t2 u2 in
  Downloader.state d2 = set_last_run (Some now2) (Downloader.state d1)
  /\ meetings (Downloader.state d2) = meetings (Downloader.state d1)
  /\ (exists e, entries_for i d2 = [(i, e)] /\ entries_for i d1 = [(i, e)])
  /\ (forall e, entry d i = Some e ->
        entry d1 i = Some e /\ entry d2 i = Some e
        /\ meetings (Downloader.state d1) = meetings (Downloader.state d)).
Proof.
  intros d1 d2.
  assert (H1 : is_Some (entry d1 i)).
  { subst d1. rewrite entry_register. destruct (entry d i) eqn:E.
    - eauto.
    - rewrite bool_decide_eq_true_2 by reflexivity. eauto. }
  destruct H1 as [e1 He1].
  assert (Hst : Downloader.state d2 = set_last_run (Some now2) (Downloader.state d1)).
  { subst d2. unfold Downloader.register_meeting at 1.
    unfold entry in He1. rewrite He1. reflexivity. }
  assert (Hm : meetings (Downloader.state d2) = meetings (Downloader.state d1)).
  { rewrite Hst. reflexivity. }
  split; [exact Hst|]. split; [exact Hm|]. split.
  - exists e1. split; apply entries_for_registered; [|exact He1].
    unfold entry. rewrite Hm. exact He1.
  - intros e He.
    assert (Hd1 : meetings (Downloader.state d1) = meetings (Downloader.state d)).
    { subst d1. unfold Downloader.register_meeting.
      unfold entry in He. rewrite He. reflexivity. }
    unfold entry. rewrite Hm, Hd1. auto.
Qed.

Lemma register_meeting_idempotent_witness :
  entry (Downloader.register_meeting (py "11:00")
           (Downloader.register_meeting (py "10:00") downloaded_once
              m1 (py "Standup") (py "u"))
           m1 (py "Another title") (py "u2")) m1
  = entry downloaded_once m1.
Proof.
  refine (proj1 (proj2 (proj2 (proj2 (proj2
    (register_meeting_idempotent (py "10:00") (py "11:00") downloaded_once
       m1 (py "Standup") (py "u") (py "Another title") (py "u2")))) _ eq_refl))).
Defined.

End LedgerClaims2.

(** * The lock inside [mark_success] and [mark_failure] *)

Section LockClaim.
Import StateFile Parallel.

(** C3 does not hold of the code.  Whatever the state, a call of
    [ParallelState.mark_success] or [ParallelState.mark_failure] does
    not return: the method takes [self.lock] and then calls [save],
    which waits for the same lock; the state file is left as it was. *)
Theorem parallel_marks_never_return now (i path err : pystr) (sz : Z)
        (r : run_state) :
  (exists r', mark_success now i path sz r = Blocked r'
              /\ state_file (self r') = state_file (self r))
  /\ (exists r', mark_failure now i err r = Blocked r'
                 /\ state_file (self r') = state_file (self r)).
Proof.
  destruct (lock_held (self r)) eqn:Hl.
  - split; exists r; (split; [|reflexivity]).
    + apply held_blocks, Hl.
    + apply held_blocks, Hl.
  - split.
    + destruct (mark_success_blocks now i path sz r Hl) as (r' & Hb & _ & Hf & _).
      exists r'. split; assumption.
    + destruct (mark_failure_blocks now i err r Hl) as (r' & Hb & _ & Hf & _).
      exists r'. split; assumption.
Qed.

(** The same on a fresh object, next to [save] called on its own,
    which returns and writes the file. *)
Example fresh_mark_success_blocks :
  let r0 := {| self := new_ParallelState None; trace := [] |} in
  (exists r', mark_success (py "09:00") m1 (py "p") 10 r0 = Blocked r'
              /\ state_file (self r') = None
              /\ successful_downloads (state (self r')) = [m1])
  /\ (exists r', save (py "09:00") r0 = Returned tt r'
                 /\ state_file (self r')
                    = Some (set_last_run (Some (py "09:00")) fresh)).
Proof.
  split; eexists; (split; [reflexivity|]); try split; reflexivity.
Qed.

End LockClaim.

(** * The scrolling loop *)

Section ScrollFacts.
Import Downloader.
Local Open Scope Z_scope.

Variable count_after : Z -> Z.
Variable max_scrolls : Z.










End ScrollFacts.

Section ScrollClaim.
Import Downloader.
Local Open Scope Z_scope.











(** It fails as well when the feed stands still for 15 observations
    before it settles: the stability window closes the loop at the
    16th scroll, with the count of the pause. *)
Example long_pause_returns_before_settled :
  settled stalling_feed 20 70
  /\ scroll_to_load_all stalling_feed 500 500 = Some 10.
Proof.
  split; [|vm_compute; reflexivity].
  intros j Hj. unfold stalling_feed. destruct (j <? 20) eqn:E; [lia|reflexivity].
Qed.

End ScrollClaim.

(** * Strategy [strategy_text_extraction] *)

Section CleanTextFacts.





End CleanTextFacts.

Section TextExtractionClaim.
Import Py Browser Downloader.
Local Open Scope Z_scope.








Example text_extraction_boundary :
  reports (strategy_text_extraction (py "09:00") ascii_lower disk_ok
             (single_container_page (framed 100)) some_meeting
             (new_DownloadState None)) = None
  /\ len (clean_text ascii_lower (gathered_text (single_container_page (framed 100))))
     = 100
  /\ reports (strategy_text_extraction (py "09:00") ascii_lower disk_ok
                (single_container_page (repeat_char 97%N 99)) some_meeting
                (new_DownloadState None)) = None.
Proof. split; [|split]; vm_compute; reflexivity. Qed.


End TextExtractionClaim.

(** * The worker task of the parallel program *)

Section WorkerFacts.
Import Py Browser StateFile Parallel.
Local Open Scope Z_scope.

Lemma bind_returned {A B} (c : M A) (k : A -> M B) (r r' : run_state) (a : A) :
  c r = Returned a r' -> (c ≫= k) r = k a r'.
Proof. intros H. unfold mbind, M_bind, bind. rewrite H. reflexivity. Qed.

Lemma bind_blocked {A B} (c : M A) (k : A -> M B) (r r' : run_state) :
  c r = Blocked r' -> (c ≫= k) r = Blocked r'.
Proof. intros H. unfold mbind, M_bind, bind. rewrite H. reflexivity. Qed.

Lemma emit_returns (e : event) (r : run_state) :
  emit e r = Returned tt (logged r [e]).
Proof. reflexivity. Qed.

(** A call of [mark_failure] or [mark_success] is made and does not
    return: with the lock free it stops inside, with the lock in its
    own hands; with the lock taken it waits at the door. *)
Lemma marking_failure_stops now (i err : pystr) (r : run_state) :
  exists r',
    (emit (EvMarkFailure i err);; mark_failure now i err) r = Blocked r'
    /\ trace r' = trace r ++ [EvMarkFailure i err]
    /\ state_file (self r') = state_file (self r)
    /\ lock_held (self r') = true.
Proof.
  rewrite (bind_returned _ _ _ _ _ (emit_returns _ r)).
  destruct (lock_held (self r)) eqn:Hl.
  - exists (logged r [EvMarkFailure i err]).
    split; [apply held_blocks; exact Hl|]. split; [reflexivity|].
    split; [reflexivity|exact Hl].
  - destruct (mark_failure_blocks now i err (logged r [EvMarkFailure i err]) Hl)
      as (r' & Hb & H1 & H2 & H3 & _).
    exists r'. split; [exact Hb|]. split; [exact H3|]. split; [exact H2|exact H1].
Qed.

Lemma marking_success_stops now (i path : pystr) (sz : Z) (r : run_state) :
  exists r',
    (emit (EvMarkSuccess i path sz);; mark_success now i path sz) r = Blocked r'
    /\ trace r' = trace r ++ [EvMarkSuccess i path sz]
    /\ state_file (self r') = state_file (self r)
    /\ lock_held (self r') = true.
Proof.
  rewrite (bind_returned _ _ _ _ _ (emit_returns _ r)).
  destruct (lock_held (self r)) eqn:Hl.
  - exists (logged r [EvMarkSuccess i path sz]).
    split; [apply held_blocks; exact Hl|]. split; [reflexivity|].
    split; [reflexivity|exact Hl].
  - destruct (mark_success_blocks now i path sz
                (logged r [EvMarkSuccess i path sz]) Hl)
      as (r' & Hb & H1 & H2 & H3 & _).
    exists r'. split; [exact Hb|]. split; [exact H3|]. split; [exact H2|exact H1].
Qed.

Lemma steps_under_at_lock (ps : list ParallelState) (l : list event) :
  steps_under ps AtLock l = (AtLock, l).
Proof. induction ps as [|p ps IH]; [reflexivity|exact IH]. Qed.

Lemma steps_under_finished (ps : list ParallelState) (b : bool) (l : list event) :
  steps_under ps (Finished b) l = (Finished b, l).
Proof. induction ps as [|p ps IH]; [reflexivity|exact IH]. Qed.

Lemma steps_under_emit (p : ParallelState) (ps : list ParallelState)
      (e : event) (k : thread) (l : list event) :
  steps_under (p :: ps) (Do (emit e) k) l = steps_under ps k (l ++ [e]).
Proof. reflexivity. Qed.

Lemma steps_under_mark_failure now (p : ParallelState)
      (ps : list ParallelState) (i err : pystr) (k : thread) (l : list event) :
  steps_under (p :: ps)
    (Do (emit (EvMarkFailure i err);; mark_failure now i err) k) l
  = (AtLock, l ++ [EvMarkFailure i err]).
Proof.
  cbn [steps_under step_thread].
  destruct (marking_failure_stops now i err {| self := p; trace := l |})
    as (r' & Hb & Ht & _).
  rewrite Hb, Ht. apply steps_under_at_lock.
Qed.

Lemma steps_under_mark_success now (p : ParallelState)
      (ps : list ParallelState) (i path : pystr) (sz : Z) (k : thread)
      (l : list event) :
  steps_under (p :: ps)
    (Do (emit (EvMarkSuccess i path sz);; mark_success now i path sz) k) l
  = (AtLock, l ++ [EvMarkSuccess i path sz]).
Proof.
  cbn [steps_under step_thread].
  destruct (marking_success_stops now i path sz {| self := p; trace := l |})
    as (r' & Hb & Ht & _).
  rewrite Hb, Ht. apply steps_under_at_lock.
Qed.

Lemma is_downloaded_ok (i : pystr) : call_ok (is_downloaded i).
Proof.
  intros r. destruct (lock_held (self r)) eqn:Hl.
  - unfold is_downloaded. rewrite (held_blocks _ r Hl). split; [reflexivity|exact Hl].
  - rewrite (is_downloaded_returns i r Hl). cbn.
    split; [reflexivity|]. split; reflexivity.
Qed.

Lemma emit_ok (e : event) : call_ok (emit e).
Proof. intros r. cbn. tauto. Qed.

Lemma marking_failure_ok now (i err : pystr) :
  call_ok (emit (EvMarkFailure i err);; mark_failure now i err).
Proof.
  intros r. destruct (marking_failure_stops now i err r) as (r' & Hb & _ & H1 & H2).
  rewrite Hb. split; assumption.
Qed.

Lemma marking_success_ok now (i path : pystr) (sz : Z) :
  call_ok (emit (EvMarkSuccess i path sz);; mark_success now i path sz).
Proof.
  intros r. destruct (marking_success_stops now i path sz r)
    as (r' & Hb & _ & H1 & H2).
  rewrite Hb. split; assumption.
Qed.

Lemma get_progress_ok : call_ok (get_progress;; ret tt).
Proof.
  intros r. destruct (lock_held (self r)) eqn:Hl.
  - assert (E : (get_progress;; ret tt) r = Blocked r).
    { apply bind_blocked. apply held_blocks. exact Hl. }
    rewrite E. split; [reflexivity|exact Hl].
  - unfold get_progress, with_lock, mbind, M_bind, bind, acquire.
    rewrite Hl. cbn. split; [reflexivity|]. split; reflexivity.
Qed.

Lemma marking_failure_never_returns now (i err : pystr) :
  never_returns (emit (EvMarkFailure i err);; mark_failure now i err).
Proof.
  intros r. destruct (marking_failure_stops now i err r) as (r' & Hb & _).
  exists r'. exact Hb.
Qed.

Lemma marking_success_never_returns now (i path : pystr) (sz : Z) :
  never_returns (emit (EvMarkSuccess i path sz);; mark_success now i path sz).
Proof.
  intros r. destruct (marking_success_stops now i path sz r) as (r' & Hb & _).
  exists r'. exact Hb.
Qed.

End WorkerFacts.

Section WorkerClaim.
Import Py Browser StateFile Parallel.
Local Open Scope Z_scope.

Lemma on_exception_tame now (i : pystr) (e : exn) : tame (on_exception now i e).
Proof.
  apply tame_do; [apply marking_failure_ok|apply tame_finished].
Qed.

Lemma on_exception_doomed now (i : pystr) (e : exn) :
  doomed (on_exception now i e).
Proof. apply doomed_stop, marking_failure_never_returns. Qed.

Lemma finally_raise_tame now (w : task_world) (i : pystr) (e : exn) :
  tame (finally_raise now w i e).
Proof.
  apply tame_do; [apply emit_ok|].
  destruct (close w); apply on_exception_tame.
Qed.

Lemma finally_raise_doomed now (w : task_world) (i : pystr) (e : exn) :
  doomed (finally_raise now w i e).
Proof.
  apply doomed_later. destruct (close w); apply on_exception_doomed.
Qed.

Lemma finally_return_tame now (w : task_world) (i : pystr) (b : bool) :
  tame (finally_return now w i b).
Proof.
  apply tame_do; [apply emit_ok|].
  destruct (close w); [apply tame_finished|apply on_exception_tame].
Qed.

(** Ends a case of [task_shape]: the steps of the script, one for
    each state found. *)
Ltac script_done :=
  cbn [firstn length app snd]; rewrite ?firstn_nil; reflexivity.

Ltac run_script :=
  unfold after_close;
  repeat first
    [ progress unfold on_exception, finally_raise, finally_return
    | match goal with
      | |- context [steps_under ?ps _ _] =>
          is_var ps; destruct ps as [|? ps]; [script_done|]
      end
    | rewrite steps_under_emit
    | rewrite steps_under_mark_failure
    | rewrite steps_under_mark_success
    | match goal with |- context [close ?w] => destruct (close w) end ];
  script_done.

(** The text of a task: the question, and what follows each answer. *)
Lemma task_shape now (w : task_world) (meeting : meeting) (worker_id : Z) :
  exists k,
    download_single_transcript now w meeting worker_id
    = Ask (is_downloaded (m_id meeting)) k
    /\ k true = Finished true
    /\ (forall ps,
          take (length (task_script now w meeting))
               (snd (steps_under ps (k false) []))
          = take (length ps) (task_script now w meeting))
    /\ doomed (k false)
    /\ (forall b, tame (k b)).
Proof.
  eexists. split; [reflexivity|]. cbv beta. split; [reflexivity|].
  unfold task_script, task_prelude, task_verdict, long_enough. cbv zeta.
  split; [|split].
  - intros ps.
    destruct (launch w) as [u|e]; [|run_script].
    destruct (goto w (m_url meeting)) as [doc|e]; [|run_script].
    destruct (truthy (extract_transcript_text now doc meeting)
              && (100 <? len (extract_transcript_text now doc meeting)));
      [|run_script].
    destruct (write_text (fs w) _ _) as [sz|e]; run_script.
  - apply doomed_later. destruct (launch w); [|apply on_exception_doomed].
    apply doomed_later.
    destruct (goto w (m_url meeting)); [|apply finally_raise_doomed].
    apply doomed_later.
    destruct (truthy _ && _).
    + apply doomed_later.
      destruct (write_text (fs w) _ _); [|apply finally_raise_doomed].
      apply doomed_stop, marking_success_never_returns.
    + apply doomed_stop, marking_failure_never_returns.
  - intros [|]; [apply tame_finished|].
    apply tame_do; [apply emit_ok|].
    destruct (launch w); [|apply on_exception_tame].
    apply tame_do; [apply emit_ok|].
    destruct (goto w (m_url meeting)); [|apply finally_raise_tame].
    apply tame_do; [apply emit_ok|].
    destruct (truthy _ && _).
    + apply tame_do; [apply emit_ok|].
      destruct (write_text (fs w) _ _); [|apply finally_raise_tame].
      apply tame_do; [apply marking_success_ok|].
      apply tame_do; [apply get_progress_ok|apply finally_return_tame].
    + apply tame_do; [apply marking_failure_ok|apply finally_return_tame].
Qed.

Lemma task_first_step (meeting : meeting) (k : bool -> thread)
      (p : ParallelState) (l : list event) :
  step_thread p (Ask (is_downloaded (m_id meeting)) k) l
  = if lock_held p then (p, AtLock, l)
    else (set_lock false p,
          k (mem (m_id meeting) (successful_downloads (state p))), l).
Proof.
  cbn [step_thread]. destruct (lock_held p) eqn:Hl.
  - unfold is_downloaded.
    rewrite (held_blocks _ {| self := p; trace := l |} Hl). reflexivity.
  - rewrite (is_downloaded_returns _ {| self := p; trace := l |} Hl). reflexivity.
Qed.

End WorkerClaim.

Section WorkerClaim2.
Import Py Browser StateFile Parallel.
Local Open Scope Z_scope.



Lemma header_not_empty now (meeting : meeting) (method : string) (rest : pystr) :
  header now meeting method ++ rest <> [].
Proof. unfold header. intros H. discriminate H. Qed.

Lemma extract_transcript_text_found now (doc : document) (meeting : meeting) :
  extract_transcript_text now doc meeting <> [] <->
  content_parts doc <> []
  \/ exists body, evaluate doc body_script = Ok (Some body) /\ 200 < len body.
Proof.
  unfold extract_transcript_text.
  destruct (content_parts doc) as [|p ps] eqn:E.
  - destruct (evaluate doc body_script) as [[body|]|e].
    + destruct (truthy body && (200 <? len body)) eqn:Eb.
      * split; [|intros _; apply header_not_empty].
        intros _. right. exists body. split; [reflexivity|].
        apply andb_true_iff in Eb. destruct Eb as [_ Eb].
        apply Z.ltb_lt. exact Eb.
      * split; [congruence|]. intros [H|(b & Hb & Hlen)]; [congruence|].
        injection Hb as <-. apply andb_false_iff in Eb. destruct Eb as [Eb|Eb].
        -- destruct body; [unfold len in Hlen; simpl in Hlen; lia|discriminate Eb].
        -- apply Z.ltb_ge in Eb. lia.
    + split; [congruence|]. intros [H|(b & Hb & _)]; congruence.
    + split; [congruence|]. intros [H|(b & Hb & _)]; congruence.
  - split; [intros _; left; discriminate|].
    intros _. apply header_not_empty.
Qed.



End WorkerClaim2.

Section WorkerExamples.
Import Py Browser StateFile Parallel.
Local Open Scope Z_scope.


Example worker_task_on_body_text :
  snd (steps_under (replicate 6 pool_memory)
         (download_single_transcript clock (world_of body_only_page)
            pending_entry 0) [])
  = task_script clock (world_of body_only_page) pending_entry
  /\ map is_mark (task_script clock (world_of body_only_page) pending_entry)
     = [false; false; false; false; true]
  /\ fst (steps_under (replicate 6 pool_memory)
            (download_single_transcript clock (world_of body_only_page)
               pending_entry 0) [])
     = AtLock.
Proof.
  split; [vm_compute; reflexivity|]. split; vm_compute; reflexivity.
Qed.


End WorkerExamples.

(** * The status [failed] and the meetings already downloaded *)

Section FailureClaim.
Import StateFile.
Local Open Scope Z_scope.

(** C1, as stated, fails: [mark_failure] on the downloaded meeting
    turns its status from [Success] into [Failed]. *)
Lemma mark_failure_downgrades_success :
  status_of downloaded_once m1 = Some Success
  /\ status_of (Downloader.mark_failure (py "09:02") downloaded_once m1) m1
     = Some Failed
  /\ status_of (Downloader.mark_failure (py "09:02") downloaded_once m1) m1
     <> Some Success.
Proof. split; [|split]; [reflexivity|reflexivity|discriminate]. Qed.

(** The callers test the list of successes, not the status: an entry
    with status [Success] whose id is not in the list (a file edited
    by hand) is tried again, and a navigation that fails turns its
    status into [Failed]. *)
Example unlisted_success_is_downgraded :
  let d := Downloader.with_state (set_successful_downloads []) downloaded_once in
  let r := Downloader.download_meeting clock ascii_lower disk_ok loads_state
             unreachable listed_item d 3 in
  status_of d m1 = Some Success
  /\ Downloader.is_downloaded d m1 = false
  /\ fst r = false
  /\ status_of (snd r) m1 = Some Failed.
Proof.
  cbv zeta. split; [reflexivity|]. split; [reflexivity|].
  split; vm_compute; reflexivity.
Qed.

(** C1, as amended.  [mark_failure] sets the status of a registered
    meeting to [Failed] whatever it was, [Success] included, and leaves
    the other entries and the list of successful ids as they are: after
    [mark_success] and [mark_failure] of one id the status is [Failed]
    while [is_downloaded] is still true.  The method of the parallel
    program makes the same assignments before it stops at the lock.
    What keeps a downloaded meeting from that call is the test of the
    callers, which is on the list of successes and not on the status:
    when the id is in the list, [download_meeting] returns [True] with
    the ledger as it is, and the task of the parallel program, the
    lock free, returns [True] without any other step; so does
    [download_meeting] for an entry with status [Success] of a ledger
    in which every such entry is in the list. *)
Theorem mark_failure_sets_failed now (d : Downloader.DownloadState)
        (i : pystr) (e : meeting) :
  entry d i = Some e ->
  status_of (Downloader.mark_failure now d i) i = Some Failed
  /\ succeeded (Downloader.mark_failure now d i) = succeeded d
  /\ (forall j, j <> i -> entry (Downloader.mark_failure now d i) j = entry d j)
  /\ (forall now' p m sz,
        let d' := Downloader.mark_failure now
                    (Downloader.mark_success now' d i p m sz) i in
        status_of d' i = Some Failed /\ Downloader.is_downloaded d' i = true)
  /\ (forall err (r : Parallel.run_state),
        Parallel.lock_held (Parallel.self r) = false ->
        shared_entry r i = Some e ->
        exists r',
          Parallel.mark_failure now i err r = Parallel.Blocked r'
          /\ shared_status r' i = Some Failed
          /\ successful_downloads (Parallel.state (Parallel.self r'))
             = successful_downloads (Parallel.state (Parallel.self r)))
  /\ (forall lower fs json_loads pg meeting max_retries,
        Downloader.id meeting = i ->
        (Downloader.is_downloaded d i = true ->
         Downloader.download_meeting now lower fs json_loads pg meeting d
           max_retries = (true, d))
        /\ (coherent d -> status_of d i = Some Success ->
            Downloader.download_meeting now lower fs json_loads pg meeting d
              max_retries = (true, d)))
  /\ (forall w m worker_id p ps,
        m_id m = i ->
        Parallel.lock_held p = false ->
        mem i (successful_downloads (Parallel.state p)) = true ->
        steps_under (p :: ps)
          (Parallel.download_single_transcript now w m worker_id) []
        = (Parallel.Finished true, [])).
Proof.
  intros He.
  assert (Hskip : forall lower fs json_loads pg meeting max_retries,
            Downloader.id meeting = i ->
            Downloader.is_downloaded d i = true ->
            Downloader.download_meeting now lower fs json_loads pg meeting d
              max_retries = (true, d)).
  { intros lower fs json_loads pg meeting max_retries Hid Hd.
    unfold Downloader.download_meeting. rewrite Hid, Hd. reflexivity. }
  split; [|split; [|split; [|split; [|split; [|split]]]]].
  - unfold status_of. rewrite entry_mark_failure, bool_decide_eq_true_2, He;
      reflexivity.
  - apply succeeded_mark_failure.
  - intros j Hj. rewrite entry_mark_failure, bool_decide_eq_false_2; congruence.
  - intros now' p m sz d'. subst d'. split.
    + unfold status_of.
      rewrite entry_mark_failure, bool_decide_eq_true_2 by reflexivity.
      rewrite entry_mark_success, bool_decide_eq_true_2, He; reflexivity.
    + apply is_downloaded_spec.
      rewrite succeeded_mark_failure, succeeded_mark_success.
      apply elem_of_append_new. left. reflexivity.
  - intros err r Hl Hr.
    destruct (mark_failure_blocks now i err r Hl)
      as (r' & Hb & _ & _ & _ & Hs & _ & Hentry).
    exists r'. split; [exact Hb|]. split; [|exact Hs].
    unfold shared_status. rewrite Hentry, Hr. reflexivity.
  - intros lower fs json_loads pg meeting max_retries Hid. split.
    + apply Hskip. exact Hid.
    + intros Hc Hs. apply Hskip; [exact Hid|].
      apply is_downloaded_spec. exact (proj1 (Hc i) Hs).
  - intros w m worker_id p ps Hid Hl Hm.
    destruct (task_shape now w m worker_id) as (k & Hk & Ht & _).
    cbn [steps_under]. rewrite Hk, task_first_step, Hl, Hid, Hm, Ht.
    apply steps_under_finished.
Qed.

Lemma mark_failure_sets_failed_witness :
  status_of (Downloader.mark_failure (py "09:02") downloaded_once m1) m1
  = Some Failed.
Proof.
  exact (proj1 (mark_failure_sets_failed (py "09:02") downloaded_once m1 _ eq_refl)).
Defined.

End FailureClaim.

(** * The parallel run *)

Section PoolFacts.
Import Py Browser StateFile Parallel.
Local Open Scope Z_scope.

Variable now : pystr.

Lemma get_pending_meetings_returns (r : run_state) :
  lock_held (self r) = false ->
  get_pending_meetings r
  = Returned (map snd (pending_items (state (self r))))
             {| self := set_lock false (self r); trace := trace r |}.
Proof.
  intros H. unfold get_pending_meetings, with_lock, mbind, M_bind, bind, acquire.
  rewrite H. reflexivity.
Qed.

Lemma get_progress_returns (r : run_state) :
  lock_held (self r) = false ->
  get_progress r
  = Returned (length (successful_downloads (state (self r))),
              size (meetings (state (self r))))
             {| self := set_lock false (self r); trace := trace r |}.
Proof.
  intros H. unfold get_progress, with_lock, mbind, M_bind, bind, acquire.
  rewrite H. reflexivity.
Qed.

Lemma get_pending_meetings_ok : call_ok get_pending_meetings.
Proof.
  intros r. destruct (lock_held (self r)) eqn:Hl.
  - unfold get_pending_meetings. rewrite (held_blocks _ r Hl).
    split; [reflexivity|exact Hl].
  - rewrite (get_pending_meetings_returns r Hl). cbn.
    split; [reflexivity|]. split; reflexivity.
Qed.

Lemma get_progress_alone_ok : call_ok get_progress.
Proof.
  intros r. destruct (lock_held (self r)) eqn:Hl.
  - unfold get_progress. rewrite (held_blocks _ r Hl).
    split; [reflexivity|exact Hl].
  - rewrite (get_progress_returns r Hl). cbn.
    split; [reflexivity|]. split; reflexivity.
Qed.

Lemma set_lock_free (p : ParallelState) :
  lock_held p = false -> set_lock false p = p.
Proof. destruct p. simpl. intros ->. reflexivity. Qed.

(** ** One step of a thread *)

Lemma step_thread_tame (p : ParallelState) (t : thread) (l : list event) :
  tame t ->
  tame (snd (fst (step_thread p t l)))
  /\ state_file (fst (fst (step_thread p t l))) = state_file p
  /\ (lock_held (fst (fst (step_thread p t l))) = true
      \/ (state (fst (fst (step_thread p t l))) = state p
          /\ lock_held (fst (fst (step_thread p t l))) = lock_held p)).
Proof.
  intros Ht. destruct Ht as [b| |c k Hc Hk|c k Hc Hk]; cbn [step_thread].
  - cbn [fst snd]. split; [constructor|]. split; [reflexivity|]. right. tauto.
  - cbn [fst snd]. split; [constructor|]. split; [reflexivity|]. right. tauto.
  - specialize (Hc {| self := p; trace := l |}).
    destruct (c {| self := p; trace := l |}) as [b r|r]; cbn [fst snd self] in *.
    + destruct Hc as (A & B & C). split; [apply Hk|]. split; [exact B|].
      right. split; assumption.
    + destruct Hc as (B & C). split; [constructor|]. split; [exact B|].
      left. exact C.
  - specialize (Hc {| self := p; trace := l |}).
    destruct (c {| self := p; trace := l |}) as [b r|r]; cbn [fst snd self] in *.
    + destruct Hc as (A & B & C). split; [exact Hk|]. split; [exact B|].
      right. split; assumption.
    + destruct Hc as (B & C). split; [constructor|]. split; [exact B|].
      left. exact C.
Qed.

Lemma step_thread_doomed (p : ParallelState) (t : thread) (l : list event) :
  doomed t -> doomed (snd (fst (step_thread p t l))).
Proof.
  intros Hd. destruct Hd as [|c k Hn|c k Hk]; cbn [step_thread].
  - constructor.
  - destruct (Hn {| self := p; trace := l |}) as [r' E]. rewrite E. constructor.
  - destruct (c {| self := p; trace := l |}); [exact Hk|constructor].
Qed.

Lemma doomed_not_finished (t : thread) :
  doomed t -> forall b, t <> Finished b.
Proof. intros Hd b E. rewrite E in Hd. inversion Hd. Qed.

Lemma queued_not_finished (worlds : pystr -> task_world) (m : meeting)
      (t : task) :
  queued now worlds m t -> forall b, code t <> Finished b.
Proof.
  intros ((wid & E) & _) b. rewrite E.
  destruct (task_shape now (worlds (m_id m)) m wid) as (k & Hk & _).
  rewrite Hk. discriminate.
Qed.

Lemma queued_tame (worlds : pystr -> task_world) (m : meeting) (t : task) :
  queued now worlds m t -> tame (code t).
Proof.
  intros ((wid & E) & _). rewrite E.
  destruct (task_shape now (worlds (m_id m)) m wid) as (k & Hk & _ & _ & _ & Ht).
  rewrite Hk. apply tame_ask; [apply is_downloaded_ok|exact Ht].
Qed.

(** The first step of a task: with the lock free and the id listed it
    skips its meeting; in every other case it is on a way that does not
    end. *)
Lemma queued_step (worlds : pystr -> task_world) (p0 : ParallelState)
      (m : meeting) (t : task) (p p' : ParallelState) (c' : thread)
      (l' : list event) :
  queued now worlds m t -> shared_inv p0 p ->
  step_thread p (code t) (log t) = (p', c', l') ->
  (lock_held p = false /\ listed_as_done (state p0) m = true
   /\ p' = p /\ c' = Finished true /\ l' = [])
  \/ doomed c'.
Proof.
  intros ((wid & E) & Hlog & _) (_ & Hs) Hstep. rewrite E, Hlog in Hstep.
  destruct (task_shape now (worlds (m_id m)) m wid) as (k & Hk & Ht & _ & Hd & _).
  rewrite Hk, task_first_step in Hstep.
  destruct (lock_held p) eqn:Hl.
  - injection Hstep as <- <- <-. right. constructor.
  - rewrite (Hs eq_refl) in Hstep.
    destruct (mem (m_id m) (successful_downloads (state p0))) eqn:Hm.
    + rewrite Ht in Hstep. injection Hstep as <- <- <-. left.
      split; [reflexivity|]. split; [exact Hm|].
      split; [apply set_lock_free; exact Hl|]. split; reflexivity.
    + injection Hstep as <- <- <-. right. exact Hd.
Qed.

(** ** The pool under a schedule *)

Lemma pool_step_inv (worlds : pystr -> task_world) (p0 : ParallelState)
      (todo : list meeting) (num_workers : Z) (pl : pool) (i : nat) :
  pool_inv now worlds p0 todo pl ->
  pool_inv now worlds p0 todo (pool_step num_workers pl i).
Proof.
  intros Hinv. pose proof Hinv as (Hsh & Htame & Hlen & Htasks).
  unfold pool_step.
  destruct (tasks pl !! i) as [t|] eqn:Hi; [|exact Hinv].
  destruct (may_run num_workers (tasks pl) i); [|exact Hinv].
  destruct (step_thread (shared pl) (code t) (log t)) as [[p' c'] l'] eqn:Hstep.
  assert (Ht : tame (code t)) by exact (Forall_lookup_1 _ _ _ _ Htame Hi).
  pose proof (step_thread_tame (shared pl) (code t) (log t) Ht) as (T1 & T2 & T3).
  rewrite Hstep in T1, T2, T3. cbn [fst snd] in T1, T2, T3.
  split; [|split; [|split]]; cbn [shared tasks].
  - destruct Hsh as [F S]. split; [congruence|]. intros Hl'.
    destruct T3 as [T3|[T3 T4]]; [congruence|]. rewrite T3. apply S. congruence.
  - apply Forall_insert; [exact Htame|exact T1].
  - rewrite length_insert. exact Hlen.
  - intros j m tj Hm Hj. destruct (decide (i = j)) as [<-|Hne].
    + rewrite list_lookup_insert_eq in Hj by (eapply lookup_lt_Some; exact Hi).
      injection Hj as <-.
      destruct (Htasks i m t Hm Hi) as [Hq|[[Hlisted Hsk]|Hd]].
      * destruct (queued_step worlds p0 m t (shared pl) p' c' l' Hq Hsh Hstep)
          as [(_ & B & _ & D & E)|Hd'].
        -- right. left. split; [exact B|]. subst c' l'.
           split; [reflexivity|]. split; reflexivity.
        -- right. right. exact Hd'.
      * destruct Hsk as (Hc & Hg & _). rewrite Hc in Hstep.
        cbn [step_thread] in Hstep. injection Hstep as <- <- <-.
        right. left. split; [exact Hlisted|].
        split; [reflexivity|]. split; [exact Hg|reflexivity].
      * right. right.
        pose proof (step_thread_doomed (shared pl) (code t) (log t) Hd) as H.
        rewrite Hstep in H. exact H.
    + rewrite list_lookup_insert_ne in Hj by exact Hne.
      exact (Htasks j m tj Hm Hj).
Qed.

Lemma run_pool_inv (worlds : pystr -> task_world) (p0 : ParallelState)
      (todo : list meeting) (num_workers : Z) (schedule : list nat) (pl : pool) :
  pool_inv now worlds p0 todo pl ->
  pool_inv now worlds p0 todo (run_pool num_workers schedule pl).
Proof.
  revert pl. induction schedule as [|i schedule IH]; intros pl H; [exact H|].
  exact (IH _ (pool_step_inv worlds p0 todo num_workers pl i H)).
Qed.

Lemma submit_length (worlds : pystr -> task_world) (num_workers : Z)
      (todo : list meeting) (i0 : Z) :
  length (submit now worlds num_workers i0 todo) = length todo.
Proof.
  revert i0. induction todo as [|m todo IH]; intros i0; [reflexivity|].
  cbn [submit length]. rewrite IH. reflexivity.
Qed.

Lemma submit_queued (worlds : pystr -> task_world) (num_workers : Z)
      (todo : list meeting) (i0 : Z) (i : nat) (m : meeting) (t : task) :
  todo !! i = Some m ->
  submit now worlds num_workers i0 todo !! i = Some t ->
  queued now worlds m t.
Proof.
  revert i0 i. induction todo as [|m0 todo IH]; intros i0 i Hm Ht;
    [discriminate Hm|].
  destruct i as [|i].
  - cbn in Hm, Ht. injection Hm as ->. injection Ht as <-.
    split; [exists (i0 mod num_workers); reflexivity|]. split; reflexivity.
  - cbn in Hm. cbn [submit] in Ht. cbn in Ht. exact (IH (i0 + 1) i Hm Ht).
Qed.

Lemma pool_inv_start (worlds : pystr -> task_world) (num_workers : Z)
      (p0 q : ParallelState) (todo : list meeting) :
  shared_inv p0 q ->
  pool_inv now worlds p0 todo
    {| shared := q; tasks := submit now worlds num_workers 0 todo |}.
Proof.
  intros Hq. split; [exact Hq|]. cbn [tasks].
  assert (Hall : forall i m t, todo !! i = Some m ->
                   submit now worlds num_workers 0 todo !! i = Some t ->
                   queued now worlds m t)
    by (intros i m t; apply submit_queued).
  split; [|split].
  - apply Forall_lookup_2. intros i t Hi.
    assert (Hlt : (i < length todo)%nat).
    { rewrite <- (submit_length worlds num_workers todo 0).
      eapply lookup_lt_Some. exact Hi. }
    destruct (lookup_lt_is_Some_2 todo i Hlt) as [m Hm].
    exact (queued_tame worlds m t (Hall i m t Hm Hi)).
  - apply submit_length.
  - intros i m t Hm Hi. left. exact (Hall i m t Hm Hi).
Qed.

(** ** The results of the futures *)

Lemma results_none (ts : list task) (i : nat) (t : task) :
  ts !! i = Some t -> (forall b, code t <> Finished b) -> results ts = None.
Proof.
  revert i. induction ts as [|t0 ts IH]; intros i Hi Hn; [discriminate Hi|].
  destruct i as [|i]; cbn [results].
  - cbn in Hi. injection Hi as ->.
    destruct (code t) as [b| | |] eqn:E; try reflexivity.
    contradiction (Hn b). reflexivity.
  - cbn in Hi. rewrite (IH i Hi Hn). destruct (code t0); reflexivity.
Qed.

Lemma results_all_true (ts : list task) (bs : list bool) :
  Forall (fun t => forall b, code t = Finished b -> b = true) ts ->
  results ts = Some bs -> bs = replicate (length ts) true.
Proof.
  revert bs. induction ts as [|t ts IH]; intros bs Hall Hr.
  - cbn in Hr. injection Hr as <-. reflexivity.
  - cbn [results] in Hr. inversion Hall as [|? ? Ht Hts]; subst.
    destruct (code t) as [b| | |] eqn:E; try discriminate Hr.
    destruct (results ts) as [bs'|]; [|discriminate Hr].
    injection Hr as <-. rewrite (Ht b eq_refl), (IH bs' Hts eq_refl).
    reflexivity.
Qed.

Lemma results_skipped (ts : list task) :
  Forall (fun t => code t = Finished true) ts ->
  results ts = Some (replicate (length ts) true).
Proof.
  induction 1 as [|t ts Ht Hts IH]; [reflexivity|].
  cbn [results]. rewrite Ht, IH. reflexivity.
Qed.

Lemma count_of_replicate (n : nat) :
  count_of true (replicate n true) = Z.of_nat n
  /\ count_of false (replicate n true) = 0.
Proof.
  unfold count_of. induction n as [|n [IH1 IH2]]; [split; reflexivity|].
  cbn [replicate List.filter Bool.eqb length]. split.
  - apply Nat2Z.inj in IH1. rewrite IH1. reflexivity.
  - exact IH2.
Qed.

(** The futures of a pool that keeps its invariant, once they are all
    there, are all [True]. *)
Lemma pool_inv_results (worlds : pystr -> task_world) (p0 : ParallelState)
      (todo : list meeting) (pl : pool) (bs : list bool) :
  pool_inv now worlds p0 todo pl ->
  results (tasks pl) = Some bs ->
  bs = replicate (length todo) true
  /\ Forall (listed_as_done (state p0)) todo.
Proof.
  intros (_ & _ & Hlen & Htasks) Hr. split.
  - rewrite <- Hlen. apply results_all_true; [|exact Hr].
    apply Forall_lookup_2. intros i t Hi b Hb.
    assert (Hlt : (i < length todo)%nat)
      by (rewrite <- Hlen; eapply lookup_lt_Some; exact Hi).
    destruct (lookup_lt_is_Some_2 todo i Hlt) as [m Hm].
    destruct (Htasks i m t Hm Hi) as [Hq|[[_ (Hc & _)]|Hd]].
    + contradiction (queued_not_finished worlds m t Hq b).
    + congruence.
    + contradiction (doomed_not_finished _ Hd b).
  - apply Forall_lookup_2. intros i m Hm.
    assert (Hlt : (i < length (tasks pl))%nat)
      by (rewrite Hlen; eapply lookup_lt_Some; exact Hm).
    destruct (lookup_lt_is_Some_2 (tasks pl) i Hlt) as [t Hi].
    destruct (Htasks i m t Hm Hi) as [Hq|[[Hl _]|Hd]].
    + exfalso. destruct (code t) as [b| | |] eqn:E.
      * contradiction (queued_not_finished worlds m t Hq b).
      * rewrite (results_none (tasks pl) i t Hi) in Hr; [discriminate Hr|].
        intros b. rewrite E. discriminate.
      * rewrite (results_none (tasks pl) i t Hi) in Hr; [discriminate Hr|].
        intros b. rewrite E. discriminate.
      * rewrite (results_none (tasks pl) i t Hi) in Hr; [discriminate Hr|].
        intros b. rewrite E. discriminate.
    + unfold Is_true. rewrite Hl. exact I.
    + exfalso.
      rewrite (results_none (tasks pl) i t Hi (doomed_not_finished _ Hd)) in Hr.
      discriminate Hr.
Qed.

End PoolFacts.

Section PoolFacts2.
Import Py Browser StateFile Parallel.
Local Open Scope Z_scope.

Variable now : pystr.

Lemma skipped_step (p : ParallelState) (t : task) :
  skipped t -> step_thread p (code t) (log t) = (p, Finished true, []).
Proof. intros (Hc & Hl & _). rewrite Hc, Hl. reflexivity. Qed.

Lemma queued_skips (worlds : pystr -> task_world) (m : meeting) (t : task)
      (p : ParallelState) :
  queued now worlds m t -> lock_held p = false ->
  listed_as_done (state p) m = true ->
  step_thread p (code t) (log t) = (p, Finished true, []).
Proof.
  intros ((wid & E) & Hlog & _) Hl Hm. rewrite E, Hlog.
  destruct (task_shape now (worlds (m_id m)) m wid) as (k & Hk & Ht & _).
  rewrite Hk, task_first_step, Hl. unfold listed_as_done in Hm.
  rewrite Hm, Ht, (set_lock_free p Hl). reflexivity.
Qed.

(** When every meeting is listed, a step of the pool leaves the shared
    object as it is, under every schedule. *)
Lemma pool_step_skipping (worlds : pystr -> task_world) (todo : list meeting)
      (num_workers : Z) (q : ParallelState) (pl : pool) (i : nat) :
  lock_held q = false ->
  (forall m, m ∈ todo -> listed_as_done (state q) m = true) ->
  shared pl = q -> skipping_inv now worlds todo (tasks pl) ->
  shared (pool_step num_workers pl i) = q
  /\ skipping_inv now worlds todo (tasks (pool_step num_workers pl i)).
Proof.
  intros Hl Hall Hq Hinv. pose proof Hinv as (Hlen & Hts). unfold pool_step.
  destruct (tasks pl !! i) as [t|] eqn:Hi; [|split; assumption].
  destruct (may_run num_workers (tasks pl) i); [|split; assumption].
  assert (Hlt : (i < length todo)%nat)
    by (rewrite <- Hlen; eapply lookup_lt_Some; exact Hi).
  destruct (lookup_lt_is_Some_2 todo i Hlt) as [m Hm].
  assert (Hstep : step_thread (shared pl) (code t) (log t)
                  = (q, Finished true, [])).
  { rewrite Hq. destruct (Hts i m t Hm Hi) as [Hqd|Hsk].
    - apply (queued_skips worlds m); [exact Hqd|exact Hl|].
      apply Hall. eapply list_elem_of_lookup_2; exact Hm.
    - apply skipped_step. exact Hsk. }
  rewrite Hstep. cbn [shared tasks]. split; [reflexivity|].
  split; [rewrite length_insert; exact Hlen|].
  intros j m' tj Hm' Hj. destruct (decide (i = j)) as [<-|Hne].
  - rewrite list_lookup_insert_eq in Hj by (eapply lookup_lt_Some; exact Hi).
    injection Hj as <-. right. split; [reflexivity|]. split; reflexivity.
  - rewrite list_lookup_insert_ne in Hj by exact Hne.
    exact (Hts j m' tj Hm' Hj).
Qed.

Lemma run_pool_skipping (worlds : pystr -> task_world) (todo : list meeting)
      (num_workers : Z) (q : ParallelState) (schedule : list nat) (pl : pool) :
  lock_held q = false ->
  (forall m, m ∈ todo -> listed_as_done (state q) m = true) ->
  shared pl = q -> skipping_inv now worlds todo (tasks pl) ->
  shared (run_pool num_workers schedule pl) = q
  /\ skipping_inv now worlds todo (tasks (run_pool num_workers schedule pl)).
Proof.
  intros Hl Hall. revert pl.
  induction schedule as [|i schedule IH]; intros pl Hq Hinv; [split; assumption|].
  destruct (pool_step_skipping worlds todo num_workers q pl i Hl Hall Hq Hinv)
    as [A B].
  exact (IH _ A B).
Qed.

Lemma skipping_logs (worlds : pystr -> task_world) (todo : list meeting)
      (ts : list task) :
  skipping_inv now worlds todo ts -> Forall (fun t => log t = []) ts.
Proof.
  intros (Hlen & Hts). apply Forall_lookup_2. intros i t Hi.
  assert (Hlt : (i < length todo)%nat)
    by (rewrite <- Hlen; eapply lookup_lt_Some; exact Hi).
  destruct (lookup_lt_is_Some_2 todo i Hlt) as [m Hm].
  destruct (Hts i m t Hm Hi) as [(_ & H & _)|(_ & H & _)]; exact H.
Qed.

Lemma skipping_results (worlds : pystr -> task_world) (todo : list meeting)
      (ts : list task) (bs : list bool) :
  skipping_inv now worlds todo ts -> results ts = Some bs ->
  bs = replicate (length todo) true.
Proof.
  intros (Hlen & Hts) Hr. rewrite <- Hlen. apply results_all_true; [|exact Hr].
  apply Forall_lookup_2. intros i t Hi b Hb.
  assert (Hlt : (i < length todo)%nat)
    by (rewrite <- Hlen; eapply lookup_lt_Some; exact Hi).
  destruct (lookup_lt_is_Some_2 todo i Hlt) as [m Hm].
  destruct (Hts i m t Hm Hi) as [Hq|(Hc & _)].
  - contradiction (queued_not_finished now worlds m t Hq b).
  - congruence.
Qed.

Lemma submit_skipping (worlds : pystr -> task_world) (num_workers : Z)
      (todo : list meeting) :
  skipping_inv now worlds todo (submit now worlds num_workers 0 todo).
Proof.
  split; [apply submit_length|]. intros i m t Hm Hi. left.
  exact (submit_queued now worlds num_workers todo 0 i m t Hm Hi).
Qed.

(** ** The tasks taken in the order of submission *)

Lemma busy_zero (ts : list task) :
  Forall (fun t => started t && negb (done t) = false) ts -> busy ts = 0%nat.
Proof.
  unfold busy. induction 1 as [|t ts Ht Hts IH]; [reflexivity|].
  cbn [List.filter]. rewrite Ht. exact IH.
Qed.

Lemma in_order_step (worlds : pystr -> task_world) (todo : list meeting)
      (num_workers : Z) (q : ParallelState) (pl : pool) (k : nat) :
  0 < num_workers -> lock_held q = false ->
  (forall m, m ∈ todo -> listed_as_done (state q) m = true) ->
  shared pl = q -> in_order_inv now worlds todo k (tasks pl) ->
  (k < length todo)%nat ->
  shared (pool_step num_workers pl k) = q
  /\ in_order_inv now worlds todo (S k) (tasks (pool_step num_workers pl k)).
Proof.
  intros Hnw Hl Hall Hq (Hlen & Hts) Hk. unfold pool_step.
  assert (Hk' : (k < length (tasks pl))%nat) by (rewrite Hlen; exact Hk).
  destruct (lookup_lt_is_Some_2 (tasks pl) k Hk') as [t Hi].
  destruct (lookup_lt_is_Some_2 todo k Hk) as [m Hm].
  rewrite Hi.
  pose proof (Hts k m t Hm Hi) as Hqd. rewrite Nat.ltb_irrefl in Hqd.
  assert (Hrun : may_run num_workers (tasks pl) k = true).
  { unfold may_run. rewrite Hi. destruct Hqd as (_ & _ & Hst). rewrite Hst.
    apply andb_true_iff. split.
    - apply forallb_forall. intros x Hx. apply list_elem_of_In in Hx.
      apply list_elem_of_lookup in Hx. destruct Hx as [j Hj].
      assert (Hjk : (j < k)%nat).
      { pose proof (lookup_lt_Some _ _ _ Hj) as H.
        rewrite length_take in H. lia. }
      rewrite lookup_take_lt in Hj by exact Hjk.
      assert (Hjt : (j < length todo)%nat) by lia.
      destruct (lookup_lt_is_Some_2 todo j Hjt) as [mj Hmj].
      pose proof (Hts j mj x Hmj Hj) as H. apply Nat.ltb_lt in Hjk.
      rewrite Hjk in H. destruct H as (_ & _ & H). exact H.
    - rewrite busy_zero; [apply Z.ltb_lt; lia|].
      apply Forall_lookup_2. intros j x Hj.
      assert (Hjt : (j < length todo)%nat)
        by (rewrite <- Hlen; eapply lookup_lt_Some; exact Hj).
      destruct (lookup_lt_is_Some_2 todo j Hjt) as [mj Hmj].
      pose proof (Hts j mj x Hmj Hj) as H. destruct (j <? k)%nat.
      + destruct H as (Hc & _ & Hs). unfold done. rewrite Hc, Hs. reflexivity.
      + destruct H as (_ & _ & Hs). rewrite Hs. reflexivity. }
  assert (Hlisted : listed_as_done (state q) m = true)
    by (apply Hall; eapply list_elem_of_lookup_2; exact Hm).
  rewrite Hrun, Hq, (queued_skips worlds m t q Hqd Hl Hlisted).
  cbn [shared tasks]. split; [reflexivity|].
  split; [rewrite length_insert; exact Hlen|].
  intros j mj tj Hmj Hj. destruct (decide (k = j)) as [<-|Hne].
  - rewrite list_lookup_insert_eq in Hj by exact Hk'. injection Hj as <-.
    rewrite (proj2 (Nat.ltb_lt k (S k))) by lia.
    split; [reflexivity|]. split; reflexivity.
  - rewrite list_lookup_insert_ne in Hj by exact Hne.
    pose proof (Hts j mj tj Hmj Hj) as H. destruct (j <? k)%nat eqn:E1.
    + apply Nat.ltb_lt in E1. rewrite (proj2 (Nat.ltb_lt j (S k))) by lia.
      exact H.
    + apply Nat.ltb_ge in E1. rewrite (proj2 (Nat.ltb_ge j (S k))) by lia.
      exact H.
Qed.

Lemma run_in_order (worlds : pystr -> task_world) (todo : list meeting)
      (num_workers : Z) (q : ParallelState) (j : nat) :
  0 < num_workers -> lock_held q = false ->
  (forall m, m ∈ todo -> listed_as_done (state q) m = true) ->
  forall k pl,
    shared pl = q -> in_order_inv now worlds todo k (tasks pl) ->
    (k + j = length todo)%nat ->
    in_order_inv now worlds todo (length todo)
      (tasks (run_pool num_workers (seq k j) pl)).
Proof.
  intros Hnw Hl Hall. induction j as [|j IH]; intros k pl Hq Hinv Hkj.
  - cbn. replace (length todo) with k by lia. exact Hinv.
  - cbn [seq].
    change (run_pool num_workers (k :: seq (S k) j) pl)
      with (run_pool num_workers (seq (S k) j) (pool_step num_workers pl k)).
    assert (Hk : (k < length todo)%nat) by lia.
    destruct (in_order_step worlds todo num_workers q pl k Hnw Hl Hall Hq Hinv Hk)
      as [A B].
    apply (IH (S k)); [exact A|exact B|lia].
Qed.

Lemma in_order_results (worlds : pystr -> task_world) (todo : list meeting)
      (ts : list task) :
  in_order_inv now worlds todo (length todo) ts ->
  results ts = Some (replicate (length ts) true).
Proof.
  intros (Hlen & Hts). apply results_skipped.
  apply Forall_lookup_2. intros i t Hi.
  assert (Hlt : (i < length todo)%nat)
    by (rewrite <- Hlen; eapply lookup_lt_Some; exact Hi).
  destruct (lookup_lt_is_Some_2 todo i Hlt) as [m Hm].
  pose proof (Hts i m t Hm Hi) as H. apply Nat.ltb_lt in Hlt.
  rewrite Hlt in H. destruct H as (Hc & _). exact Hc.
Qed.

Lemma submit_in_order (worlds : pystr -> task_world) (num_workers : Z)
      (todo : list meeting) :
  in_order_inv now worlds todo 0 (submit now worlds num_workers 0 todo).
Proof.
  split; [apply submit_length|]. intros i m t Hm Hi. cbn.
  exact (submit_queued now worlds num_workers todo 0 i m t Hm Hi).
Qed.

Lemma keyed_pending_not_done (s : StateFile.t) :
  keyed_by_id s ->
  forall m, m ∈ map snd (pending_items s) -> listed_as_done s m = false.
Proof.
  intros Hk m Hm. rewrite list_elem_of_In, in_map_iff in Hm.
  destruct Hm as ([i e] & <- & Hin). unfold pending_items in Hin.
  apply filter_In in Hin. destruct Hin as [Hin Hf]. cbn [fst snd] in *.
  rewrite <- list_elem_of_In, elem_of_map_to_list in Hin.
  unfold listed_as_done. rewrite (Hk i e Hin).
  apply negb_true_iff in Hf. exact Hf.
Qed.

End PoolFacts2.

Section PoolFacts3.
Import Py Browser StateFile Parallel.
Local Open Scope Z_scope.

Variable now : pystr.

(** A run that finds the lock free, as the code reads once the calls
    of the main thread before the pool are made. *)
Lemma run_parallel_download_free (worlds : pystr -> task_world)
      (num_workers : Z) (schedule : list nat) (p : ParallelState) :
  lock_held p = false ->
  run_parallel_download now worlds num_workers schedule p
  = let s := state p in
    let todo := map snd (pending_items s) in
    let q := {| state := s; lock_held := false;
                download_count := download_count p;
                total_to_download := Z.of_nat (length todo);
                state_file := state_file p |} in
    match todo with
    | [] =>
        Returns [ Text (py "No pending meetings to download!");
                  Ratio (py "Already downloaded")
                        (Z.of_nat (length (successful_downloads s)))
                        (Z.of_nat (size (meetings s))) ]
                {| shared := p; tasks := [] |}
    | _ =>
        if num_workers <=? 0
        then Raises pool_error {| shared := q; tasks := [] |}
        else
          let pl :=
            run_pool num_workers schedule
              {| shared := q; tasks := submit now worlds num_workers 0 todo |} in
          match results (tasks pl) with
          | None => Waits pl
          | Some bs =>
              match call get_progress (shared pl) with
              | Blocked r => Waits {| shared := self r; tasks := tasks pl |}
              | Returned (downloaded_after, total) r =>
                  Returns [ Rule; Text (py "DOWNLOAD COMPLETE"); Rule;
                            Timing (py "Time elapsed");
                            Count (py "Downloaded this session")
                                  (count_of true bs);
                            Count (py "Failed this session")
                                  (count_of false bs);
                            Ratio (py "Total downloaded")
                                  (Z.of_nat downloaded_after)
                                  (Z.of_nat total);
                            Timing (py "Speed") ]
                          {| shared := self r; tasks := tasks pl |}
              end
          end
    end.
Proof.
  intros Hl. destruct p as [s l dc tot sf]. cbn in Hl. subst l.
  unfold run_parallel_download, call.
  rewrite get_pending_meetings_returns by reflexivity.
  cbn [self state set_lock lock_held download_count total_to_download
       state_file trace].
  destruct (map snd (pending_items s)) as [|m todo];
    rewrite get_progress_returns by reflexivity; reflexivity.
Qed.

Lemma run_parallel_download_held (worlds : pystr -> task_world)
      (num_workers : Z) (schedule : list nat) (p : ParallelState) :
  lock_held p = true ->
  run_parallel_download now worlds num_workers schedule p
  = Waits {| shared := p; tasks := [] |}.
Proof.
  intros Hl. unfold run_parallel_download, call, get_pending_meetings.
  rewrite (held_blocks _ {| self := p; trace := [] |} Hl). reflexivity.
Qed.

(** How a run can stand after a schedule, whatever the lock and the
    schedule: the state file is as it was; a run that has returned has
    logged one of the two closings, the second one with no failure;
    a run that has raised had no worker to create. *)
Lemma run_parallel_download_ends (worlds : pystr -> task_world)
      (num_workers : Z) (schedule : list nat) (p : ParallelState) :
  let e := run_parallel_download now worlds num_workers schedule p in
  state_file (shared (pool_of e)) = state_file p
  /\ (forall lines pl,
        e = Returns lines pl ->
        (exists d t,
           lines = [ Text (py "No pending meetings to download!");
                     Ratio (py "Already downloaded") d t ])
        \/ (exists n d t,
              lines = [ Rule; Text (py "DOWNLOAD COMPLETE"); Rule;
                        Timing (py "Time elapsed");
                        Count (py "Downloaded this session") n;
                        Count (py "Failed this session") 0;
                        Ratio (py "Total downloaded") d t;
                        Timing (py "Speed") ]))
  /\ (forall e' pl,
        e = Raises e' pl ->
        e' = pool_error /\ num_workers <= 0 /\ tasks pl = []
        /\ map snd (pending_items (state p)) <> []).
Proof.
  intros e. subst e. destruct (lock_held p) eqn:Hl.
  - rewrite (run_parallel_download_held worlds num_workers schedule p Hl).
    split; [reflexivity|]. split; intros; discriminate.
  - rewrite (run_parallel_download_free worlds num_workers schedule p Hl).
    cbv zeta. destruct (map snd (pending_items (state p))) as [|m todo'] eqn:Et.
    + split; [reflexivity|]. split; [|intros; discriminate].
      intros lines pl H. injection H as <- _. left. eexists. eexists. reflexivity.
    + destruct (num_workers <=? 0) eqn:En.
      * split; [reflexivity|]. split; [intros; discriminate|].
        intros e' pl H. injection H as <- <-. split; [reflexivity|].
        split; [apply Z.leb_le; exact En|]. split; [reflexivity|discriminate].
      * set (todo := m :: todo').
        set (q := {| state := state p; lock_held := false;
                     download_count := download_count p;
                     total_to_download := Z.of_nat (length todo);
                     state_file := state_file p |}).
        set (pl := run_pool num_workers schedule
                     {| shared := q;
                        tasks := submit now worlds num_workers 0 todo |}).
        assert (Hinv : pool_inv now worlds p todo pl).
        { apply run_pool_inv, pool_inv_start. split; reflexivity. }
        pose proof Hinv as ((Hf & _) & _ & _).
        destruct (results (tasks pl)) as [bs|] eqn:Hr.
        2:{ split; [exact Hf|]. split; intros; discriminate. }
        destruct (pool_inv_results now worlds p todo pl bs Hinv Hr) as [Hbs _].
        pose proof (get_progress_alone_ok
                      {| self := shared pl; trace := [] |}) as Hg.
        unfold call.
        destruct (get_progress {| self := shared pl; trace := [] |})
          as [[d t] r|r]; cbn [self] in Hg.
        -- destruct Hg as (_ & Hg & _).
           split; [cbn [pool_of shared]; congruence|].
           split; [|intros; discriminate].
           intros lines pl' H. injection H as <- _. right.
           rewrite Hbs.
           destruct (count_of_replicate (length todo)) as [_ ->].
           eexists. eexists. eexists. reflexivity.
        -- destruct Hg as (Hg & _).
           split; [cbn [pool_of shared]; congruence|].
           split; intros; discriminate.
Qed.

Lemma match_nonempty {A B} (l : list A) (a b : B) :
  l <> [] -> match l with [] => a | _ :: _ => b end = b.
Proof. destruct l; [contradiction|reflexivity]. Qed.

Lemma listed_forallb (s : StateFile.t) (todo : list meeting) :
  forallb (listed_as_done s) todo = true <->
  forall m, m ∈ todo -> listed_as_done s m = true.
Proof.
  rewrite forallb_forall. split; intros H m Hm; apply H.
  - apply list_elem_of_In. exact Hm.
  - apply list_elem_of_In. exact Hm.
Qed.

(** A run on a ledger with a meeting to download, the lock free and at
    least one worker: the main thread waits, under every schedule. *)
Lemma run_parallel_download_waits (worlds : pystr -> task_world)
      (num_workers : Z) (schedule : list nat) (p : ParallelState) :
  lock_held p = false -> 0 < num_workers ->
  forallb (listed_as_done (state p)) (map snd (pending_items (state p))) = false ->
  exists pl,
    run_parallel_download now worlds num_workers schedule p = Waits pl
    /\ state_file (shared pl) = state_file p
    /\ length (tasks pl) = length (map snd (pending_items (state p))).
Proof.
  intros Hl Hnw Hall.
  rewrite (run_parallel_download_free worlds num_workers schedule p Hl).
  cbv zeta. destruct (map snd (pending_items (state p))) as [|m todo'] eqn:Et;
    [discriminate Hall|].
  rewrite (proj2 (Z.leb_gt num_workers 0)) by lia.
  set (todo := m :: todo') in *.
  set (q := {| state := state p; lock_held := false;
               download_count := download_count p;
               total_to_download := Z.of_nat (length todo);
               state_file := state_file p |}).
  set (pl := run_pool num_workers schedule
               {| shared := q; tasks := submit now worlds num_workers 0 todo |}).
  assert (Hinv : pool_inv now worlds p todo pl).
  { apply run_pool_inv, pool_inv_start. split; reflexivity. }
  pose proof Hinv as ((Hf & _) & _ & Hlen & _).
  destruct (results (tasks pl)) as [bs|] eqn:Hr.
  - exfalso. destruct (pool_inv_results now worlds p todo pl bs Hinv Hr)
      as [_ Hlisted].
    apply forallb_True in Hlisted. rewrite Hall in Hlisted. exact Hlisted.
  - exists pl. split; [reflexivity|]. split; [exact Hf|exact Hlen].
Qed.

(** A run all of whose tasks skip their meeting. *)
Lemma run_parallel_download_skips (worlds : pystr -> task_world)
      (num_workers : Z) (p : ParallelState) :
  lock_held p = false -> 0 < num_workers ->
  map snd (pending_items (state p)) <> [] ->
  forallb (listed_as_done (state p)) (map snd (pending_items (state p))) = true ->
  let s := state p in
  let todo := map snd (pending_items s) in
  (forall schedule,
     exists pl,
       state (shared pl) = s /\ state_file (shared pl) = state_file p
       /\ lock_held (shared pl) = false
       /\ Forall (fun t => log t = []) (tasks pl)
       /\ (run_parallel_download now worlds num_workers schedule p = Waits pl
           \/ run_parallel_download now worlds num_workers schedule p
              = Returns [ Rule; Text (py "DOWNLOAD COMPLETE"); Rule;
                          Timing (py "Time elapsed");
                          Count (py "Downloaded this session")
                                (Z.of_nat (length todo));
                          Count (py "Failed this session") 0;
                          Ratio (py "Total downloaded")
                                (Z.of_nat (length (successful_downloads s)))
                                (Z.of_nat (size (meetings s)));
                          Timing (py "Speed") ] pl))
  /\ exists lines pl,
       run_parallel_download now worlds num_workers
         (seq 0 (length todo)) p = Returns lines pl.
Proof.
  intros Hl Hnw Hne Hall s todo.
  set (q := {| state := s; lock_held := false;
               download_count := download_count p;
               total_to_download := Z.of_nat (length todo);
               state_file := state_file p |}).
  assert (Hq : forall m, m ∈ todo -> listed_as_done (state q) m = true)
    by (apply listed_forallb; exact Hall).
  assert (Hrun : forall schedule,
            run_parallel_download now worlds num_workers schedule p
            = let pl := run_pool num_workers schedule
                          {| shared := q;
                             tasks := submit now worlds num_workers 0 todo |} in
              match results (tasks pl) with
              | None => Waits pl
              | Some bs =>
                  Returns [ Rule; Text (py "DOWNLOAD COMPLETE"); Rule;
                            Timing (py "Time elapsed");
                            Count (py "Downloaded this session")
                                  (count_of true bs);
                            Count (py "Failed this session")
                                  (count_of false bs);
                            Ratio (py "Total downloaded")
                                  (Z.of_nat (length (successful_downloads s)))
                                  (Z.of_nat (size (meetings s)));
                            Timing (py "Speed") ]
                          {| shared := q; tasks := tasks pl |}
              end).
  { intros schedule.
    rewrite (run_parallel_download_free worlds num_workers schedule p Hl).
    cbv zeta. fold s. fold todo. fold q.
    rewrite (match_nonempty todo) by exact Hne.
    rewrite (proj2 (Z.leb_gt num_workers 0)) by lia.
    destruct (run_pool_skipping now worlds todo num_workers q schedule
                {| shared := q; tasks := submit now worlds num_workers 0 todo |}
                eq_refl Hq eq_refl (submit_skipping now worlds num_workers todo))
      as [Hs _].
    destruct (results _) as [bs|]; [|reflexivity].
    rewrite Hs. unfold call.
    rewrite get_progress_returns by reflexivity. reflexivity. }
  split.
  - intros schedule. rewrite (Hrun schedule). cbv zeta.
    destruct (run_pool_skipping now worlds todo num_workers q schedule
                {| shared := q; tasks := submit now worlds num_workers 0 todo |}
                eq_refl Hq eq_refl (submit_skipping now worlds num_workers todo))
      as [Hs Hinv].
    set (pl := run_pool num_workers schedule
                 {| shared := q;
                    tasks := submit now worlds num_workers 0 todo |}) in *.
    pose proof (skipping_logs now worlds todo (tasks pl) Hinv) as Hlogs.
    destruct (results (tasks pl)) as [bs|] eqn:Hr.
    + exists {| shared := q; tasks := tasks pl |}.
      split; [reflexivity|]. split; [reflexivity|]. split; [reflexivity|].
      split; [exact Hlogs|]. right.
      rewrite (skipping_results now worlds todo (tasks pl) bs Hinv Hr).
      destruct (count_of_replicate (length todo)) as [-> ->]. reflexivity.
    + exists pl. rewrite Hs.
      split; [reflexivity|]. split; [reflexivity|]. split; [reflexivity|].
      split; [exact Hlogs|]. left. reflexivity.
  - rewrite (Hrun (seq 0 (length todo))). cbv zeta.
    pose proof (run_in_order now worlds todo num_workers q (length todo)
                  Hnw eq_refl Hq 0%nat
                  {| shared := q;
                     tasks := submit now worlds num_workers 0 todo |}
                  eq_refl (submit_in_order now worlds num_workers todo) eq_refl)
      as Hinv.
    rewrite (in_order_results now worlds todo _ Hinv).
    eexists. eexists. reflexivity.
Qed.

End PoolFacts3.

Section PoolClaims.
Import Py Browser StateFile Parallel.
Local Open Scope Z_scope.

(** X13.  A parallel run that finds the lock free.  With nothing
    pending it returns at once, with the two lines [No pending meetings
    to download!] and [Already downloaded: d/t], and no task.  With a
    meeting pending and a number of workers that is not positive, the
    pool raises its [ValueError] before any task is submitted, and the
    exception leaves [run_parallel_download].  With at least one worker,
    and a pending entry whose id is not in the list of successes, the
    main thread waits for its futures under every schedule of the
    threads: the task of that entry cannot finish, and the state file
    is as at the start.  When every pending entry carries an id that is
    listed as a success (which asks for an entry filed under an id that
    is not its own), each task skips its meeting: under every schedule
    the ledger in memory, the state file and the lock are as at the
    start and no task has done anything, and the run has either to wait
    for tasks that the schedule has not run or has returned with the
    closing lines, which count every task as downloaded and none as
    failed; under the schedule that runs the tasks in the order of
    submission it returns.  When every entry is filed under its own id,
    every pending entry is listed exactly when nothing is pending. *)
Theorem parallel_run_outcome now (worlds : pystr -> task_world)
        (num_workers : Z) (p : ParallelState) :
  lock_held p = false ->
  let s := state p in
  let todo := map snd (pending_items s) in
  (todo = [] ->
   forall schedule,
     run_parallel_download now worlds num_workers schedule p
     = Returns [ Text (py "No pending meetings to download!");
                 Ratio (py "Already downloaded")
                       (Z.of_nat (length (successful_downloads s)))
                       (Z.of_nat (size (meetings s))) ]
               {| shared := p; tasks := [] |})
  /\ (todo <> [] -> num_workers <= 0 ->
      forall schedule,
        exists pl,
          run_parallel_download now worlds num_workers schedule p
          = Raises pool_error pl
          /\ tasks pl = []
          /\ state (shared pl) = s
          /\ state_file (shared pl) = state_file p)
  /\ (0 < num_workers -> forallb (listed_as_done s) todo = false ->
      forall schedule,
        exists pl,
          run_parallel_download now worlds num_workers schedule p = Waits pl
          /\ state_file (shared pl) = state_file p
          /\ length (tasks pl) = length todo)
  /\ (0 < num_workers -> todo <> [] -> forallb (listed_as_done s) todo = true ->
      (forall schedule,
         exists pl,
           state (shared pl) = s /\ state_file (shared pl) = state_file p
           /\ lock_held (shared pl) = false
           /\ Forall (fun t => log t = []) (tasks pl)
           /\ (run_parallel_download now worlds num_workers schedule p = Waits pl
               \/ run_parallel_download now worlds num_workers schedule p
                  = Returns [ Rule; Text (py "DOWNLOAD COMPLETE"); Rule;
                              Timing (py "Time elapsed");
                              Count (py "Downloaded this session")
                                    (Z.of_nat (length todo));
                              Count (py "Failed this session") 0;
                              Ratio (py "Total downloaded")
                                    (Z.of_nat (length (successful_downloads s)))
                                    (Z.of_nat (size (meetings s)));
                              Timing (py "Speed") ] pl))
      /\ exists lines pl,
           run_parallel_download now worlds num_workers
             (seq 0 (length todo)) p = Returns lines pl)
  /\ (keyed_by_id s ->
      (forallb (listed_as_done s) todo = true <-> todo = [])).
Proof.
  intros Hl s todo.
  split; [|split; [|split; [|split]]].
  - intros Ht schedule.
    rewrite (run_parallel_download_free now worlds num_workers schedule p Hl).
    cbv zeta. fold s. fold todo. rewrite Ht. reflexivity.
  - intros Ht Hnw schedule.
    rewrite (run_parallel_download_free now worlds num_workers schedule p Hl).
    cbv zeta. fold s. fold todo.
    destruct todo as [|m todo']; [contradiction|].
    rewrite (proj2 (Z.leb_le num_workers 0) Hnw).
    eexists. split; [reflexivity|]. split; [reflexivity|].
    split; reflexivity.
  - intros Hnw Hall schedule.
    exact (run_parallel_download_waits now worlds num_workers schedule p
             Hl Hnw Hall).
  - intros Hnw Ht Hall.
    exact (run_parallel_download_skips now worlds num_workers p Hl Hnw Ht Hall).
  - intros Hk. split.
    + intros E. destruct todo as [|m todo'] eqn:Et; [reflexivity|].
      assert (Hm : listed_as_done s m = false).
      { apply (keyed_pending_not_done s Hk). fold todo. rewrite Et.
        apply elem_of_cons. left. reflexivity. }
      cbn [forallb] in E. rewrite Hm in E. discriminate E.
    + intros ->. reflexivity.
Qed.

Lemma parallel_run_outcome_witness :
  exists pl,
    run_parallel_download clock (fun _ => world_of body_only_page) 4
      [0; 0; 0; 0; 0; 0; 0]%nat pool_memory = Waits pl
    /\ state_file (shared pl) = state_file pool_memory
    /\ length (tasks pl)
       = length (map snd (pending_items (state pool_memory))).
Proof.
  exact (proj1 (proj2 (proj2
    (parallel_run_outcome clock (fun _ => world_of body_only_page) 4
       pool_memory eq_refl))) eq_refl eq_refl [0; 0; 0; 0; 0; 0; 0]%nat).
Defined.

(** Two meetings and two workers, the threads taking turns: each task
    asks [is_downloaded], launches its browser, opens its page and
    writes its file, and then makes its call of [mark_success]; the
    first call stops with the lock in its hands, the second one waits
    for the lock.  The ledger in memory carries the first success, the
    state file none. *)
Example two_workers_take_turns :
  exists pl,
    run_parallel_download clock (fun _ => world_of body_only_page) 2
      [0; 1; 0; 1; 0; 1; 0; 1; 0; 1; 0; 1]%nat two_pending = Waits pl
    /\ map (fun t => map is_mark (log t)) (tasks pl)
       = [[false; false; false; false; true];
          [false; false; false; false; true]]
    /\ map code (tasks pl) = [AtLock; AtLock]
    /\ length (successful_downloads (state (shared pl))) = 1%nat
    /\ lock_held (shared pl) = true
    /\ state_file (shared pl) = Some discovered_twice.
Proof.
  eexists. split; [vm_compute; reflexivity|].
  split; [vm_compute; reflexivity|]. split; [vm_compute; reflexivity|].
  split; [vm_compute; reflexivity|]. split; vm_compute; reflexivity.
Qed.

(** With one worker the second task stays in the queue. *)
Example one_worker_keeps_the_queue :
  exists pl,
    run_parallel_download clock (fun _ => world_of body_only_page) 1
      [0; 1; 0; 1; 0; 1; 0; 1; 0; 1; 0; 1]%nat two_pending = Waits pl
    /\ map started (tasks pl) = [true; false]
    /\ map (fun t => length (log t)) (tasks pl) = [5; 0]%nat.
Proof.
  eexists. split; [vm_compute; reflexivity|].
  split; vm_compute; reflexivity.
Qed.

(** No worker: the pool refuses to start, and the script ends with
    status 1. *)
Example no_worker_raises :
  exists pl,
    run_parallel_download clock (fun _ => world_of body_only_page) 0
      [0; 0]%nat pool_memory = Raises pool_error pl
    /\ exit_status (run_parallel_download clock
                      (fun _ => world_of body_only_page) 0 [0; 0]%nat
                      pool_memory) = Some 1.
Proof. eexists. split; vm_compute; reflexivity. Qed.

(** An entry filed under an id that is not its own, its own id listed
    as a success: the task skips it and the run returns. *)
Example misfiled_entry_is_skipped :
  exists pl,
    run_parallel_download clock (fun _ => world_of body_only_page) 4
      [0]%nat misfiled_memory
    = Returns [ Rule; Text (py "DOWNLOAD COMPLETE"); Rule;
                Timing (py "Time elapsed");
                Count (py "Downloaded this session") 1;
                Count (py "Failed this session") 0;
                Ratio (py "Total downloaded") 1 1;
                Timing (py "Speed") ] pl
    /\ map log (tasks pl) = [[]].
Proof. eexists. split; vm_compute; reflexivity. Qed.

(** X14.  The parallel program never writes the state file: whether
    [run_parallel_download] has returned, has raised or waits, whatever
    the number of workers, the schedule of the threads and the state of
    the lock at the start, the file is as it was. *)
Theorem parallel_run_never_writes_state_file now
        (worlds : pystr -> task_world) (num_workers : Z)
        (schedule : list nat) (p : ParallelState) :
  state_file
    (shared (pool_of (run_parallel_download now worlds num_workers schedule p)))
  = state_file p.
Proof.
  exact (proj1 (run_parallel_download_ends now worlds num_workers schedule p)).
Qed.

End PoolClaims.

(** * The exit status of a run *)

Section ExitStatusFacts.
Import Py Browser StateFile Downloader.
Local Open Scope Z_scope.

Variable now : pystr.
Variable lower : pystr -> pystr.
Variable fs : filesystem.
Variable json_loads : pystr -> result json.











End ExitStatusFacts.

Section ExitStatusClaim.
Import Py Browser StateFile Downloader Config.
Local Open Scope Z_scope.





(** A run that comes to its final report with meetings still pending:
    the report gives the total, the successes and the failures, and
    the number of pending meetings is in no line of it. *)
Example final_report_has_no_pending_count :
  snd (run_download_logged clock ascii_lower disk_ok loads_state
         top_one first_world)
  = [ Rule; Text (py "DOWNLOAD COMPLETE"); Rule;
      Count (py "Total meetings") 2;
      Count (py "Successfully downloaded") 0;
      Count (py "Failed") 1;
      Text (py "Download directory: downloads");
      Rule ]
  /\ pending (get_stats
                (snd (run_download clock ascii_lower disk_ok loads_state
                        top_one first_world))) = 2%nat
  /\ main clock ascii_lower disk_ok loads_state top_one first_world = 1.
Proof. split; [|split]; vm_compute; reflexivity. Qed.

(** A parallel run with one pending meeting does not come to its
    closing lines, whatever the schedule: the task stops at the lock
    and the main thread waits for it. *)
Example parallel_run_blocks :
  forall schedule,
    Parallel.exit_status
      (Parallel.run_parallel_download clock (fun _ => world_of body_only_page)
         4 schedule pool_memory) = None.
Proof.
  intros schedule.
  destruct (run_parallel_download_waits clock
              (fun _ => world_of body_only_page) 4 schedule pool_memory
              eq_refl eq_refl eq_refl) as (pl & -> & _).
  reflexivity.
Qed.

End ExitStatusClaim.

(** * Further properties of the ledger *)

Section LedgerMore.
Import StateFile.

Lemma run_ops_snoc (ops : list ledger_op) (o : ledger_op)
      (d : Downloader.DownloadState) :
  run_ops (ops ++ [o]) d = apply_op (run_ops ops d) o.
Proof. unfold run_ops. rewrite fold_left_app. reflexivity. Qed.

Lemma apply_op_saved (d : Downloader.DownloadState) (o : ledger_op) :
  Downloader.state_file (apply_op d o) = Some (Downloader.state (apply_op d o))
  /\ last_run (Downloader.state (apply_op d o)) = Some (op_time o).
Proof.
  destruct o as [now i t u|now i m ok err|now i p m sz|now i]; simpl.
  - unfold Downloader.register_meeting.
    destruct (meetings (Downloader.state d) !! i); split; reflexivity.
  - split; reflexivity.
  - unfold Downloader.mark_success.
    destruct (meetings (Downloader.state d) !! i); simpl;
      match goal with |- context [if ?c then _ else _] => destruct c end;
      split; reflexivity.
  - unfold Downloader.mark_failure.
    destruct (meetings (Downloader.state d) !! i); split; reflexivity.
Qed.

(** X1.  Every mutating method of [DownloadState] ends with [save]:
    after the last call of any sequence of [register_meeting],
    [record_attempt], [mark_success] and [mark_failure], the state file
    holds exactly the dictionary in memory, and [last_run] is the time
    of that call. *)
Theorem every_call_is_saved (ops : list ledger_op) (o : ledger_op)
        (d : Downloader.DownloadState) :
  Downloader.state_file (run_ops (ops ++ [o]) d)
  = Some (Downloader.state (run_ops (ops ++ [o]) d))
  /\ last_run (Downloader.state (run_ops (ops ++ [o]) d)) = Some (op_time o).
Proof. rewrite run_ops_snoc. apply apply_op_saved. Qed.

Lemma attempts_of_register now d i t u j :
  attempts_of (Downloader.register_meeting now d i t u) j = attempts_of d j.
Proof.
  unfold attempts_of, Downloader.register_meeting.
  destruct (meetings (Downloader.state d) !! i); reflexivity.
Qed.

Lemma attempts_of_mark_success now d i p m sz j :
  attempts_of (Downloader.mark_success now d i p m sz) j = attempts_of d j.
Proof.
  unfold attempts_of, Downloader.mark_success.
  destruct (meetings (Downloader.state d) !! i); simpl;
    match goal with |- context [if ?c then _ else _] => destruct c end;
    reflexivity.
Qed.

Lemma attempts_of_mark_failure now d i j :
  attempts_of (Downloader.mark_failure now d i) j = attempts_of d j.
Proof.
  unfold attempts_of, Downloader.mark_failure.
  destruct (meetings (Downloader.state d) !! i); reflexivity.
Qed.

Lemma attempts_of_record_attempt now d i m ok err j :
  attempts_of (Downloader.record_attempt now d i m ok err) j
  = attempts_of d j ++ op_attempt j (RecordAttempt now i m ok err).
Proof.
  unfold attempts_of, Downloader.record_attempt. simpl.
  rewrite lookup_insert. destruct (decide (i = j)) as [->|Hne].
  - rewrite bool_decide_eq_true_2 by reflexivity. reflexivity.
  - rewrite bool_decide_eq_false_2 by exact Hne. rewrite app_nil_r. reflexivity.
Qed.

Lemma attempts_of_step d o j :
  attempts_of (apply_op d o) j = attempts_of d j ++ op_attempt j o.
Proof.
  destruct o as [now i t u|now i m ok err|now i p m sz|now i]; simpl.
  - rewrite attempts_of_register, app_nil_r. reflexivity.
  - apply attempts_of_record_attempt.
  - rewrite attempts_of_mark_success, app_nil_r. reflexivity.
  - rewrite attempts_of_mark_failure, app_nil_r. reflexivity.
Qed.

(** X2.  The attempts of a meeting are only ever appended to: after any
    sequence of calls, the list recorded for an id is the list it was,
    followed by the records of the [record_attempt] calls for that id,
    one each and in the order of the calls. *)
Theorem attempts_append_only (ops : list ledger_op)
        (d : Downloader.DownloadState) (i : pystr) :
  attempts_of (run_ops ops d) i
  = attempts_of d i ++ flat_map (op_attempt i) ops.
Proof.
  revert d. induction ops as [|o ops IH]; intros d; simpl.
  - rewrite app_nil_r. reflexivity.
  - change (fold_left apply_op ops (apply_op d o))
      with (run_ops ops (apply_op d o)).
    rewrite IH, attempts_of_step, app_assoc. reflexivity.
Qed.

Lemma coherent_step d o : coherent d -> coherent (apply_op d o).
Proof.
  intros Hc j. destruct (Hc j) as [Hs Hf]. unfold status_of in *.
  destruct o as [now i t u|now i m ok err|now i p m sz|now i]; simpl.
  - rewrite succeeded_register, given_up_register, entry_register.
    destruct (entry d i) eqn:Ei; [tauto|].
    destruct (bool_decide (i = j)) eqn:Eb; [|tauto].
    simpl. split; discriminate.
  - rewrite succeeded_record_attempt, given_up_record_attempt,
      entry_record_attempt. tauto.
  - rewrite succeeded_mark_success, given_up_mark_success, entry_mark_success.
    destruct (bool_decide (i = j)) eqn:Eb.
    + apply bool_decide_eq_true in Eb. subst j. split.
      * intros _. apply elem_of_append_new. tauto.
      * destruct (entry d i); simpl; discriminate.
    + apply bool_decide_eq_false in Eb. split.
      * intros H. apply elem_of_append_new. right. exact (Hs H).
      * intros H. specialize (Hf H).
        destruct (mem i (given_up d)); [|exact Hf].
        apply remove_first_other; [congruence|exact Hf].
  - rewrite succeeded_mark_failure, given_up_mark_failure, entry_mark_failure.
    destruct (bool_decide (i = j)) eqn:Eb.
    + apply bool_decide_eq_true in Eb. subst j. split.
      * destruct (entry d i); simpl; discriminate.
      * intros _. apply elem_of_append_new. tauto.
    + split; [exact Hs|].
      intros H. apply elem_of_append_new. right. exact (Hf H).
Qed.

Lemma fresh_coherent : coherent (Downloader.new_DownloadState None).
Proof. intros i. split; intros H; discriminate H. Qed.

(** X3.  The status of an entry and the two lists stay in agreement
    under every sequence of calls, guarded or not: if each [Success]
    entry is in [successful_downloads] and each [Failed] entry in
    [failed_downloads] (as in the empty ledger), the same holds
    afterwards. *)
Theorem status_agrees_with_lists (ops : list ledger_op)
        (d : Downloader.DownloadState) :
  coherent d -> coherent (run_ops ops d).
Proof.
  revert d. induction ops as [|o ops IH]; intros d H; [exact H|].
  change (run_ops (o :: ops) d) with (run_ops ops (apply_op d o)).
  apply IH, coherent_step, H.
Qed.

Lemma status_agrees_with_lists_witness :
  coherent (run_ops retried_history (Downloader.new_DownloadState None)).
Proof.
  exact (status_agrees_with_lists retried_history
           (Downloader.new_DownloadState None) fresh_coherent).
Defined.

End LedgerMore.

(** * The strategies and [download_meeting] *)

Section IsolationFacts.
Import StateFile.

Lemma touches_only_refl i d : touches_only i d d.
Proof. intros j _. tauto. Qed.

Lemma touches_only_trans i d1 d2 d3 :
  touches_only i d1 d2 -> touches_only i d2 d3 -> touches_only i d1 d3.
Proof.
  intros H12 H23 j Hj.
  destruct (H12 j Hj) as (E1 & A1 & S1 & F1).
  destruct (H23 j Hj) as (E2 & A2 & S2 & F2).
  split; [congruence|]. split; [congruence|]. split; tauto.
Qed.

Lemma keeps_successes_refl d : keeps_successes d d.
Proof. intros x H. exact H. Qed.

Lemma keeps_successes_trans d1 d2 d3 :
  keeps_successes d1 d2 -> keeps_successes d2 d3 -> keeps_successes d1 d3.
Proof. intros H12 H23 x H. apply H23, H12, H. Qed.

Lemma elem_of_remove_first_other (x y : pystr) (l : list pystr) :
  y <> x -> (y ∈ remove_first x l <-> y ∈ l).
Proof.
  intros H. split; [apply elem_of_remove_first|apply remove_first_other, H].
Qed.

Lemma op_attempt_other (j : pystr) (o : ledger_op) now i m ok err :
  o = RecordAttempt now i m ok err -> j <> i -> op_attempt j o = [].
Proof.
  intros -> H. simpl. rewrite bool_decide_eq_false_2; [reflexivity|congruence].
Qed.

Lemma touches_only_record_attempt now d i m ok err :
  touches_only i d (Downloader.record_attempt now d i m ok err).
Proof.
  intros j Hj. rewrite entry_record_attempt, attempts_of_record_attempt,
    succeeded_record_attempt, given_up_record_attempt.
  rewrite (op_attempt_other j _ now i m ok err eq_refl Hj), app_nil_r. tauto.
Qed.

Lemma touches_only_mark_success now d i p m sz :
  touches_only i d (Downloader.mark_success now d i p m sz).
Proof.
  intros j Hj. rewrite entry_mark_success, attempts_of_mark_success,
    succeeded_mark_success, given_up_mark_success.
  rewrite bool_decide_eq_false_2 by congruence.
  split; [reflexivity|]. split; [reflexivity|]. split.
  - rewrite elem_of_append_new. tauto.
  - destruct (mem i (given_up d)); [|tauto].
    apply elem_of_remove_first_other, Hj.
Qed.

Lemma touches_only_mark_failure now d i :
  touches_only i d (Downloader.mark_failure now d i).
Proof.
  intros j Hj. rewrite entry_mark_failure, attempts_of_mark_failure,
    succeeded_mark_failure, given_up_mark_failure.
  rewrite bool_decide_eq_false_2 by congruence.
  split; [reflexivity|]. split; [reflexivity|]. split; [tauto|].
  rewrite elem_of_append_new. tauto.
Qed.

Lemma touches_only_register now d i t u :
  touches_only i d (Downloader.register_meeting now d i t u).
Proof.
  intros j Hj. rewrite entry_register, attempts_of_register,
    succeeded_register, given_up_register.
  split; [|tauto]. destruct (entry d i); [reflexivity|].
  rewrite bool_decide_eq_false_2 by congruence. reflexivity.
Qed.

End IsolationFacts.

Section StrategyFacts.
Import Py Browser StateFile Downloader.

Variable now : pystr.
Variable lower : pystr -> pystr.
Variable fs : filesystem.
Variable json_loads : pystr -> result json.

Lemma text_extraction_ends_well doc meeting d :
  ends_well now (py "text_extraction") meeting d
            (strategy_text_extraction now lower fs doc meeting d).
Proof.
  unfold strategy_text_extraction, ends_well, success_end, failure_end.
  cbv zeta.
  destruct (truthy (gathered_text doc) && (100 <? len (gathered_text doc))%Z);
    [|right; eauto].
  destruct (100 <? len (clean_text lower (gathered_text doc)))%Z; [|right; eauto].
  destruct (write_text fs _ _) as [sz|e]; [left|right]; eauto.
Qed.

Lemma direct_api_ends_well doc meeting d :
  ends_well now (py "direct_api") meeting d
            (strategy_direct_api now fs json_loads doc meeting d).
Proof.
  unfold strategy_direct_api, ends_well, success_end, failure_end.
  cbv zeta.
  destruct (evaluate doc state_script) as [[result|]|e]; [|right; eauto..].
  destruct (truthy result && (1000 <? len result)%Z); [|right; eauto].
  destruct (json_loads result) as [data|e]; [|right; eauto].
  destruct (extract_transcript_from_data data 0) as [t|]; [|right; eauto].
  destruct (truthy t && (100 <? len t)%Z); [|right; eauto].
  destruct (write_text fs _ _) as [sz|e]; [left|right]; eauto.
Qed.

Lemma screenshot_ends_well doc meeting d :
  ends_well now (py "screenshot") meeting d
            (strategy_screenshot_fallback now doc meeting d).
Proof.
  unfold strategy_screenshot_fallback, ends_well, success_end, failure_end.
  cbv zeta.
  destruct (screenshot doc _) as [[sz|]|e]; [left|right|right]; eauto.
Qed.

End StrategyFacts.

Section EndFacts.
Import Py Browser StateFile Downloader.

Variable now : pystr.

Lemma success_end_ok d i method path sz :
  step_ok 1 i true d (success_end now d i method path sz).
Proof.
  unfold success_end. split; [|split; [|split; [|split]]].
  - eapply touches_only_trans;
      [apply touches_only_record_attempt|apply touches_only_mark_success].
  - intros x Hx. rewrite succeeded_mark_success, succeeded_record_attempt.
    apply elem_of_append_new. tauto.
  - eexists. split; [|split].
    + rewrite attempts_of_mark_success, attempts_of_record_attempt. simpl.
      rewrite bool_decide_eq_true_2 by reflexivity. reflexivity.
    + simpl. lia.
    + exists [], {| a_timestamp := now; a_method := method;
                    a_success := true; a_error := None |}.
      split; [reflexivity|]. split; [reflexivity|constructor].
  - intros _. apply is_downloaded_spec.
    rewrite succeeded_mark_success. apply elem_of_append_new. tauto.
  - discriminate.
Qed.

Lemma failure_end_ok d i method err :
  step_ok 1 i false d (failure_end now d i method err).
Proof.
  unfold failure_end. split; [|split; [|split; [|split]]].
  - apply touches_only_record_attempt.
  - intros x Hx. rewrite succeeded_record_attempt. exact Hx.
  - eexists. split; [|split].
    + rewrite attempts_of_record_attempt. simpl.
      rewrite bool_decide_eq_true_2 by reflexivity. reflexivity.
    + simpl. lia.
    + constructor; [reflexivity|constructor].
  - discriminate.
  - intros _. split; [reflexivity|]. split; [reflexivity|].
    intros j. apply entry_record_attempt.
Qed.

Lemma ends_well_ok method meeting d r :
  ends_well now method meeting d r ->
  step_ok 1 (id meeting) (bool_decide (is_Some (fst r))) d (snd r).
Proof.
  intros [(path & sz & ->)|(err & ->)]; cbn [fst snd].
  - rewrite bool_decide_eq_true_2 by eauto. apply success_end_ok.
  - rewrite bool_decide_eq_false_2 by (intros [x Hx]; discriminate Hx).
    apply failure_end_ok.
Qed.

End EndFacts.

Section DownloadFacts.
Import Py Browser StateFile Downloader.

Variable now : pystr.

Lemma ends_well_one_attempt method meeting d r :
  ends_well now method meeting d r -> one_attempt now method (id meeting) d r.
Proof.
  unfold one_attempt. intros [(path & sz & ->)|(err & ->)]; cbn [fst snd].
  - exists {| a_timestamp := now; a_method := method;
              a_success := true; a_error := None |}.
    unfold success_end.
    rewrite attempts_of_mark_success, attempts_of_record_attempt. simpl.
    rewrite bool_decide_eq_true_2 by reflexivity.
    split; [reflexivity|]. split; [reflexivity|]. split; [reflexivity|].
    split; [reflexivity|]. split; [|discriminate].
    intros _. split; [reflexivity|]. apply is_downloaded_spec.
    rewrite succeeded_mark_success. apply elem_of_append_new. tauto.
  - exists {| a_timestamp := now; a_method := method;
              a_success := false; a_error := Some err |}.
    unfold failure_end. rewrite attempts_of_record_attempt. simpl.
    rewrite bool_decide_eq_true_2 by reflexivity.
    split; [reflexivity|]. split; [reflexivity|]. split; [reflexivity|].
    split; [reflexivity|]. split; [intros [x Hx]; discriminate Hx|].
    intros _. split; [eauto|]. split; [reflexivity|]. split; [reflexivity|].
    intros j. apply entry_record_attempt.
Qed.

Lemma log_of_app (b : bool) (l1 l2 : list attempt) :
  Forall failed_attempt l1 -> log_of b l2 -> log_of b (l1 ++ l2).
Proof.
  intros H1 H2. destruct b; simpl in *.
  - destruct H2 as (l' & a & -> & Ha & Hl').
    exists (l1 ++ l'), a. rewrite app_assoc. split; [reflexivity|].
    split; [exact Ha|]. apply Forall_app. tauto.
  - apply Forall_app. tauto.
Qed.

Lemma step_ok_seq n1 n2 i b d d1 d2 :
  step_ok n1 i false d d1 -> step_ok n2 i b d1 d2 ->
  step_ok (n1 + n2) i b d d2.
Proof.
  intros (T1 & K1 & (l1 & A1 & L1 & G1) & _ & F1) (T2 & K2 & (l2 & A2 & L2 & G2) & S2 & F2).
  destruct (F1 eq_refl) as (Fs & Fg & Fe).
  split; [eapply touches_only_trans; eassumption|].
  split; [eapply keeps_successes_trans; eassumption|].
  split; [|split].
  - exists (l1 ++ l2). split; [rewrite A2, A1, app_assoc; reflexivity|].
    split; [rewrite length_app; lia|]. apply log_of_app; assumption.
  - exact S2.
  - intros Hb. destruct (F2 Hb) as (Fs2 & Fg2 & Fe2).
    split; [congruence|]. split; [congruence|]. intros j. rewrite Fe2. apply Fe.
Qed.

Lemma step_ok_download n1 n2 i b d d1 d2 :
  step_ok n1 i false d d1 -> download_ok n2 i b d1 d2 ->
  download_ok (n1 + n2) i b d d2.
Proof.
  intros (T1 & K1 & (l1 & A1 & L1 & G1) & _ & F1) (T2 & K2 & (l2 & A2 & L2 & G2) & S2 & F2).
  destruct (F1 eq_refl) as (Fs & Fg & Fe).
  split; [eapply touches_only_trans; eassumption|].
  split; [eapply keeps_successes_trans; eassumption|].
  split; [|split].
  - exists (l1 ++ l2). split; [rewrite A2, A1, app_assoc; reflexivity|].
    split; [rewrite length_app; lia|]. apply log_of_app; assumption.
  - exact S2.
  - intros Hb. destruct (F2 Hb) as (Fs2 & Fg2 & Fe2).
    split; [congruence|]. split; [congruence|]. rewrite Fe2, Fe. reflexivity.
Qed.

Lemma step_ok_is_download n i d d' :
  step_ok n i true d d' -> download_ok n i true d d'.
Proof.
  intros (T & K & L & S & _).
  split; [exact T|]. split; [exact K|]. split; [exact L|]. split; [exact S|].
  discriminate.
Qed.

Lemma download_ok_more n m i b d d' :
  n <= m -> download_ok n i b d d' -> download_ok m i b d d'.
Proof.
  intros Hle (T & K & (l & A & L & G) & S1 & F).
  split; [exact T|]. split; [exact K|]. split; [|split; [exact S1|exact F]].
  exists l. split; [exact A|]. split; [lia|exact G].
Qed.

Lemma step_ok_none i d : step_ok 0 i false d d.
Proof.
  split; [apply touches_only_refl|]. split; [apply keeps_successes_refl|].
  split; [|split; [discriminate|tauto]].
  exists []. rewrite app_nil_r. split; [reflexivity|]. split; [simpl; lia|constructor].
Qed.

Lemma try_strategies_ok
      (l : list (document -> item -> DownloadState -> option pystr * DownloadState))
      doc meeting d :
  Forall (fun s => exists method, forall doc meeting d,
            ends_well now method meeting d (s doc meeting d)) l ->
  step_ok (length l) (id meeting) (fst (try_strategies l doc meeting d)) d
          (snd (try_strategies l doc meeting d)).
Proof.
  intros Hl. revert d. induction Hl as [|s l (method & Hs) _ IH]; intros d.
  - apply step_ok_none.
  - simpl. pose proof (ends_well_ok now method meeting d _ (Hs doc meeting d)) as H.
    destruct (s doc meeting d) as [[path|] d1]; cbn [fst snd] in *.
    + rewrite bool_decide_eq_true_2 in H by eauto.
      destruct H as (T & K & (l0 & A & L & G) & S1 & F).
      split; [exact T|]. split; [exact K|]. split; [|split; [exact S1|exact F]].
      exists l0. split; [exact A|]. split; [lia|exact G].
    + rewrite bool_decide_eq_false_2 in H by (intros [x Hx]; discriminate Hx).
      apply (step_ok_seq 1 (length l) _ _ d d1); [exact H|apply IH].
Qed.

End DownloadFacts.

Section DownloadFacts2.
Import Py Browser StateFile Downloader.

Variable now : pystr.
Variable lower : pystr -> pystr.
Variable fs : filesystem.
Variable json_loads : pystr -> result json.

Lemma strategies_end_well :
  Forall (fun s => exists method, forall doc meeting d,
            ends_well now method meeting d (s doc meeting d))
         (strategies now lower fs json_loads).
Proof.
  unfold strategies. repeat constructor.
  - exists (py "text_extraction"). apply text_extraction_ends_well.
  - exists (py "direct_api"). apply direct_api_ends_well.
  - exists (py "screenshot"). apply screenshot_ends_well.
Qed.

Lemma attempts_ok (pg : page) (meeting : item) (remaining retry : nat)
      (d : DownloadState) :
  download_ok (3 * remaining) (id meeting)
    (fst (attempts now lower fs json_loads pg meeting retry remaining d)) d
    (snd (attempts now lower fs json_loads pg meeting retry remaining d)).
Proof.
  revert retry d. induction remaining as [|remaining IH]; intros retry d.
  - simpl. split; [apply touches_only_mark_failure|].
    split; [intros x Hx; rewrite succeeded_mark_failure; exact Hx|].
    split; [|split; [discriminate|]].
    + exists []. rewrite attempts_of_mark_failure, app_nil_r.
      split; [reflexivity|]. split; [simpl; lia|constructor].
    + intros _. split; [apply succeeded_mark_failure|].
      split; [apply given_up_mark_failure|].
      rewrite entry_mark_failure, bool_decide_eq_true_2; reflexivity.
  - replace (3 * S remaining) with (3 + 3 * remaining) by lia.
    cbn [attempts].
    destruct (goto pg (url meeting) retry) as [doc|[msg|msg]].
    + pose proof (try_strategies_ok now _ doc meeting d strategies_end_well) as H.
      change (length (strategies now lower fs json_loads)) with 3 in H.
      destruct (try_strategies (strategies now lower fs json_loads) doc meeting d)
        as [[|] d1]; cbn [fst snd] in *.
      * apply (download_ok_more 3); [lia|]. apply step_ok_is_download, H.
      * apply (step_ok_download 3 (3 * remaining) _ _ d d1); [exact H|apply IH].
    + apply (step_ok_download 1 (2 + 3 * remaining) _ _ d
               (failure_end now d (id meeting) (py "navigation")
                            (py "Page load timeout"))).
      * apply failure_end_ok.
      * apply (download_ok_more (3 * remaining)); [lia|]. apply IH.
    + apply (step_ok_download 1 (2 + 3 * remaining) _ _ d
               (failure_end now d (id meeting) (py "navigation") msg)).
      * apply failure_end_ok.
      * apply (download_ok_more (3 * remaining)); [lia|]. apply IH.
Qed.

End DownloadFacts2.

Section DownloadClaims.
Import Py Browser StateFile Downloader.

Lemma download_meeting_ok now lower fs json_loads (pg : page) (meeting : item)
      (d : DownloadState) (max_retries : Z) :
  is_downloaded d (id meeting) = false ->
  download_ok (3 * Z.to_nat max_retries) (id meeting)
    (fst (download_meeting now lower fs json_loads pg meeting d max_retries)) d
    (snd (download_meeting now lower fs json_loads pg meeting d max_retries)).
Proof.
  intros H. unfold download_meeting. rewrite H. apply attempts_ok.
Qed.

(** X4.  Each of the three strategies of [download_meeting] records
    exactly one attempt for the meeting, under its own method name and
    with the time of the call; the flag of the record says whether a
    path was returned.  A success has no error text and leaves the
    meeting downloaded; a failure has an error text and changes neither
    the entries nor the two lists. *)
Theorem each_strategy_records_one_attempt now lower fs json_loads
        (doc : document) (meeting : item) (d : DownloadState) :
  one_attempt now (py "text_extraction") (id meeting) d
              (strategy_text_extraction now lower fs doc meeting d)
  /\ one_attempt now (py "direct_api") (id meeting) d
                 (strategy_direct_api now fs json_loads doc meeting d)
  /\ one_attempt now (py "screenshot") (id meeting) d
                 (strategy_screenshot_fallback now doc meeting d).
Proof.
  split; [|split]; apply ends_well_one_attempt.
  - apply text_extraction_ends_well.
  - apply direct_api_ends_well.
  - apply screenshot_ends_well.
Qed.

Lemma download_meeting_returns now lower fs json_loads (pg : page)
        (meeting : item) (d : DownloadState) (max_retries : Z) :
  let r := download_meeting now lower fs json_loads pg meeting d max_retries in
  (fst r = true <-> is_downloaded (snd r) (id meeting) = true)
  /\ (is_downloaded d (id meeting) = true -> r = (true, d))
  /\ (fst r = false ->
      succeeded (snd r) = succeeded d
      /\ id meeting ∈ given_up (snd r)
      /\ entry (snd r) (id meeting) = meeting_failed None <$> entry d (id meeting)).
Proof.
  intros r. destruct (is_downloaded d (id meeting)) eqn:E.
  - assert (Hr : r = (true, d)).
    { subst r. unfold download_meeting. rewrite E. reflexivity. }
    rewrite Hr. cbn [fst snd]. split; [tauto|]. split; [reflexivity|discriminate].
  - destruct (download_meeting_ok now lower fs json_loads pg meeting d max_retries E)
      as (_ & _ & _ & Ht & Hf).
    fold r in Ht, Hf. split; [|split; [discriminate|]].
    + split; [exact Ht|]. intros Hd.
      destruct (fst r) eqn:Eb; [reflexivity|].
      destruct (Hf eq_refl) as (Hs & _). unfold is_downloaded, succeeded in *.
      rewrite Hs in Hd. congruence.
    + intros Hb. destruct (Hf Hb) as (Hs & Hg & He).
      split; [exact Hs|]. split; [|exact He].
      rewrite Hg. apply elem_of_append_new. tauto.
Qed.

(** X5.  [download_meeting] returns [True] exactly when the meeting is
    downloaded afterwards.  A meeting that is already downloaded is
    skipped: the state is returned as it was.  When [False] is returned
    the list of successes is unchanged, the id is in the list of
    failures and the status of its entry, if it has one, is [Failed]. *)
Theorem download_meeting_verdict now lower fs json_loads (pg : page)
        (meeting : item) (d : DownloadState) (max_retries : Z) :
  let r := download_meeting now lower fs json_loads pg meeting d max_retries in
  (fst r = true <-> is_downloaded (snd r) (id meeting) = true)
  /\ (is_downloaded d (id meeting) = true -> r = (true, d))
  /\ (fst r = false ->
      succeeded (snd r) = succeeded d
      /\ id meeting ∈ given_up (snd r)
      /\ entry (snd r) (id meeting) = meeting_failed None <$> entry d (id meeting)).
Proof. apply download_meeting_returns. Qed.

Lemma download_meeting_others now lower fs json_loads (pg : page)
        (meeting : item) (d : DownloadState) (max_retries : Z) :
  let r := download_meeting now lower fs json_loads pg meeting d max_retries in
  touches_only (id meeting) d (snd r) /\ keeps_successes d (snd r).
Proof.
  intros r. destruct (is_downloaded d (id meeting)) eqn:E.
  - assert (Hr : r = (true, d)).
    { subst r. unfold download_meeting. rewrite E. reflexivity. }
    rewrite Hr. split; [apply touches_only_refl|apply keeps_successes_refl].
  - destruct (download_meeting_ok now lower fs json_loads pg meeting d max_retries E)
      as (T & K & _). split; assumption.
Qed.

(** X6.  [download_meeting] concerns one meeting only: the entries, the
    attempts and the membership in both lists of every other id are as
    before, and no id leaves the list of successes. *)
Theorem download_meeting_isolated now lower fs json_loads (pg : page)
        (meeting : item) (d : DownloadState) (max_retries : Z) :
  let r := download_meeting now lower fs json_loads pg meeting d max_retries in
  touches_only (id meeting) d (snd r) /\ keeps_successes d (snd r).
Proof. apply download_meeting_others. Qed.

(** X7.  The attempts that [download_meeting] records for its meeting
    are appended to the earlier ones, at most three for each of the
    [max_retries] rounds.  When it returns [False] they are all failed
    attempts; when it returns [True] for a meeting that was not yet
    downloaded, the last one is the only successful one. *)
Theorem download_meeting_log now lower fs json_loads (pg : page)
        (meeting : item) (d : DownloadState) (max_retries : Z) :
  let r := download_meeting now lower fs json_loads pg meeting d max_retries in
  exists l,
    attempts_of (snd r) (id meeting) = attempts_of d (id meeting) ++ l
    /\ length l <= 3 * Z.to_nat max_retries
    /\ (is_downloaded d (id meeting) = true -> l = [])
    /\ (is_downloaded d (id meeting) = false -> log_of (fst r) l).
Proof.
  intros r. destruct (is_downloaded d (id meeting)) eqn:E.
  - assert (Hr : r = (true, d)).
    { subst r. unfold download_meeting. rewrite E. reflexivity. }
    rewrite Hr. exists []. rewrite app_nil_r. cbn [fst snd].
    split; [reflexivity|]. split; [simpl; lia|]. split; [reflexivity|discriminate].
  - destruct (download_meeting_ok now lower fs json_loads pg meeting d max_retries E)
      as (_ & _ & (l & A & L & G) & _).
    exists l. split; [exact A|]. split; [exact L|]. split; [discriminate|].
    intros _. exact G.
Qed.

End DownloadClaims.

(** * The loop over the pending meetings and the run *)

Section RunFacts.
Import Py Browser StateFile Downloader.

Variable now : pystr.
Variable lower : pystr -> pystr.
Variable fs : filesystem.
Variable json_loads : pystr -> result json.

Lemma download_meeting_accounts (pg : page) (meeting : item) (d : DownloadState)
      (max_retries : Z) (i : pystr) :
  accounted i d \/ i = id meeting ->
  accounted i (snd (download_meeting now lower fs json_loads pg meeting d max_retries)).
Proof.
  intros H.
  destruct (download_meeting_others now lower fs json_loads pg meeting d max_retries)
    as [T K].
  destruct (download_meeting_returns now lower fs json_loads pg meeting d max_retries)
    as (Hv & _ & Hf).
  cbv zeta in *.
  set (r := download_meeting now lower fs json_loads pg meeting d max_retries) in *.
  destruct (decide (i = id meeting)) as [->|Hne].
  - destruct (fst r) eqn:Eb.
    + left. apply is_downloaded_spec, Hv. reflexivity.
    + right. destruct (Hf eq_refl) as (_ & Hg & _). exact Hg.
  - destruct H as [[H|H]|H]; [| |contradiction].
    + left. apply K, H.
    + right. apply (T i Hne). exact H.
Qed.

Lemma download_all_ok (pg : page) (todo : list item) (n : Z) (d : DownloadState) :
  let r := download_all now lower fs json_loads pg todo n d in
  (n <= fst r <= n + Z.of_nat (length todo))%Z
  /\ keeps_successes d (snd r)
  /\ (forall j, (forall m, m ∈ todo -> id m <> j) -> same_about j d (snd r))
  /\ (forall i, accounted i d \/ i ∈ map id todo -> accounted i (snd r)).
Proof.
  revert n d. induction todo as [|m todo IH]; intros n d.
  - simpl. split; [lia|]. split; [apply keeps_successes_refl|].
    split; [intros j _; unfold same_about; tauto|].
    intros i [H|H]; [exact H|]. simpl in H. apply elem_of_nil in H. destruct H.
  - cbn [download_all].
    pose proof (download_meeting_others now lower fs json_loads pg m d
                  default_max_retries) as [T K].
    pose proof (fun i => download_meeting_accounts pg m d default_max_retries i) as Hacc.
    cbv zeta in T, K.
    destruct (download_meeting now lower fs json_loads pg m d default_max_retries)
      as [b d1]. cbn [snd] in *.
    assert (Hrest : forall n',
      let r := download_all now lower fs json_loads pg todo n' d1 in
      (n' <= fst r <= n' + Z.of_nat (length todo))%Z
      /\ keeps_successes d (snd r)
      /\ (forall j, (forall m0, m0 ∈ m :: todo -> id m0 <> j) -> same_about j d (snd r))
      /\ (forall i, accounted i d \/ i ∈ map id (m :: todo) -> accounted i (snd r))).
    { intros n'. destruct (IH n' d1) as (Hn & Hk & Hs & Ha). cbv zeta in *.
      split; [exact Hn|]. split; [eapply keeps_successes_trans; eassumption|].
      split.
      - intros j Hj.
        assert (Hj1 : id m <> j) by (apply Hj; left).
        destruct (T j (not_eq_sym Hj1)) as (E1 & A1 & S1 & G1).
        destruct (Hs j) as (E2 & A2 & S2 & G2).
        { intros m0 Hm0. apply Hj. right. exact Hm0. }
        unfold same_about. split; [congruence|]. split; [congruence|]. tauto.
      - intros i Hi. apply Ha. simpl in Hi. rewrite elem_of_cons in Hi.
        destruct Hi as [Hi|[Hi|Hi]].
        + left. apply Hacc. left. exact Hi.
        + left. apply Hacc. right. exact Hi.
        + right. exact Hi. }
    destruct b.
    + destruct (Hrest (n + 1)%Z) as (Hn & Hk & Hs & Ha). cbv zeta in *.
      split; [simpl length; lia|]. split; [exact Hk|]. split; [exact Hs|exact Ha].
    + destruct (Hrest n) as (Hn & Hk & Hs & Ha). cbv zeta in *.
      split; [simpl length; lia|]. split; [exact Hk|]. split; [exact Hs|exact Ha].
Qed.

End RunFacts.

(** * Meeting discovery *)

Section DiscoveryFacts.
Import Py Browser StateFile Downloader Config.
Local Open Scope Z_scope.

Lemma is_prefix_spec (n h : pystr) :
  is_prefix n h = true <-> exists rest, h = n ++ rest.
Proof.
  revert h. induction n as [|a n IH]; intros h; simpl.
  - split; [intros _; exists h; reflexivity|reflexivity].
  - destruct h as [|b h].
    + split; [discriminate|]. intros [rest H]. discriminate H.
    + rewrite andb_true_iff, N.eqb_eq, IH. split.
      * intros [-> [rest ->]]. exists rest. reflexivity.
      * intros [rest H]. injection H as -> ->. split; [reflexivity|eauto].
Qed.

Lemma take_while_spec (p : N -> bool) (s : pystr) :
  Forall (fun c => p c = true) (take_while p s)
  /\ exists post, s = take_while p s ++ post
                  /\ forall c post', post = c :: post' -> p c = false.
Proof.
  induction s as [|c s (IH1 & post & IH2 & IH3)]; simpl.
  - split; [constructor|]. exists []. split; [reflexivity|discriminate].
  - destruct (p c) eqn:E.
    + split; [constructor; assumption|]. exists post.
      split; [simpl; f_equal; exact IH2|exact IH3].
    + split; [constructor|]. exists (c :: s). split; [reflexivity|].
      intros d post' H. injection H as <- _. exact E.
Qed.

Lemma search_meeting_id_spec (href run : pystr) :
  search_meeting_id href = Some run ->
  run <> []
  /\ Forall (fun c => is_id_char c = true) run
  /\ exists pre post,
       href = pre ++ py "/u/" ++ run ++ post
       /\ forall c post', post = c :: post' -> is_id_char c = false.
Proof.
  induction href as [|c rest IH]; [discriminate|].
  cbn [search_meeting_id].
  assert (Hrec : search_meeting_id rest = Some run ->
            run <> []
            /\ Forall (fun c => is_id_char c = true) run
            /\ exists pre post,
                 c :: rest = pre ++ py "/u/" ++ run ++ post
                 /\ forall c post', post = c :: post' -> is_id_char c = false).
  { intros H. destruct (IH H) as (Hne & Hall & pre & post & Heq & Hmax).
    split; [exact Hne|]. split; [exact Hall|].
    exists (c :: pre), post.
    split; [rewrite <- app_comm_cons; f_equal; exact Heq|exact Hmax]. }
  destruct (is_prefix (py "/u/") (c :: rest)) eqn:Ep; [|exact Hrec].
  apply is_prefix_spec in Ep. destruct Ep as [tail Htail].
  rewrite Htail. change (drop 3 (py "/u/" ++ tail)) with tail.
  destruct (take_while_spec is_id_char tail) as (Hall & post & Heq & Hmax).
  destruct (take_while is_id_char tail) as [|r0 rs] eqn:Et.
  - rewrite <- Htail. exact Hrec.
  - intros H. injection H as <-. split; [discriminate|]. split; [exact Hall|].
    exists [], post. split; [|exact Hmax]. simpl. simpl in Heq. rewrite Heq at 1.
    reflexivity.
Qed.

Lemma slice_to_length_le {A} (n : Z) (s : list A) :
  0 <= n -> (length (slice_to n s) <= Z.to_nat n)%nat.
Proof.
  intros H. unfold slice_to. destruct (0 <=? n) eqn:E; [|lia].
  rewrite length_take. lia.
Qed.

Lemma slice_to_not_empty {A} (n : Z) (s : list A) :
  0 < n -> s <> [] -> slice_to n s <> [].
Proof.
  intros H Hs. unfold slice_to. destruct (0 <=? n) eqn:E; [|lia].
  destruct s as [|x s]; [contradiction|].
  destruct (Z.to_nat n) eqn:En; [lia|]. discriminate.
Qed.

End DiscoveryFacts.

Section DiscoveryClaims.
Import Py Browser StateFile Downloader Config.
Local Open Scope Z_scope.

Lemma default_title_not_empty (meeting_id : pystr) : default_title meeting_id <> [].
Proof.
  unfold default_title. intros H. apply (f_equal length) in H.
  rewrite length_app in H. simpl in H. lia.
Qed.

Lemma link_item_shape (link : element) (m : item) :
  link_item link = Some m ->
  10 <= len (id m)
  /\ Forall (fun c => is_id_char c = true) (id m)
  /\ title m <> [] /\ len (title m) <= 100
  /\ url m = OTTER_BASE_URL ++ py "/u/" ++ id m
  /\ exists href pre post,
       get_href link = Ok (Some href)
       /\ href = pre ++ py "/u/" ++ id m ++ post
       /\ forall c post', post = c :: post' -> is_id_char c = false.
Proof.
  unfold link_item.
  destruct (get_href link) as [[href|]|e]; try discriminate.
  destruct (truthy href && contains (py "/u/") href); [|discriminate].
  destruct (search_meeting_id href) as [meeting_id|] eqn:Es; [|discriminate].
  destruct (len meeting_id <? 10) eqn:El; [discriminate|].
  apply Z.ltb_ge in El.
  destruct (search_meeting_id_spec href meeting_id Es)
    as (_ & Hall & pre & post & Heq & Hmax).
  set (t := match inner_text link with
            | Ok t =>
                if negb (truthy (strip is_space t)) || (len (strip is_space t) <? 2)
                then default_title meeting_id else strip is_space t
            | Raise _ => default_title meeting_id
            end).
  assert (Ht : t <> []).
  { subst t. destruct (inner_text link) as [t0|e];
      [|apply default_title_not_empty].
    destruct (negb (truthy (strip is_space t0)) || (len (strip is_space t0) <? 2))
      eqn:E; [apply default_title_not_empty|].
    apply orb_false_iff in E. destruct E as [E _].
    apply negb_false_iff in E. intros H. rewrite H in E. discriminate E. }
  intros H. injection H as <-. cbn [id title url].
  split; [exact El|]. split; [exact Hall|].
  split; [apply slice_to_not_empty; [lia|exact Ht]|].
  split.
  - unfold len. pose proof (slice_to_length_le 100 t ltac:(lia)). lia.
  - split; [reflexivity|]. exists href, pre, post. tauto.
Qed.

(** X8.  A link of the listing yields a meeting only with an id of at
    least 10 characters, all of them letters, digits, underscore or
    hyphen, taken from the [href] right after an occurrence of [/u/]
    and running as far as such characters go; its title is not empty
    and has at most 100 characters, and its URL is the base URL, [/u/]
    and the id. *)
Theorem discovered_item_shape (link : element) (m : item) :
  link_item link = Some m ->
  10 <= len (id m)
  /\ Forall (fun c => is_id_char c = true) (id m)
  /\ title m <> [] /\ len (title m) <= 100
  /\ url m = OTTER_BASE_URL ++ py "/u/" ++ id m
  /\ exists href pre post,
       get_href link = Ok (Some href)
       /\ href = pre ++ py "/u/" ++ id m ++ post
       /\ forall c post', post = c :: post' -> is_id_char c = false.
Proof. apply link_item_shape. Qed.

Lemma discovered_item_shape_witness :
  10 <= len id_done
  /\ Forall (fun c => is_id_char c = true) id_done
  /\ py "Standup" <> [] /\ len (py "Standup") <= 100
  /\ OTTER_BASE_URL ++ py "/u/" ++ id_done = OTTER_BASE_URL ++ py "/u/" ++ id_done
  /\ exists href pre post,
       get_href (link_to id_done (py "Standup")) = Ok (Some href)
       /\ href = pre ++ py "/u/" ++ id_done ++ post
       /\ forall c post', post = c :: post' -> is_id_char c = false.
Proof.
  exact (discovered_item_shape (link_to id_done (py "Standup"))
           {| id := id_done; title := py "Standup";
              url := OTTER_BASE_URL ++ py "/u/" ++ id_done |} eq_refl).
Defined.

Lemma id_char_plain (c : N) : is_id_char c = true -> plain_char c.
Proof.
  unfold is_id_char, plain_char, in_class, illegal_chars, is_space.
  rewrite !orb_true_iff, !andb_true_iff, !N.leb_le, !N.eqb_eq.
  intros H. cbn [existsb].
  rewrite !orb_false_iff, !andb_false_iff, !N.leb_gt, !N.eqb_neq.
  lia.
Qed.

End DiscoveryClaims.

Section DiscoveryFacts2.
Import Py Browser StateFile Downloader Config.
Local Open Scope Z_scope.

Variable now : pystr.

Lemma elem_of_ids_of (j : pystr) (l : list item) :
  j ∈ ids_of l <-> exists m, m ∈ l /\ id m = j.
Proof.
  unfold ids_of. rewrite list_elem_of_In, in_map_iff.
  split; intros (m & H1 & H2).
  - exists m. rewrite list_elem_of_In. split; assumption.
  - exists m. rewrite <- list_elem_of_In. split; assumption.
Qed.

Lemma already_listed_spec (j : pystr) (found : list item) :
  already_listed j found = true <-> j ∈ ids_of found.
Proof.
  unfold already_listed. rewrite existsb_exists, elem_of_ids_of.
  split; intros (m & H1 & H2); exists m.
  - apply bool_decide_eq_true in H2. rewrite list_elem_of_In. split; assumption.
  - rewrite <- list_elem_of_In. split; [exact H1|].
    apply bool_decide_eq_true. exact H2.
Qed.

Lemma ids_of_app (a b : list item) : ids_of (a ++ b) = ids_of a ++ ids_of b.
Proof. apply map_app. Qed.

Lemma collect_links_spec (links : list element) (found : list item)
      (d : DownloadState) :
  NoDup (ids_of found) ->
  exists more,
    fst (collect_links now links found d) = found ++ more
    /\ NoDup (ids_of (found ++ more))
    /\ (forall m, m ∈ more ->
          exists link, link ∈ links /\ link_item link = Some m)
    /\ (forall link m, link ∈ links -> link_item link = Some m ->
          id m ∈ ids_of (found ++ more))
    /\ (forall m, m ∈ more ->
          registered now d (snd (collect_links now links found d)) m)
    /\ (forall j, j ∉ ids_of more ->
          entry (snd (collect_links now links found d)) j = entry d j)
    /\ succeeded (snd (collect_links now links found d)) = succeeded d
    /\ given_up (snd (collect_links now links found d)) = given_up d
    /\ (forall j, attempts_of (snd (collect_links now links found d)) j
                  = attempts_of d j).
Proof.
  revert found d. induction links as [|link rest IH]; intros found d Hnd.
  - exists []. simpl. rewrite app_nil_r.
    split; [reflexivity|]. split; [exact Hnd|].
    split; [intros m H; inversion H|].
    split; [intros l m H; inversion H|].
    split; [intros m H; inversion H|].
    split; [reflexivity|]. split; [reflexivity|]. split; reflexivity.
  - cbn [collect_links]. destruct (link_item link) as [m|] eqn:El.
    + destruct (already_listed (id m) found) eqn:Ea.
      * destruct (IH found d Hnd)
          as (more & H1 & H2 & H3 & H4 & H5 & H6 & H7 & H8 & H9).
        exists more. split; [exact H1|]. split; [exact H2|].
        split.
        { intros m0 Hm0. destruct (H3 m0 Hm0) as (l & Hl & E).
          exists l. split; [apply elem_of_cons; right; exact Hl|exact E]. }
        split.
        { intros l m0 Hl E. apply elem_of_cons in Hl.
          destruct Hl as [->|Hl]; [|exact (H4 l m0 Hl E)].
          rewrite El in E. injection E as <-.
          rewrite ids_of_app. apply elem_of_app. left.
          apply already_listed_spec, Ea. }
        split; [exact H5|]. split; [exact H6|].
        split; [exact H7|]. split; [exact H8|exact H9].
      * assert (Hnot : id m ∉ ids_of found).
        { intros H. apply already_listed_spec in H. congruence. }
        assert (Hnd1 : NoDup (ids_of (found ++ [m]))).
        { rewrite ids_of_app. apply NoDup_app. split; [exact Hnd|].
          split; [|apply NoDup_singleton].
          intros x Hx Hx'. apply list_elem_of_singleton in Hx'.
          subst x. exact (Hnot Hx). }
        destruct (IH (found ++ [m])
                    (register_meeting now d (id m) (title m) (url m)) Hnd1)
          as (more & H1 & H2 & H3 & H4 & H5 & H6 & H7 & H8 & H9).
        set (d1 := register_meeting now d (id m) (title m) (url m)) in *.
        set (r := collect_links now rest (found ++ [m]) d1) in *.
        assert (Happ : (found ++ [m]) ++ more = found ++ m :: more).
        { rewrite <- app_assoc. reflexivity. }
        rewrite Happ in H1, H2, H4.
        assert (Hfresh : (id m ∉ ids_of more)
                         /\ forall m0, m0 ∈ more -> id m0 <> id m).
        { rewrite ids_of_app in H2. apply NoDup_app in H2.
          destruct H2 as (_ & _ & H2). change (ids_of (m :: more))
            with (id m :: ids_of more) in H2.
          apply NoDup_cons in H2. destruct H2 as [H2 _].
          split; [exact H2|]. intros m0 Hm0 E. apply H2.
          apply elem_of_ids_of. exists m0. split; assumption. }
        destruct Hfresh as [Hf1 Hf2].
        exists (m :: more). split; [exact H1|]. split; [exact H2|].
        split.
        { intros m0 Hm0. apply elem_of_cons in Hm0.
          destruct Hm0 as [->|Hm0].
          - exists link. split; [apply elem_of_cons; left; reflexivity|exact El].
          - destruct (H3 m0 Hm0) as (l & Hl & E).
            exists l. split; [apply elem_of_cons; right; exact Hl|exact E]. }
        split.
        { intros l m0 Hl E. apply elem_of_cons in Hl.
          destruct Hl as [->|Hl]; [|exact (H4 l m0 Hl E)].
          rewrite El in E. injection E as <-.
          rewrite ids_of_app. apply elem_of_app. right.
          apply elem_of_cons. left. reflexivity. }
        split.
        { intros m0 Hm0. apply elem_of_cons in Hm0. unfold registered.
          destruct Hm0 as [->|Hm0].
          - rewrite (H6 (id m) Hf1). unfold d1. rewrite entry_register.
            destruct (entry d (id m)) eqn:E; [reflexivity|].
            rewrite bool_decide_eq_true_2 by reflexivity. reflexivity.
          - pose proof (H5 m0 Hm0) as H. unfold registered in H.
            rewrite H. f_equal.
            assert (E : entry d1 (id m0) = entry d (id m0)).
            { apply (touches_only_register now d (id m) (title m) (url m)).
              apply Hf2, Hm0. }
            rewrite E. reflexivity. }
        split.
        { intros j Hj.
          assert (Hj1 : j <> id m).
          { intros ->. apply Hj. apply elem_of_cons. left. reflexivity. }
          assert (Hj2 : j ∉ ids_of more).
          { intros H. apply Hj. apply elem_of_cons. right. exact H. }
          rewrite (H6 j Hj2).
          apply (touches_only_register now d (id m) (title m) (url m)), Hj1. }
        split; [rewrite H7; apply succeeded_register|].
        split; [rewrite H8; apply given_up_register|].
        intros j. rewrite H9. apply attempts_of_register.
    + destruct (IH found d Hnd)
        as (more & H1 & H2 & H3 & H4 & H5 & H6 & H7 & H8 & H9).
      exists more. split; [exact H1|]. split; [exact H2|].
      split.
      { intros m0 Hm0. destruct (H3 m0 Hm0) as (l & Hl & E).
        exists l. split; [apply elem_of_cons; right; exact Hl|exact E]. }
      split.
      { intros l m0 Hl E. apply elem_of_cons in Hl.
        destruct Hl as [->|Hl]; [|exact (H4 l m0 Hl E)].
        rewrite El in E. discriminate E. }
      split; [exact H5|]. split; [exact H6|].
      split; [exact H7|]. split; [exact H8|exact H9].
Qed.

End DiscoveryFacts2.

Section DiscoveryClaims2.
Import Py Browser StateFile Downloader Config.
Local Open Scope Z_scope.

Variable now : pystr.

Lemma extract_meeting_info_spec
        (page : document) (links : list element) (d : DownloadState) :
  query_selector_all page link_selector = Ok links ->
  exists found d',
    extract_meeting_info now page d = Ok (found, d')
    /\ NoDup (ids_of found)
    /\ (forall m, m ∈ found ->
          exists link, link ∈ links /\ link_item link = Some m)
    /\ (forall link m, link ∈ links -> link_item link = Some m ->
          id m ∈ ids_of found)
    /\ (forall m, m ∈ found -> registered now d d' m)
    /\ (forall j, j ∉ ids_of found -> entry d' j = entry d j)
    /\ keeps_entries d d'
    /\ succeeded d' = succeeded d /\ given_up d' = given_up d
    /\ (forall j, attempts_of d' j = attempts_of d j)
    /\ total_meetings_found (state d') = Z.of_nat (length found)
    /\ state_file d' = Some (state d').
Proof.
  intros Hq. unfold extract_meeting_info. rewrite Hq.
  destruct (collect_links_spec now links [] d (NoDup_nil_2))
    as (more & H1 & H2 & H3 & H4 & H5 & H6 & H7 & H8 & H9).
  destruct (collect_links now links [] d) as [found d0] eqn:E.
  cbn [fst snd] in *. cbn [app] in *. subst more.
  eexists _, _. split; [reflexivity|].
  split; [exact H2|]. split; [exact H3|]. split; [exact H4|].
  split; [exact H5|]. split; [exact H6|].
  split.
  { intros j e Hj.
    destruct (decide (j ∈ ids_of found)) as [Hin|Hout].
    - apply elem_of_ids_of in Hin. destruct Hin as (m & Hm & <-).
      pose proof (H5 m Hm) as H. unfold registered in H.
      rewrite Hj in H. exact H.
    - change (entry d0 j = Some e). rewrite (H6 j Hout). exact Hj. }
  split; [exact H7|]. split; [exact H8|]. split; [exact H9|].
  split; reflexivity.
Qed.

(** X9.  When the listing answers the query for its links,
    [extract_meeting_info] returns: the meetings it returns have
    distinct ids, each comes from a link, and every link that yields a
    meeting has its id among them; each returned meeting is registered
    (its entry is the one it had, or a new pending one with its title
    and URL), every other entry is as before, the two lists and the
    attempts are untouched, the count of meetings found is the length
    of the result, and the state is on disk. *)
Theorem discovery_registers_each_meeting_once
        (page : document) (links : list element) (d : DownloadState) :
  query_selector_all page link_selector = Ok links ->
  exists found d',
    extract_meeting_info now page d = Ok (found, d')
    /\ NoDup (ids_of found)
    /\ (forall m, m ∈ found ->
          exists link, link ∈ links /\ link_item link = Some m)
    /\ (forall link m, link ∈ links -> link_item link = Some m ->
          id m ∈ ids_of found)
    /\ (forall m, m ∈ found -> registered now d d' m)
    /\ (forall j, j ∉ ids_of found -> entry d' j = entry d j)
    /\ keeps_entries d d'
    /\ succeeded d' = succeeded d /\ given_up d' = given_up d
    /\ (forall j, attempts_of d' j = attempts_of d j)
    /\ total_meetings_found (state d') = Z.of_nat (length found)
    /\ state_file d' = Some (state d').
Proof. apply extract_meeting_info_spec. Qed.

End DiscoveryClaims2.

Section DiscoveryExamples.
Import Py Browser StateFile Downloader Config.
Local Open Scope Z_scope.

Lemma discovery_registers_each_meeting_once_witness :
  exists found d',
    extract_meeting_info clock listing_page (new_DownloadState None)
    = Ok (found, d')
    /\ NoDup (ids_of found)
    /\ total_meetings_found (state d') = Z.of_nat (length found)
    /\ state_file d' = Some (state d').
Proof.
  destruct (discovery_registers_each_meeting_once clock listing_page
              [link_to id_done (py "Standup"); link_to id_failed (py "Retro")]
              (new_DownloadState None) eq_refl)
    as (found & d' & H1 & H2 & _ & _ & _ & _ & _ & _ & _ & _ & H3 & H4).
  exists found, d'. split; [exact H1|]. split; [exact H2|].
  split; [exact H3|exact H4].
Defined.

End DiscoveryExamples.

Section FileNameClaims.
Import Py Browser StateFile Downloader Config.

Lemma slice_to_length_ge {A} (n : Z) (s : list A) (k : nat) :
  (Z.of_nat k <= n)%Z -> k <= length s -> k <= length (slice_to n s).
Proof.
  intros Hn Hk. unfold slice_to. destruct (0 <=? n)%Z eqn:E; [|lia].
  rewrite length_take. lia.
Qed.

(** X10.  The text file of a meeting found in the listing has a clean
    name: no character of the illegal class and no whitespace, between
    15 and 100 characters, whatever the title shown by the page. *)
Theorem discovered_file_name_is_clean (link : element) (m : item) :
  link_item link = Some m ->
  Forall plain_char (text_filename m)
  /\ 15 <= length (text_filename m) <= 100
  /\ text_path m = in_download_dir (text_filename m).
Proof.
  intros H. destruct (link_item_shape link m H) as (Hlen & Hid & _).
  unfold text_filename. split; [|split; [|reflexivity]].
  - apply Forall_app. split; [apply downloader_sanitize_plain|].
    apply Forall_app. split.
    { apply Forall_cons. split; [apply underscore_plain|apply Forall_nil_2]. }
    apply Forall_app. split.
    + apply Forall_slice_to. eapply Forall_impl; [exact Hid|].
      intros c Hc. apply id_char_plain, Hc.
    + repeat (apply Forall_cons; split;
              [split; vm_compute; reflexivity|]).
      apply Forall_nil_2.
  - pose proof (sanitized_short _ _ _
                  (downloader_sanitize_sanitized (title m))) as Hs.
    pose proof (slice_to_length_le 15 (id m) ltac:(lia)) as Hu.
    assert (Hl : 10 <= length (slice_to 15 (id m))).
    { apply slice_to_length_ge; [lia|]. unfold len in Hlen. lia. }
    rewrite !length_app. simpl length. lia.
Qed.

Lemma discovered_file_name_is_clean_witness :
  Forall plain_char
    (text_filename
       {| id := id_done; title := py "Standup";
          url := OTTER_BASE_URL ++ py "/u/" ++ id_done |}).
Proof.
  exact (proj1 (discovered_file_name_is_clean
                  (link_to id_done (py "Standup"))
                  {| id := id_done; title := py "Standup";
                     url := OTTER_BASE_URL ++ py "/u/" ++ id_done |} eq_refl)).
Defined.

End FileNameClaims.

Section RunClaims.
Import Py Browser StateFile Downloader Config.
Local Open Scope Z_scope.

Variable now : pystr.
Variable lower : pystr -> pystr.
Variable fs : filesystem.
Variable json_loads : pystr -> result json.

(** X11.  The loop of [run_download] over the pending meetings counts
    at most one success for each meeting, never takes an id out of the
    list of successes, changes nothing about an id that is not in its
    list, and leaves each meeting of its list in the list of successes
    or in the list of failures. *)
Theorem download_loop_accounts_for_every_meeting
        (pg : page) (todo : list item) (d : DownloadState) :
  let r := download_all now lower fs json_loads pg todo 0 d in
  0 <= fst r <= Z.of_nat (length todo)
  /\ keeps_successes d (snd r)
  /\ (forall j, j ∉ ids_of todo -> same_about j d (snd r))
  /\ (forall m, m ∈ todo -> accounted (id m) (snd r)).
Proof.
  destruct (download_all_ok now lower fs json_loads pg todo 0 d)
    as (Hn & Hk & Hs & Ha).
  cbv zeta in *. split; [lia|]. split; [exact Hk|]. split.
  - intros j Hj. apply Hs. intros m Hm E. apply Hj.
    apply elem_of_ids_of. exists m. split; assumption.
  - intros m Hm. apply Ha. right.
    apply (elem_of_ids_of (id m) todo). exists m. split; [exact Hm|reflexivity].
Qed.

Lemma elem_of_not_downloaded (d : DownloadState) (l : list item) (m : item) :
  m ∈ not_downloaded d l -> is_downloaded d (id m) = false.
Proof.
  unfold not_downloaded. rewrite list_elem_of_In, filter_In.
  intros [_ H]. apply negb_true_iff in H. exact H.
Qed.

Lemma discover_and_download_alone (a : run_args) (w : run_world)
      (d : DownloadState) (j : pystr) :
  j ∈ succeeded d ->
  let d' := snd (discover_and_download now lower fs json_loads a w d) in
  j ∈ succeeded d'
  /\ attempts_of d' j = attempts_of d j
  /\ (j ∈ given_up d' <-> j ∈ given_up d)
  /\ (forall e, entry d j = Some e -> entry d' j = Some e).
Proof.
  intros Hj. cbv zeta. unfold discover_and_download.
  destruct (query_selector_all (listing w) link_selector) as [links|e] eqn:Eq.
  - destruct (extract_meeting_info_spec now (listing w) links d Eq)
      as (found & d1 & E & _ & _ & _ & _ & _ & Hk & Hs & Hg & Ha & _ & _).
    rewrite E.
    assert (H1 : j ∈ succeeded d1
                 /\ attempts_of d1 j = attempts_of d j
                 /\ (j ∈ given_up d1 <-> j ∈ given_up d)
                 /\ (forall e, entry d j = Some e -> entry d1 j = Some e)).
    { rewrite Hs, Hg, Ha. split; [exact Hj|]. split; [reflexivity|].
      split; [tauto|]. intros e. apply Hk. }
    destruct found as [|m0 found0]; [exact H1|].
    set (found := m0 :: found0) in *.
    destruct (not_downloaded d1 (limited a found)) as [|t0 todo0] eqn:Et;
      [exact H1|].
    set (todo := t0 :: todo0) in *.
    destruct (download_all_ok now lower fs json_loads (the_page w) todo 0 d1)
      as (_ & Hk2 & Hs2 & _).
    cbv zeta in *.
    destruct (download_all now lower fs json_loads (the_page w) todo 0 d1)
      as [n d2]. cbn [fst snd] in *.
    destruct H1 as (S1 & A1 & G1 & E1).
    destruct (Hs2 j) as (E2 & A2 & S2 & G2).
    { intros m Hm Eid. rewrite <- Et in Hm.
      apply elem_of_not_downloaded in Hm. rewrite Eid in Hm.
      apply is_downloaded_spec in S1. congruence. }
    unfold final_report. cbn [snd].
    split; [exact (Hk2 j S1)|].
    split; [exact (eq_trans A2 A1)|].
    split; [exact (iff_trans G2 G1)|].
    intros e He. exact (eq_trans E2 (E1 e He)).
  - assert (E : extract_meeting_info now (listing w) d = Raise e).
    { unfold extract_meeting_info. rewrite Eq. reflexivity. }
    rewrite E. cbn [snd]. split; [exact Hj|]. split; [reflexivity|].
    split; [reflexivity|]. intros e0 H. exact H.
Qed.

Lemma run_download_alone (a : run_args) (w : run_world) (j : pystr) :
  reset a = false ->
  j ∈ succeeded (new_DownloadState (found_file w)) ->
  j ∈ succeeded (snd (run_download now lower fs json_loads a w))
  /\ attempts_of (snd (run_download now lower fs json_loads a w)) j
     = attempts_of (new_DownloadState (found_file w)) j
  /\ (j ∈ given_up (snd (run_download now lower fs json_loads a w))
      <-> j ∈ given_up (new_DownloadState (found_file w)))
  /\ (forall e, entry (new_DownloadState (found_file w)) j = Some e ->
        entry (snd (run_download now lower fs json_loads a w)) j = Some e).
Proof.
  intros Hr Hj. unfold run_download. rewrite Hr.
  set (d := new_DownloadState (found_file w)) in *.
  destruct (the_session w) as [e| | |still].
  - cbn [snd]. split; [exact Hj|]. split; [reflexivity|].
    split; [reflexivity|]. intros e0 H. exact H.
  - apply discover_and_download_alone, Hj.
  - cbn [snd]. split; [exact Hj|]. split; [reflexivity|].
    split; [reflexivity|]. intros e0 H. exact H.
  - set (d1 := save now (with_state (set_session_created (Some now)) d)).
    destruct still.
    + cbn [snd]. split; [exact Hj|]. split; [reflexivity|].
      split; [reflexivity|]. intros e0 H. exact H.
    + apply (discover_and_download_alone a w d1 j Hj).
Qed.

End RunClaims.

Section RunClaims2.
Import Py Browser StateFile Downloader Config.
Local Open Scope Z_scope.

(** X12.  A run without [--reset] leaves a downloaded meeting alone:
    an id that the state file lists as a success is still listed at the
    end of the run, no attempt is recorded for it, its membership in the
    list of failures is as before, and its entry, if it has one, is
    unchanged. *)
Theorem run_leaves_downloaded_meetings_alone now lower fs json_loads
        (a : run_args) (w : run_world) (j : pystr) :
  reset a = false ->
  j ∈ succeeded (new_DownloadState (found_file w)) ->
  j ∈ succeeded (snd (run_download now lower fs json_loads a w))
  /\ attempts_of (snd (run_download now lower fs json_loads a w)) j
     = attempts_of (new_DownloadState (found_file w)) j
  /\ (j ∈ given_up (snd (run_download now lower fs json_loads a w))
      <-> j ∈ given_up (new_DownloadState (found_file w)))
  /\ (forall e, entry (new_DownloadState (found_file w)) j = Some e ->
        entry (snd (run_download now lower fs json_loads a w)) j = Some e).
Proof. apply run_download_alone. Qed.

Lemma run_leaves_downloaded_meetings_alone_witness :
  id_done ∈ succeeded
    (snd (run_download clock ascii_lower disk_ok loads_state
            everything later_world))
  /\ attempts_of
       (snd (run_download clock ascii_lower disk_ok loads_state
               everything later_world)) id_done
     = attempts_of (new_DownloadState (found_file later_world)) id_done.
Proof.
  assert (H : id_done ∈ succeeded (new_DownloadState (found_file later_world))).
  { apply is_downloaded_spec. vm_compute. reflexivity. }
  destruct (run_leaves_downloaded_meetings_alone clock ascii_lower disk_ok
              loads_state everything later_world id_done eq_refl H)
    as (H1 & H2 & _).
  split; [exact H1|exact H2].
Defined.

End RunClaims2.


(** * The search for a transcript in the client-side state *)

Section JsonFacts.
Import Py Browser StateFile Downloader Config.
Local Open Scope Z_scope.

Lemma json_nested_ind (P : json -> Prop) :
  P JNull -> (forall b, P (JBool b)) -> (forall z, P (JNumber z)) ->
  (forall s, P (JString s)) ->
  (forall l, Forall P l -> P (JList l)) ->
  (forall kv, Forall (fun p => P (snd p)) kv -> P (JDict kv)) ->
  forall j, P j.
Proof.
  intros Hn Hb Hz Hs Hl Hd. fix IH 1. intros [ |b|z|s|l|kv].
  - exact Hn.
  - apply Hb.
  - apply Hz.
  - apply Hs.
  - apply Hl. induction l as [|x l IHl]; constructor; [apply IH|exact IHl].
  - apply Hd. induction kv as [|x kv IHkv]; constructor; [apply IH|exact IHkv].
Qed.

Lemma extract_transcript_from_data_deep (data : json) (depth : Z) :
  10 < depth -> extract_transcript_from_data data depth = None.
Proof.
  intros H. apply Z.ltb_lt in H.
  destruct data; simpl; rewrite H; reflexivity.
Qed.

Lemma join_length_ge (sep p : pystr) (ps : list pystr) :
  (length p <= length (join sep (p :: ps)))%nat.
Proof.
  destruct ps as [|q ps]; simpl; [lia|]. rewrite length_app. lia.
Qed.

Lemma extract_transcript_from_data_long (data : json) :
  forall depth r,
    extract_transcript_from_data data depth = Some r -> 200 < len r.
Proof.
  induction data as [ |b|z|s|l IH|kv IH] using json_nested_ind;
    intros depth r; with_strategy opaque [transcript_keys] simpl;
    destruct (10 <? depth); try discriminate.
  - destruct (200 <? len s) eqn:E; [|discriminate].
    intros [= <-]. apply Z.ltb_lt, E.
  - match goal with
    | |- match ?T with [] => _ | _ :: _ => _ end = _ -> _ =>
        assert (HT : Forall (fun t => 200 < len t) T)
    end.
    { clear r. induction IH as [|x l Hx _ IHl]; [constructor|].
      destruct (extract_transcript_from_data x (depth + 1)) as [t|] eqn:E;
        [|exact IHl].
      destruct (truthy t); [|exact IHl].
      constructor; [exact (Hx _ _ E)|exact IHl]. }
    match goal with
    | |- match ?T with [] => _ | _ :: _ => _ end = _ -> _ =>
        destruct T as [|t ts]; [discriminate|]
    end.
    intros [= <-]. apply Forall_cons in HT. destruct HT as [Ht _].
    pose proof (join_length_ge [newline] t ts) as Hj.
    change (200 < len (join [newline] (t :: ts))). unfold len in *. lia.
  - generalize transcript_keys. intros ks.
    match goal with
    | |- match ?K with Some _ => _ | None => ?V end = _ -> _ =>
        assert (HV : forall r, V = Some r -> 200 < len r);
        [|assert (HK : forall r, K = Some r -> 200 < len r)]
    end.
    { clear r. induction IH as [|[k v] l Hx _ IHl]; intros r;
        [discriminate|].
      cbn [snd] in Hx.
      destruct (extract_transcript_from_data v (depth + 1)) as [t|] eqn:E;
        [|apply IHl].
      destruct (truthy t && (200 <? len t)) eqn:E2; [|apply IHl].
      intros [= <-]. exact (Hx _ _ E). }
    { clear r HV. induction ks as [|key ks IHks]; intros r; [discriminate|].
      match goal with
      | |- match ?L with Some _ => _ | None => _ end = _ -> _ =>
          assert (HL : forall t, L = Some (Some t) -> 200 < len t)
      end.
      { clear r IHks. induction IH as [|[k v] l Hx _ IHl]; intros t;
          [discriminate|].
        cbn [snd] in Hx. destruct (bool_decide (k = key)); [|apply IHl].
        intros [= E]. exact (Hx _ _ E). }
      match goal with
      | |- match ?L with Some _ => _ | None => _ end = _ -> _ =>
          destruct L as [[t|]|]
      end; [|apply IHks|apply IHks].
      destruct (truthy t); [|apply IHks].
      intros [= <-]. apply HL. reflexivity. }
    match goal with
    | |- match ?K with Some _ => _ | None => _ end = _ -> _ =>
        destruct K as [t|] eqn:EK
    end.
    + intros [= <-]. apply HK. reflexivity.
    + apply HV.
Qed.

(** X15.  Whatever [extract_transcript_from_data] finds is longer than
    200 characters, and it finds nothing below ten levels of nesting:
    the test on the length that [strategy_direct_api] makes afterwards
    never fails. *)
Theorem found_transcript_is_long (data : json) (depth : Z) (r : pystr) :
  extract_transcript_from_data data depth = Some r ->
  depth <= 10 /\ 200 < len r
  /\ (truthy r && (100 <? len r)) = true.
Proof.
  intros H.
  pose proof (extract_transcript_from_data_long data depth r H) as Hl.
  split.
  - destruct (Z_lt_le_dec 10 depth) as [Hd|Hd]; [|exact Hd].
    rewrite (extract_transcript_from_data_deep data depth Hd) in H.
    discriminate H.
  - split; [exact Hl|]. apply andb_true_iff. split.
    + destruct r; [unfold len in Hl; simpl in Hl; lia|reflexivity].
    + apply Z.ltb_lt. lia.
Qed.

Lemma found_transcript_is_long_witness :
  0 <= 10 /\ 200 < len (repeat_char 97%N 201)
  /\ (truthy (repeat_char 97%N 201) && (100 <? len (repeat_char 97%N 201))) = true.
Proof.
  exact (found_transcript_is_long
           (JDict [(py "speech", JList [JString (repeat_char 97%N 201)])])
           0 (repeat_char 97%N 201) eq_refl).
Defined.

End JsonFacts.

Section DirectApiClaim.
Import Py Browser StateFile Downloader Config.
Local Open Scope Z_scope.

Lemma truthy_and_longer (s : pystr) (n : Z) :
  0 <= n -> (truthy s && (n <? len s) = true <-> n < len s).
Proof.
  intros Hn. rewrite andb_true_iff, Z.ltb_lt. split; [tauto|].
  intros H. split; [|exact H].
  destruct s; [unfold len in H; simpl in H; lia|reflexivity].
Qed.

(** X16.  [strategy_direct_api] returns a path exactly when the page
    hands over a serialized state of more than 1000 characters that
    [json.loads] parses, [extract_transcript_from_data] finds a text in
    it, and the file is written; the path is then the text file of the
    meeting and the file holds the header followed by that text. *)
Theorem direct_api_succeeds_iff now (fs : filesystem)
        (json_loads : pystr -> result json)
        (doc : document) (meeting : item) (d : DownloadState) :
  (is_Some (fst (strategy_direct_api now fs json_loads doc meeting d)) <->
   exists result data text sz,
     evaluate doc state_script = Ok (Some result)
     /\ 1000 < len result
     /\ json_loads result = Ok data
     /\ extract_transcript_from_data data 0 = Some text
     /\ write_text fs (text_path meeting)
          (file_header now meeting (py "direct_api") ++ text) = Ok sz)
  /\ (forall path,
        fst (strategy_direct_api now fs json_loads doc meeting d) = Some path ->
        path = text_path meeting).
Proof.
  unfold strategy_direct_api. cbv zeta.
  destruct (evaluate doc state_script) as [[result|]|e] eqn:Ee.
  2:{ split; [|discriminate]. split; [intros [x H]; discriminate H|].
      intros (r & _ & _ & _ & H & _). discriminate H. }
  2:{ split; [|discriminate]. split; [intros [x H]; discriminate H|].
      intros (r & _ & _ & _ & H & _). discriminate H. }
  destruct (truthy result && (1000 <? len result)) eqn:El.
  2:{ split; [|discriminate]. split; [intros [x H]; discriminate H|].
      intros (r & _ & _ & _ & H & Hl & _). injection H as <-.
      apply (proj2 (truthy_and_longer result 1000 ltac:(lia))) in Hl.
      congruence. }
  apply (proj1 (truthy_and_longer result 1000 ltac:(lia))) in El.
  destruct (json_loads result) as [data|e] eqn:Ej.
  2:{ split; [|discriminate]. split; [intros [x H]; discriminate H|].
      intros (r & dt & _ & _ & H & _ & Hj & _). injection H as <-.
      rewrite Ej in Hj. discriminate Hj. }
  destruct (extract_transcript_from_data data 0) as [text|] eqn:Ex.
  2:{ split; [|discriminate]. split; [intros [x H]; discriminate H|].
      intros (r & dt & tx & _ & H & _ & Hj & Hx & _). injection H as <-.
      rewrite Ej in Hj. injection Hj as <-. rewrite Ex in Hx. discriminate Hx. }
  pose proof (extract_transcript_from_data_long data 0 text Ex) as Hlong.
  assert (Ht : truthy text && (100 <? len text) = true).
  { apply truthy_and_longer; lia. }
  rewrite Ht.
  destruct (write_text fs (text_path meeting)
              (file_header now meeting (py "direct_api") ++ text))
    as [sz|e] eqn:Ew.
  - split.
    + split; [|intros _; eexists; reflexivity].
      intros _. exists result, data, text, sz. tauto.
    + intros path [= <-]. reflexivity.
  - split; [|discriminate]. split; [intros [x H]; discriminate H|].
    intros (r & dt & tx & sz & H & _ & Hj & Hx & Hw). injection H as <-.
    rewrite Ej in Hj. injection Hj as <-. rewrite Ex in Hx.
    injection Hx as <-. rewrite Ew in Hw. discriminate Hw.
Qed.

End DirectApiClaim.

(** * The program as a history of calls on the ledger *)

Section HistoryFacts.
Import Py Browser StateFile Downloader.

Lemma run_ops_app (a b : list ledger_op) (d : DownloadState) :
  run_ops (a ++ b) d = run_ops b (run_ops a d).
Proof. unfold run_ops. apply fold_left_app. Qed.

Lemma guarded_app (a b : list ledger_op) (d : DownloadState) :
  guarded d (a ++ b) = true <->
  guarded d a = true /\ guarded (run_ops a d) b = true.
Proof.
  revert d. induction a as [|o a IH]; intros d.
  - simpl. tauto.
  - change ((o :: a) ++ b) with (o :: (a ++ b)).
    rewrite (guarded_cons d o (a ++ b)), (guarded_cons d o a), IH.
    change (run_ops (o :: a) d) with (run_ops a (apply_op d o)). tauto.
Qed.

Lemma only_attempts_quiet (ops : list ledger_op) (d : DownloadState) :
  only_attempts ops = true ->
  guarded d ops = true /\ succeeded (run_ops ops d) = succeeded d.
Proof.
  revert d. induction ops as [|o ops IH]; intros d H; [split; reflexivity|].
  destruct o as [now i t u|now i m ok err|now i p m sz|now i];
    try discriminate H.
  destruct (IH (apply_op d (RecordAttempt now i m ok err)) H) as [Hg Hs].
  split.
  - apply guarded_cons. split; [reflexivity|exact Hg].
  - change (run_ops (RecordAttempt now i m ok err :: ops) d)
      with (run_ops ops (apply_op d (RecordAttempt now i m ok err))).
    rewrite Hs. reflexivity.
Qed.

Lemma only_attempts_app (a b : list ledger_op) :
  only_attempts (a ++ b) = only_attempts a && only_attempts b.
Proof. unfold only_attempts. apply forallb_app. Qed.

Lemma coherent_run (ops : list ledger_op) (d : DownloadState) :
  coherent d -> coherent (run_ops ops d).
Proof.
  revert d. induction ops as [|o ops IH]; intros d H; [exact H|].
  change (run_ops (o :: ops) d) with (run_ops ops (apply_op d o)).
  apply IH, coherent_step, H.
Qed.

Variable now : pystr.

Lemma try_strategies_history
      (l : list (document -> item -> DownloadState -> option pystr * DownloadState))
      doc meeting d :
  Forall (fun s => exists method, forall doc meeting d,
            ends_well now method meeting d (s doc meeting d)) l ->
  exists ops,
    snd (try_strategies l doc meeting d) = run_ops ops d
    /\ calls_about now (id meeting) ops
    /\ if fst (try_strategies l doc meeting d)
       then exists pre path method sz,
              ops = pre ++ [MarkSuccess now (id meeting) path method sz]
              /\ only_attempts pre = true
       else only_attempts ops = true.
Proof.
  intros Hl. revert d. induction Hl as [|s l (method & Hs) _ IH]; intros d.
  - exists []. split; [reflexivity|]. split; [constructor|reflexivity].
  - simpl. destruct (Hs doc meeting d) as [(path & sz & E)|(err & E)];
      rewrite E; cbn [fst snd].
    + exists [RecordAttempt now (id meeting) method true None;
              MarkSuccess now (id meeting) path method sz].
      split; [reflexivity|]. split.
      * repeat constructor.
      * exists [RecordAttempt now (id meeting) method true None], path, method, sz.
        split; reflexivity.
    + destruct (IH (failure_end now d (id meeting) method err))
        as (ops & Ho & Hc & Hb).
      exists (RecordAttempt now (id meeting) method false (Some err) :: ops).
      split; [exact Ho|]. split.
      * constructor; [split; reflexivity|exact Hc].
      * destruct (fst (try_strategies l doc meeting
                         (failure_end now d (id meeting) method err))).
        -- destruct Hb as (pre & path & m & sz & -> & Hp).
           exists (RecordAttempt now (id meeting) method false (Some err) :: pre),
             path, m, sz.
           split; [reflexivity|exact Hp].
        -- exact Hb.
Qed.

End HistoryFacts.

Section HistoryFacts2.
Import Py Browser StateFile Downloader.

Variable now : pystr.
Variable lower : pystr -> pystr.
Variable fs : filesystem.
Variable json_loads : pystr -> result json.

Lemma attempts_history (pg : page) (meeting : item) (remaining retry : nat)
      (d : DownloadState) :
  exists ops,
    snd (attempts now lower fs json_loads pg meeting retry remaining d)
    = run_ops ops d
    /\ calls_about now (id meeting) ops
    /\ download_calls now (id meeting)
         (fst (attempts now lower fs json_loads pg meeting retry remaining d))
         ops.
Proof.
  revert retry d. induction remaining as [|remaining IH]; intros retry d.
  - exists [MarkFailure now (id meeting)]. split; [reflexivity|].
    split; [repeat constructor|].
    exists [], (MarkFailure now (id meeting)). split; [reflexivity|].
    split; reflexivity.
  - cbn [attempts].
    assert (Hfail : forall err,
      exists ops,
        snd (attempts now lower fs json_loads pg meeting (S retry) remaining
               (record_attempt now d (id meeting) (py "navigation") false
                  (Some err)))
        = run_ops ops d
        /\ calls_about now (id meeting) ops
        /\ download_calls now (id meeting)
             (fst (attempts now lower fs json_loads pg meeting (S retry) remaining
                     (record_attempt now d (id meeting) (py "navigation") false
                        (Some err))))
             ops).
    { intros err.
      destruct (IH (S retry)
                  (record_attempt now d (id meeting) (py "navigation") false
                     (Some err)))
        as (ops & Ho & Hc & (pre & last & -> & Hp & Hlast)).
      exists (RecordAttempt now (id meeting) (py "navigation") false (Some err)
              :: pre ++ [last]).
      split; [exact Ho|]. split; [constructor; [split; reflexivity|exact Hc]|].
      exists (RecordAttempt now (id meeting) (py "navigation") false (Some err)
              :: pre), last.
      split; [reflexivity|]. split; [exact Hp|exact Hlast]. }
    destruct (goto pg (url meeting) retry) as [doc|[msg|msg]];
      [|apply Hfail|apply Hfail].
    destruct (try_strategies_history now _ doc meeting d
                (strategies_end_well now lower fs json_loads))
      as (ops1 & Ho1 & Hc1 & Hb1).
    destruct (try_strategies (strategies now lower fs json_loads) doc meeting d)
      as [[|] d1]; cbn [fst snd] in *.
    + exists ops1. split; [exact Ho1|]. split; [exact Hc1|].
      destruct Hb1 as (pre & path & m & sz & -> & Hp).
      exists pre, (MarkSuccess now (id meeting) path m sz).
      split; [reflexivity|]. split; [exact Hp|]. eauto.
    + destruct (IH (S retry) d1)
        as (ops & Ho & Hc & (pre & last & -> & Hp & Hlast)).
      exists (ops1 ++ pre ++ [last]).
      split; [rewrite run_ops_app, <- Ho1; exact Ho|].
      split; [apply Forall_app; split; assumption|].
      exists (ops1 ++ pre), last. split; [rewrite app_assoc; reflexivity|].
      split; [|exact Hlast].
      rewrite only_attempts_app, Hb1, Hp. reflexivity.
Qed.

Lemma download_calls_guarded (i : pystr) (b : bool) (ops : list ledger_op)
      (d : DownloadState) :
  is_downloaded d i = false ->
  download_calls now i b ops -> guarded d ops = true.
Proof.
  intros Hd (pre & last & -> & Hp & Hlast).
  destruct (only_attempts_quiet pre d Hp) as [Hg Hs].
  apply guarded_app. split; [exact Hg|].
  destruct b.
  - destruct Hlast as (path & m & sz & ->). reflexivity.
  - subst last. simpl. unfold is_downloaded in *.
    change (successful_downloads (state (run_ops pre d)))
      with (succeeded (run_ops pre d)).
    rewrite Hs. unfold succeeded. rewrite Hd. reflexivity.
Qed.

Lemma download_meeting_history (pg : page) (meeting : item)
      (d : DownloadState) (max_retries : Z) :
  exists ops,
    snd (download_meeting now lower fs json_loads pg meeting d max_retries)
    = run_ops ops d
    /\ guarded d ops = true
    /\ calls_about now (id meeting) ops
    /\ (is_downloaded d (id meeting) = true -> ops = [])
    /\ (is_downloaded d (id meeting) = false ->
        download_calls now (id meeting)
          (fst (download_meeting now lower fs json_loads pg meeting d max_retries))
          ops).
Proof.
  unfold download_meeting. destruct (is_downloaded d (id meeting)) eqn:E.
  - exists []. split; [reflexivity|]. split; [reflexivity|].
    split; [constructor|]. split; [reflexivity|discriminate].
  - destruct (attempts_history pg meeting (Z.to_nat max_retries) 0 d)
      as (ops & Ho & Hc & Hd).
    exists ops. split; [exact Ho|].
    split; [exact (download_calls_guarded _ _ _ d E Hd)|].
    split; [exact Hc|]. split; [discriminate|]. intros _. exact Hd.
Qed.

End HistoryFacts2.

Section HistoryClaims.
Import Py Browser StateFile Downloader.

(** X17.  What [download_meeting] does to the ledger is a sequence of
    calls of its methods about its meeting, in which [mark_failure] is
    called only while the meeting is not downloaded: none for a meeting
    that is downloaded, otherwise records of attempts followed by one
    [mark_success] when it returns [True] and by one [mark_failure]
    when it returns [False].  So, if no id is in both lists and no id
    is twice in the list of failures before the call, the same holds
    after it; and if the status of the entries agrees with the lists
    before, it does after. *)
Theorem download_meeting_is_a_guarded_history now lower fs json_loads
        (pg : page) (meeting : item) (d : DownloadState) (max_retries : Z) :
  let r := download_meeting now lower fs json_loads pg meeting d max_retries in
  (exists ops,
     snd r = run_ops ops d
     /\ guarded d ops = true
     /\ calls_about now (id meeting) ops
     /\ (is_downloaded d (id meeting) = true -> ops = [])
     /\ (is_downloaded d (id meeting) = false ->
         download_calls now (id meeting) (fst r) ops))
  /\ (lists_disjoint d = true -> NoDup (given_up d) ->
      lists_disjoint (snd r) = true /\ NoDup (given_up (snd r)))
  /\ (coherent d -> coherent (snd r)).
Proof.
  intros r.
  destruct (download_meeting_history now lower fs json_loads pg meeting d
              max_retries) as (ops & Ho & Hg & Hc & H1 & H2).
  fold r in Ho, H2. split; [|split].
  - exists ops. tauto.
  - intros Hdis Hnd. rewrite Ho.
    assert (Hok : ledger_ok d = true).
    { apply ledger_ok_spec. split; [apply lists_disjoint_spec, Hdis|exact Hnd]. }
    pose proof (ledger_ok_run ops d Hok Hg) as Hrun.
    apply ledger_ok_spec in Hrun. destruct Hrun as [Hr1 Hr2].
    split; [apply lists_disjoint_spec, Hr1|exact Hr2].
  - intros Hco. rewrite Ho. apply coherent_run, Hco.
Qed.

End HistoryClaims.

Section ConsistencyFacts.
Import Py Browser StateFile Downloader Config.
Local Open Scope Z_scope.

Lemma same_lists_consistent (d d' : DownloadState) :
  succeeded d' = succeeded d -> given_up d' = given_up d ->
  (forall j, status_of d' j = status_of d j \/ status_of d' j = Some Pending) ->
  (ledger_ok d = true -> ledger_ok d' = true) /\ (coherent d -> coherent d').
Proof.
  intros Hs Hg Hst. split.
  - unfold ledger_ok, lists_disjoint. rewrite Hs, Hg. tauto.
  - intros Hc j. destruct (Hc j) as [H1 H2].
    rewrite Hs, Hg. destruct (Hst j) as [E|E]; rewrite E;
      [tauto|split; discriminate].
Qed.

Variable now : pystr.
Variable lower : pystr -> pystr.
Variable fs : filesystem.
Variable json_loads : pystr -> result json.

Lemma download_all_consistent (pg : page) (todo : list item) (n : Z)
      (d : DownloadState) :
  (ledger_ok d = true ->
   ledger_ok (snd (download_all now lower fs json_loads pg todo n d)) = true)
  /\ (coherent d ->
      coherent (snd (download_all now lower fs json_loads pg todo n d))).
Proof.
  revert n d. induction todo as [|m todo IH]; intros n d; [simpl; tauto|].
  cbn [download_all].
  destruct (download_meeting_history now lower fs json_loads pg m d
              default_max_retries) as (ops & Ho & Hg & _).
  destruct (download_meeting now lower fs json_loads pg m d default_max_retries)
    as [b d1]. cbn [snd] in Ho. subst d1.
  assert (H : forall n',
    (ledger_ok d = true ->
     ledger_ok (snd (download_all now lower fs json_loads pg todo n'
                       (run_ops ops d))) = true)
    /\ (coherent d ->
        coherent (snd (download_all now lower fs json_loads pg todo n'
                         (run_ops ops d))))).
  { intros n'. destruct (IH n' (run_ops ops d)) as [H1 H2]. split.
    - intros Hok. apply H1, ledger_ok_run; assumption.
    - intros Hco. apply H2, coherent_run, Hco. }
  destruct b; apply H.
Qed.

Lemma extract_meeting_info_consistent (page : document) (d : DownloadState)
      (found : list item) (d' : DownloadState) :
  extract_meeting_info now page d = Ok (found, d') ->
  (ledger_ok d = true -> ledger_ok d' = true) /\ (coherent d -> coherent d').
Proof.
  intros E.
  destruct (query_selector_all page link_selector) as [links|e] eqn:Eq.
  2:{ unfold extract_meeting_info in E. rewrite Eq in E. discriminate E. }
  destruct (extract_meeting_info_spec now page links d Eq)
    as (found' & d'' & E' & _ & _ & _ & Hr & Hu & _ & Hs & Hg & _).
  rewrite E in E'. injection E' as <- <-.
  apply same_lists_consistent; [exact Hs|exact Hg|].
  intros j. unfold status_of.
  destruct (decide (j ∈ ids_of found)) as [Hin|Hout].
  - apply elem_of_ids_of in Hin. destruct Hin as (m & Hm & <-).
    pose proof (Hr m Hm) as H. unfold registered in H. rewrite H.
    destruct (entry d (id m)); [left|right]; reflexivity.
  - left. rewrite (Hu j Hout). reflexivity.
Qed.

Lemma discover_and_download_consistent (a : run_args) (w : run_world)
      (d : DownloadState) :
  (ledger_ok d = true ->
   ledger_ok (snd (discover_and_download now lower fs json_loads a w d)) = true)
  /\ (coherent d ->
      coherent (snd (discover_and_download now lower fs json_loads a w d))).
Proof.
  unfold discover_and_download.
  destruct (extract_meeting_info now (listing w) d) as [[found d1]|e] eqn:E;
    [|cbn [snd]; split; intros H; exact H].
  pose proof (extract_meeting_info_consistent (listing w) d found d1 E) as H1.
  destruct found as [|m0 found0]; [exact H1|].
  destruct (not_downloaded d1 (limited a (m0 :: found0))) as [|t0 todo0];
    [exact H1|].
  pose proof (download_all_consistent (the_page w) (t0 :: todo0) 0 d1) as H2.
  destruct (download_all now lower fs json_loads (the_page w) (t0 :: todo0) 0 d1)
    as [n d2]. cbn [snd] in *. unfold final_report. cbn [snd].
  destruct H1 as [A1 B1]. destruct H2 as [A2 B2]. split.
  - intros H. exact (A2 (A1 H)).
  - intros H. exact (B2 (B1 H)).
Qed.

Lemma run_download_consistent (a : run_args) (w : run_world) :
  (ledger_ok (if reset a then new_DownloadState None
              else new_DownloadState (found_file w)) = true ->
   ledger_ok (snd (run_download now lower fs json_loads a w)) = true)
  /\ (coherent (if reset a then new_DownloadState None
                else new_DownloadState (found_file w)) ->
      coherent (snd (run_download now lower fs json_loads a w))).
Proof.
  unfold run_download.
  set (d := if reset a then new_DownloadState None
            else new_DownloadState (found_file w)).
  destruct (the_session w) as [e| | |still].
  - cbn [snd]. split; intros H; exact H.
  - apply discover_and_download_consistent.
  - cbn [snd]. split; intros H; exact H.
  - destruct still; [cbn [snd]; split; intros H; exact H|].
    apply (discover_and_download_consistent a w
             (save now (with_state (set_session_created (Some now)) d))).
Qed.

End ConsistencyFacts.

Section ConsistencyClaim.
Import Py Browser StateFile Downloader Config.
Local Open Scope Z_scope.

(** X18.  A run of the sequential program keeps the ledger consistent:
    if, in the state it starts from (the loaded file, or the empty
    state after [--reset]), no id is in both lists and the list of
    failures has no duplicate, the same holds in the state it ends
    with; and if each entry with status [success] is in the list of
    successes and each entry with status [failed] in the list of
    failures at the start, so it is at the end. *)
Theorem run_keeps_the_ledger_consistent now lower fs json_loads
        (a : run_args) (w : run_world) :
  let d0 := if reset a then new_DownloadState None
            else new_DownloadState (found_file w) in
  let d' := snd (run_download now lower fs json_loads a w) in
  (ledger_ok d0 = true -> ledger_ok d' = true)
  /\ (coherent d0 -> coherent d').
Proof. apply run_download_consistent. Qed.

End ConsistencyClaim.

(** * Further invariants of the two lists *)

Section ListInvariants.
Import StateFile.

Lemma no_repeat_step (d : Downloader.DownloadState) (o : ledger_op) :
  NoDup (succeeded d) /\ NoDup (given_up d) ->
  NoDup (succeeded (apply_op d o)) /\ NoDup (given_up (apply_op d o)).
Proof.
  intros [Hs Hg].
  destruct o as [now i t u|now i m ok err|now i p m sz|now i]; simpl.
  - rewrite succeeded_register, given_up_register. tauto.
  - rewrite succeeded_record_attempt, given_up_record_attempt. tauto.
  - rewrite succeeded_mark_success, given_up_mark_success.
    split; [apply NoDup_append_new, Hs|].
    destruct (mem i (given_up d)); [apply NoDup_remove_first, Hg|exact Hg].
  - rewrite succeeded_mark_failure, given_up_mark_failure.
    split; [exact Hs|apply NoDup_append_new, Hg].
Qed.

(** X19.  Neither list ever holds an id twice: if the list of
    successes and the list of failures are free of duplicates (as in
    the empty ledger), they are so after every sequence of calls, so
    that the counts of [get_stats] count meetings. *)
Theorem lists_hold_each_id_once (ops : list ledger_op)
        (d : Downloader.DownloadState) :
  NoDup (succeeded d) -> NoDup (given_up d) ->
  NoDup (succeeded (run_ops ops d)) /\ NoDup (given_up (run_ops ops d)).
Proof.
  intros Hs Hg. assert (H : NoDup (succeeded d) /\ NoDup (given_up d))
    by (split; assumption).
  clear Hs Hg. revert d H.
  induction ops as [|o ops IH]; intros d H; [exact H|].
  change (run_ops (o :: ops) d) with (run_ops ops (apply_op d o)).
  apply IH, no_repeat_step, H.
Qed.

Lemma lists_hold_each_id_once_witness :
  NoDup (succeeded (run_ops retried_history (Downloader.new_DownloadState None)))
  /\ NoDup (given_up (run_ops retried_history (Downloader.new_DownloadState None))).
Proof.
  exact (lists_hold_each_id_once retried_history
           (Downloader.new_DownloadState None) (NoDup_nil_2) (NoDup_nil_2)).
Defined.

End ListInvariants.

(** * The text that a worker saves *)

Section WorkerText.
Import Py Browser StateFile Parallel.
Local Open Scope Z_scope.

Lemma header_length now (meeting : meeting) (method : string) :
  100 <= len (header now meeting method).
Proof.
  unfold header, len. rewrite !length_app. unfold repeat_char.
  rewrite repeat_length. simpl length. lia.
Qed.

Lemma element_parts_long (elements : list element) :
  Forall (fun t => 50 < len t) (element_parts elements).
Proof.
  induction elements as [|el rest IH]; simpl; [constructor|].
  destruct (inner_text el) as [text|e]; [|constructor].
  destruct (truthy text && (50 <? len text)) eqn:E; [|exact IH].
  constructor; [|exact IH].
  apply andb_true_iff in E. destruct E as [_ E]. apply Z.ltb_lt, E.
Qed.

Lemma content_parts_long (doc : document) :
  Forall (fun t => 50 < len t) (content_parts doc).
Proof.
  unfold content_parts. generalize selectors. intros l.
  induction l as [|s l IH]; simpl; [constructor|].
  apply Forall_app. split; [|exact IH].
  destruct (query_selector_all doc s); [apply element_parts_long|constructor].
Qed.

Lemma extract_transcript_text_length now (doc : document) (meeting : meeting) :
  extract_transcript_text now doc meeting = []
  \/ 150 < len (extract_transcript_text now doc meeting).
Proof.
  unfold extract_transcript_text.
  pose proof (content_parts_long doc) as Hp.
  destruct (content_parts doc) as [|p ps].
  - destruct (evaluate doc body_script) as [[body|]|e]; try (left; reflexivity).
    destruct (truthy body && (200 <? len body)) eqn:E; [|left; reflexivity].
    right. apply andb_true_iff in E. destruct E as [_ E]. apply Z.ltb_lt in E.
    pose proof (header_length now meeting "parallel_body_extraction") as Hh.
    unfold len in *. rewrite length_app. lia.
  - right. apply Forall_cons in Hp. destruct Hp as [Hp _].
    pose proof (header_length now meeting "parallel_text_extraction") as Hh.
    pose proof (join_length_ge [newline] p ps) as Hj.
    unfold len in *. rewrite length_app. lia.
Qed.

(** X20.  The text that a worker extracts is empty or longer than 150
    characters, the header alone having 100: the test of
    [download_single_transcript] on more than 100 characters only asks
    whether anything was found, that is whether one of the five
    selectors matched an element with more than 50 characters of text,
    or else the body has more than 200. *)
Theorem worker_length_test_asks_for_content now (doc : document)
        (meeting : meeting) :
  let text := extract_transcript_text now doc meeting in
  (text = [] \/ 150 < len text)
  /\ (long_enough text = true <->
      content_parts doc <> []
      \/ exists body, evaluate doc body_script = Ok (Some body)
                      /\ 200 < len body)
  /\ Forall (fun part => 50 < len part) (content_parts doc).
Proof.
  intros text. pose proof (extract_transcript_text_length now doc meeting) as H.
  fold text in H. split; [exact H|]. split; [|apply content_parts_long].
  rewrite <- (extract_transcript_text_found now doc meeting). fold text.
  unfold long_enough. split.
  - intros E Ht. rewrite Ht in E. discriminate E.
  - intros Hne. destruct H as [H|H]; [contradiction|].
    apply andb_true_iff. split.
    + destruct text; [contradiction|reflexivity].
    + apply Z.ltb_lt. lia.
Qed.

End WorkerText.

(** * The helpers [wait_with_retry] and [close_popups] *)

Section HelperClaims.
Import Py Browser StateFile Downloader.
Local Open Scope Z_scope.

Lemma wait_loop_spec (wait : nat -> result (option element)) (retries : Z)
      (remaining attempt : nat) (slept : Z) :
  let r := wait_loop wait retries attempt remaining slept in
  (forall msg, fst r <> Raise (PlaywrightTimeout msg))
  /\ (forall el,
        fst r = Ok (Some el) <->
        exists k, (attempt <= k < attempt + remaining)%nat
                  /\ wait k = Ok (Some el)
                  /\ forall j, (attempt <= j < k)%nat -> declines (wait j))
  /\ (fst r = Ok None <->
      forall j, (attempt <= j < attempt + remaining)%nat -> declines (wait j))
  /\ slept <= snd r <= slept + Z.max 0 (retries - 1 - Z.of_nat attempt).
Proof.
  revert attempt slept.
  induction remaining as [|remaining IH]; intros attempt slept; cbv zeta.
  - simpl. split; [discriminate|]. split; [|split; [|lia]].
    + intros el. split; [discriminate|]. intros (k & Hk & _). lia.
    + split; [|reflexivity]. intros _ j Hj. lia.
  - cbn [wait_loop].
    assert (Hnext : forall slept',
      declines (wait attempt) ->
      slept <= slept' <= slept + (if Z.of_nat attempt <? retries - 1 then 1 else 0) ->
      let r := wait_loop wait retries (S attempt) remaining slept' in
      (forall msg, fst r <> Raise (PlaywrightTimeout msg))
      /\ (forall el,
            fst r = Ok (Some el) <->
            exists k, (attempt <= k < attempt + S remaining)%nat
                      /\ wait k = Ok (Some el)
                      /\ forall j, (attempt <= j < k)%nat -> declines (wait j))
      /\ (fst r = Ok None <->
          forall j, (attempt <= j < attempt + S remaining)%nat ->
                    declines (wait j))
      /\ slept <= snd r <= slept + Z.max 0 (retries - 1 - Z.of_nat attempt)).
    { intros slept' Hd Hs. destruct (IH (S attempt) slept') as (H1 & H2 & H3 & H4).
      cbv zeta in *. split; [exact H1|]. split; [|split].
      - intros el. rewrite H2. split.
        + intros (k & Hk & Hw & Hj). exists k. split; [lia|]. split; [exact Hw|].
          intros j Hjk. destruct (decide (j = attempt)) as [->|Hne];
            [exact Hd|apply Hj; lia].
        + intros (k & Hk & Hw & Hj).
          destruct (decide (k = attempt)) as [->|Hne].
          * destruct Hd as [Hd|[msg Hd]]; rewrite Hd in Hw; discriminate Hw.
          * exists k. split; [lia|]. split; [exact Hw|].
            intros j Hjk. apply Hj. lia.
      - rewrite H3. split.
        + intros H j Hj. destruct (decide (j = attempt)) as [->|Hne];
            [exact Hd|apply H; lia].
        + intros H j Hj. apply H. lia.
      - destruct (Z.of_nat attempt <? retries - 1) eqn:E;
          [apply Z.ltb_lt in E|apply Z.ltb_ge in E]; lia. }
    destruct (wait attempt) as [[el|]|[msg|msg]] eqn:Ew.
    + cbn [fst snd]. split; [discriminate|]. split; [|split; [|lia]].
      * intros el'. split.
        -- intros [= <-]. exists attempt. split; [lia|]. split; [exact Ew|].
           intros j Hj. lia.
        -- intros (k & Hk & Hw & Hj).
           destruct (decide (k = attempt)) as [->|Hne]; [congruence|].
           assert (Hd : declines (wait attempt)) by (apply Hj; lia).
           destruct Hd as [Hd|[msg Hd]]; rewrite Hd in Ew; discriminate Ew.
      * split; [discriminate|]. intros H.
        assert (Hd : declines (wait attempt)) by (apply H; lia).
        destruct Hd as [Hd|[msg Hd]]; rewrite Hd in Ew; discriminate Ew.
    + apply Hnext; [left; reflexivity|].
      destruct (Z.of_nat attempt <? retries - 1); lia.
    + apply Hnext; [right; exists msg; reflexivity|].
      destruct (Z.of_nat attempt <? retries - 1); lia.
    + cbn [fst snd]. split; [discriminate|]. split; [|split; [|lia]].
      * intros el'. split; [discriminate|].
        intros (k & Hk & Hw & Hj).
        destruct (decide (k = attempt)) as [->|Hne]; [congruence|].
        assert (Hd : declines (wait attempt)) by (apply Hj; lia).
        destruct Hd as [Hd|[msg' Hd]]; rewrite Hd in Ew; discriminate Ew.
      * split; [discriminate|]. intros H.
        assert (Hd : declines (wait attempt)) by (apply H; lia).
        destruct Hd as [Hd|[msg' Hd]]; rewrite Hd in Ew; discriminate Ew.
Qed.

(** X21.  [wait_with_retry] never lets a timeout out.  It returns the
    element of the first attempt that finds one, provided every earlier
    attempt found nothing or timed out; it returns [None] exactly when
    each of the [retries] attempts does so; and it sleeps at most
    [retries - 1] seconds, none after the last attempt. *)
Theorem wait_with_retry_result (wait : nat -> result (option element))
        (retries : Z) :
  let r := wait_with_retry wait retries in
  (forall msg, fst r <> Raise (PlaywrightTimeout msg))
  /\ (forall el,
        fst r = Ok (Some el) <->
        exists k, (Z.of_nat k < retries)
                  /\ wait k = Ok (Some el)
                  /\ forall j, (j < k)%nat -> declines (wait j))
  /\ (fst r = Ok None <->
      forall j, Z.of_nat j < retries -> declines (wait j))
  /\ 0 <= snd r <= Z.max 0 (retries - 1).
Proof.
  unfold wait_with_retry.
  destruct (wait_loop_spec wait retries (Z.to_nat retries) 0 0)
    as (H1 & H2 & H3 & H4).
  cbv zeta in *. split; [exact H1|]. split; [|split].
  - intros el. rewrite H2. split.
    + intros (k & Hk & Hw & Hj). exists k. split; [lia|]. split; [exact Hw|].
      intros j Hjk. apply Hj. lia.
    + intros (k & Hk & Hw & Hj). exists k. split; [lia|]. split; [exact Hw|].
      intros j Hjk. apply Hj. lia.
  - rewrite H3. split.
    + intros H j Hj. apply H. lia.
    + intros H j Hj. apply H. lia.
  - change (Z.of_nat 0) with 0 in H4. lia.
Qed.

Lemma first_visible_spec (buttons : list button) (btn : button) :
  first_visible buttons = Some btn ->
  btn ∈ buttons /\ is_visible btn = Ok true.
Proof.
  induction buttons as [|b rest IH]; simpl; [discriminate|].
  destruct (is_visible b) as [[|]|e] eqn:E; [|  |discriminate].
  - intros [= <-]. split; [apply elem_of_cons; left; reflexivity|exact E].
  - intros H. destruct (IH H) as [H1 H2].
    split; [apply elem_of_cons; right; exact H1|exact H2].
Qed.

Lemma popup_clicks_spec (query : pystr -> result (list button))
      (selectors : list pystr) :
  (length (popup_clicks query selectors) <= length selectors)%nat
  /\ (forall pre btn post,
        popup_clicks query selectors = pre ++ btn :: post ->
        (post <> [] -> click_failed btn)
        /\ (click btn = Ok tt -> post = [])
        /\ is_visible btn = Ok true
        /\ exists selector buttons,
             selector ∈ selectors /\ query selector = Ok buttons
             /\ btn ∈ buttons).
Proof.
  induction selectors as [|s rest [IHl IH]]; simpl.
  - split; [lia|]. intros pre btn post H. destruct pre; discriminate H.
  - assert (Hskip :
      (length (popup_clicks query rest) <= S (length rest))%nat
      /\ (forall pre btn post,
            popup_clicks query rest = pre ++ btn :: post ->
            (post <> [] -> click_failed btn)
            /\ (click btn = Ok tt -> post = [])
            /\ is_visible btn = Ok true
            /\ exists selector buttons,
                 selector ∈ s :: rest /\ query selector = Ok buttons
                 /\ btn ∈ buttons)).
    { split; [lia|]. intros pre btn post H.
      destruct (IH pre btn post H) as (H1 & H2 & H3 & sel & bs & H4 & H5 & H6).
      split; [exact H1|]. split; [exact H2|]. split; [exact H3|].
      exists sel, bs. split; [apply elem_of_cons; right; exact H4|].
      split; assumption. }
    destruct (query s) as [buttons|e] eqn:Eq; [|exact Hskip].
    destruct (first_visible buttons) as [b|] eqn:Ef; [|exact Hskip].
    destruct (first_visible_spec buttons b Ef) as [Hin Hvis].
    assert (Hhere : exists selector buttons0,
              selector ∈ s :: rest /\ query selector = Ok buttons0
              /\ b ∈ buttons0).
    { exists s, buttons. split; [apply elem_of_cons; left; reflexivity|].
      split; assumption. }
    destruct (click b) as [[]|e] eqn:Ec.
    + split; [simpl; lia|]. intros pre btn post H.
      destruct pre as [|x pre].
      * injection H as <- <-. split; [intros Hne; contradiction|].
        split; [reflexivity|]. split; [exact Hvis|exact Hhere].
      * injection H as Hx H. destruct pre; discriminate H.
    + split; [simpl; lia|]. intros pre btn post H.
      destruct pre as [|x pre].
      * injection H as <- Hp. split; [intros _; exists e; exact Ec|].
        split; [intros Hc; rewrite Hc in Ec; discriminate Ec|].
        split; [exact Hvis|exact Hhere].
      * injection H as Hx H. exact (proj2 Hskip pre btn post H).
Qed.

(** X22.  [close_popups] makes at most one click that returns, and it
    is the last thing it does: every click before the last one raised.
    It clicks at most once for each of its seven selectors, and only
    buttons that the page lists for one of them and reports as
    visible. *)
Theorem close_popups_clicks_once (query : pystr -> result (list button)) :
  (length (close_popups query) <= 7)%nat
  /\ forall pre btn post,
       close_popups query = pre ++ btn :: post ->
       (post <> [] -> click_failed btn)
       /\ (click btn = Ok tt -> post = [])
       /\ is_visible btn = Ok true
       /\ exists selector buttons,
            selector ∈ popup_close_selectors /\ query selector = Ok buttons
            /\ btn ∈ buttons.
Proof.
  unfold close_popups.
  destruct (popup_clicks_spec query popup_close_selectors) as [H1 H2].
  split; [exact H1|exact H2].
Qed.

End HelperClaims.

(** * The two programs on one ledger *)

Section TwoPrograms.
Import Py Browser StateFile.

(** X23.  On a ledger in which every entry with status [success] is in
    the list of successes, whatever the parallel program takes for
    pending (an entry whose key is not in the list of successes) is
    pending for the sequential program too (an entry with status
    [pending] or [failed]): the parallel program takes up no meeting
    that the sequential one regards as done. *)
Theorem parallel_pending_is_sequential_pending (d : Downloader.DownloadState)
        (kv : pystr * meeting) :
  coherent d ->
  kv ∈ Parallel.pending_items (Downloader.state d) ->
  kv ∈ Downloader.pending_items d.
Proof.
  intros Hc. unfold Parallel.pending_items, Downloader.pending_items.
  rewrite !list_elem_of_In, !filter_In. intros [Hin Hf].
  split; [exact Hin|]. destruct kv as [k e]. cbn [fst snd] in *.
  apply negb_true_iff in Hf.
  rewrite <- list_elem_of_In, elem_of_map_to_list in Hin.
  unfold Downloader.needs_download.
  destruct (m_status e) eqn:Es; try reflexivity.
  destruct (Hc k) as [Hs _]. unfold status_of, entry in Hs.
  rewrite Hin in Hs. simpl in Hs. rewrite Es in Hs.
  apply mem_false in Hf. exfalso. apply Hf, Hs. reflexivity.
Qed.

Lemma parallel_pending_is_sequential_pending_witness :
  (m1, pending_entry)
    ∈ Downloader.pending_items
        (Downloader.register_meeting clock (Downloader.new_DownloadState None)
           m1 (py "Standup") (py "https://otter.ai/u/m1-standup")).
Proof.
  apply (parallel_pending_is_sequential_pending
           (Downloader.register_meeting clock (Downloader.new_DownloadState None)
              m1 (py "Standup") (py "https://otter.ai/u/m1-standup"))
           (m1, pending_entry)).
  - apply (coherent_step (Downloader.new_DownloadState None)
             (Register clock m1 (py "Standup") (py "https://otter.ai/u/m1-standup"))).
    apply fresh_coherent.
  - apply list_elem_of_In. vm_compute. left. reflexivity.
Defined.

End TwoPrograms.
